(** * pdf-dost: the PDF service (server/services/pdfService.js)

    A shallow embedding of the transformation logic of [PDFService] and of
    the merge and compression handlers of [PDFController], with the
    properties the specification states about them.

    The pdf-lib primitives (load, copyPages, addPage, save) are an
    interface: the class [PdfLib] below.  Everything else is translated
    from the JavaScript source, function by function, under the names the
    source uses. *)

From Stdlib Require Import List Bool Arith ZArith QArith Lia Lqa.
From Stdlib.Lists Require Import Finite.
From Stdlib Require Import Ascii String.
From Stdlib.Strings Require Import Byte.
From Stdlib Require Import DecimalString.
From Stdlib Require DecimalZ.
Import ListNotations.

Set Implicit Arguments.

Close Scope Q_scope.
Open Scope string_scope.
Open Scope list_scope.

(* ===================================================================== *)
(** * Part I. Definitions                                                 *)
(* ===================================================================== *)

(** ** Sequences: what [startsWith], [includes] and a global [replace] do *)

Section Sequences.

Variable A : Type.
Variable eqb : A -> A -> bool.

(** [p] is a prefix of [s]. *)
Fixpoint prefixb (p s : list A) : bool :=
  match p, s with
  | [], _ => true
  | _ :: _, [] => false
  | x :: p', y :: s' => eqb x y && prefixb p' s'
  end.

(** [String.prototype.includes]: [p] occurs somewhere in [s]. *)
Fixpoint includesb (p s : list A) : bool :=
  prefixb p s ||
  match s with
  | [] => false
  | _ :: s' => includesb p s'
  end.

(** [s.replace(/pat/g, rep)] for a literal, non-empty pattern: scan from
    the left; at a match emit [rep] and resume after the match, otherwise
    copy one element.  [skip] counts the elements of a match that are
    still to be passed over. *)
Fixpoint replaceAllFrom (skip : nat) (pat rep s : list A) : list A :=
  match s with
  | [] => []
  | c :: t =>
      match skip with
      | S k => replaceAllFrom k pat rep t
      | O =>
          if prefixb pat s
          then rep ++ replaceAllFrom (List.length pat - 1) pat rep t
          else c :: replaceAllFrom 0 pat rep t
      end
  end.

Definition replaceAll (pat rep s : list A) : list A :=
  replaceAllFrom 0 pat rep s.

(** [Array.prototype.slice(-n)]: the last [n] elements. *)
Definition lastn (n : nat) (s : list A) : list A :=
  skipn (List.length s - n) s.

End Sequences.

Definition chars (s : string) : list ascii := list_ascii_of_string s.
Definition text_of (l : list ascii) : string := string_of_list_ascii l.

(** [String.prototype.includes] on strings. *)
Definition includes (s sub : string) : bool :=
  includesb Ascii.eqb (chars sub) (chars s).

(** ** JavaScript numbers

    [parseInt] yields [NaN] or an integer; [parseFloat] yields [NaN], an
    infinity or a finite double.  Every finite double is a rational, and
    [Math.min], [Math.max] and comparisons do not round, so the finite
    values are carried as [Q]. *)

Inductive jsint : Type :=
| IntNaN : jsint
| Int : Z -> jsint.

Inductive jsnum : Type :=
| NaN : jsnum
| NegInf : jsnum
| PosInf : jsnum
| Fin : Q -> jsnum.

(** An integer, or [NaN], as a number. *)
Definition numberOf (n : jsint) : jsnum :=
  match n with
  | IntNaN => NaN
  | Int z => Fin (inject_Z z)
  end.

(** [a || d] on a number: [NaN] and [0] are falsy. *)
Definition orDefault (a : jsint) (d : Z) : Z :=
  match a with
  | IntNaN => d
  | Int 0 => d
  | Int z => z
  end.



(** [n.toString()] for an integer. *)
Definition toString (n : Z) : list ascii :=
  chars (NilZero.string_of_int (Z.to_int n)).

(** ** ColorCodec: [hexToRgb] *)

Record Rgb : Type := mkRgb { r : jsnum; g : jsnum; b : jsnum }.

(** The class [[a-f\d]] under the [i] flag. *)
Definition hexDigitValue (c : ascii) : option Z :=
  let n := Z.of_nat (nat_of_ascii c) in
  if ((48 <=? n) && (n <=? 57))%Z then Some (n - 48)%Z
  else if ((97 <=? n) && (n <=? 102))%Z then Some (n - 87)%Z
  else if ((65 <=? n) && (n <=? 70))%Z then Some (n - 55)%Z
  else None.

Definition isHexDigit (c : ascii) : bool :=
  match hexDigitValue c with Some _ => true | None => false end.

(** [/^#?([a-f\d]{2})([a-f\d]{2})([a-f\d]{2})$/i.exec(hex)]: the three
    captured groups, or [None] for [null].  Trying the pattern without the
    optional [#] after a failure with it cannot succeed, since [#] is no
    hexadecimal digit. *)
Definition hexPattern_exec (hex : list ascii) : option (list ascii * list ascii * list ascii) :=
  let body := match hex with
              | "#"%char :: t => t
              | _ => hex
              end in
  match body with
  | [c1; c2; c3; c4; c5; c6] =>
      if forallb isHexDigit body
      then Some ([c1; c2], [c3; c4], [c5; c6])
      else None
  | _ => None
  end.

(** [parseInt(s, 16)] on a string that starts with its digits: the value
    of the longest prefix of hexadecimal digits, [NaN] when it is empty.
    (White space, a sign and a [0x] prefix cannot occur in a captured
    group and are not handled.) *)
Fixpoint parseHexDigits (acc : Z) (s : list ascii) : Z :=
  match s with
  | [] => acc
  | c :: t =>
      match hexDigitValue c with
      | Some d => parseHexDigits (16 * acc + d) t
      | None => acc
      end
  end.

Definition parseInt16 (s : list ascii) : jsint :=
  match s with
  | [] => IntNaN
  | c :: _ => if isHexDigit c then Int (parseHexDigits 0 s) else IntNaN
  end.

(** [n / 255]. *)
Definition div255 (n : jsint) : jsnum :=
  match n with
  | IntNaN => NaN
  | Int z => Fin (inject_Z z / 255)
  end.

Definition black : Rgb := mkRgb (Fin 0) (Fin 0) (Fin 0).

Definition hexToRgb (hex : string) : Rgb :=
  match hexPattern_exec (chars hex) with
  | Some (g1, g2, g3) =>
      mkRgb (div255 (parseInt16 g1)) (div255 (parseInt16 g2)) (div255 (parseInt16 g3))
  | None => black
  end.

(** ** TemplateEngine: [processTemplate] *)

Definition replaceText (pat : string) (rep s : list ascii) : list ascii :=
  replaceAll Ascii.eqb (chars pat) rep s.

Definition processTemplate (text : string) (pageNum totalPages : Z) : string :=
  let s1 := replaceText "Page (x) of (y)"
              (chars "Page " ++ toString pageNum ++ chars " of " ++ toString totalPages)
              (chars text) in
  let s2 := replaceText "(x) of (y)"
              (toString pageNum ++ chars " of " ++ toString totalPages) s1 in
  let s3 := replaceText "Page (x)" (chars "Page " ++ toString pageNum) s2 in
  let s4 := replaceText "(x)" (toString pageNum) s3 in
  let s5 := replaceText "(file)" (chars "Document") s4 in
  text_of s5.

(** ** The pdf-lib interface

    Buffers are byte sequences.  A thrown error is the [inl] of a result,
    carrying [error.message]. *)

Definition Buffer : Type := list byte.

Definition bytes_of (s : string) : Buffer := list_byte_of_string s.

Definition result (A : Type) : Type := (string + A)%type.

Definition bind {A B : Type} (x : result A) (f : A -> result B) : result B :=
  match x with
  | inl msg => inl msg
  | inr a => f a
  end.

Notation "'do' x <- e ; k" := (bind e (fun x => k))
  (at level 10, x name, e at level 100, k at level 200).

(** [try { ... } catch (error) { throw new Error(prefix + error.message) }] *)
Definition rethrow {A : Type} (prefix : string) (x : result A) : result A :=
  match x with
  | inl msg => inl (prefix ++ msg)%string
  | inr a => inr a
  end.

Record LoadOptions : Type := mkLoadOptions {
  ignoreEncryption : bool;
  throwOnInvalidObject : bool;
  updateMetadata : bool
}.

(** The options of a save.  [None] stands for [undefined], an option left
    to the library. *)
Record SaveOptions : Type := mkSaveOptions {
  useObjectStreams : option bool;
  addDefaultPage : bool;
  objectsPerTick : option Z;
  updateFieldAppearances : bool;
  compress : option bool
}.

Inductive Slot : Type :=
| LeftHeader | MiddleHeader | RightHeader
| LeftFooter | MiddleFooter | RightFooter.

(** What is drawn on a page.  The anchor of a text is given by its slot or
    position keyword: the coordinates are computed from the page size and
    the measured text width, which belong to the library. *)
Inductive DrawOp : Type :=
| DrawWhiteBackground (page : Z) (y : Z)
| DrawSlotText (page : Z) (slot : Slot) (text : string) (size : Z) (color : Rgb)
| DrawWatermark (page : Z) (text : string) (position : string) (size : Z)
                (color : Rgb) (opacity : jsnum) (rotation : Z).

Class PdfLib : Type := {
  Doc : Type;
  Page : Type;
  (** [PDFDocument.load(bytes, options)]; [None] for no options *)
  load : Buffer -> option LoadOptions -> result Doc;
  (** the time a load takes, in milliseconds *)
  loadMillis : Buffer -> Z;
  (** [PDFDocument.create()] *)
  create : Doc;
  getPageCount : Doc -> nat;
  (** [dst.copyPages(src, indices)] *)
  copyPages : Doc -> Doc -> list Z -> result (list Page);
  addPage : Doc -> Page -> Doc;
  (** [doc.save(options)]; [None] for no options *)
  save : Doc -> option SaveOptions -> result Buffer;
  (** the metadata setters of [compressPDF], taken together *)
  removeMetadataFields : Doc -> Doc;
  (** [doc.embedFont(StandardFonts...)], for the standard font of that
      name *)
  embedFont : Doc -> string -> Doc;
  (** [page.drawText] and [page.drawRectangle] on a page of the document *)
  draw : Doc -> DrawOp -> result Doc;
  (** the contract of the page list *)
  getPageCount_create : getPageCount create = 0%nat;
  getPageCount_addPage : forall d p, getPageCount (addPage d p) = S (getPageCount d);
  copyPages_length : forall dst src idx ps,
      copyPages dst src idx = inr ps -> List.length ps = List.length idx
}.

(** [copiedPages.forEach(page => doc.addPage(page))] *)
Definition addPages `{PdfLib} (d : Doc) (ps : list Page) : Doc :=
  fold_left addPage ps d.

(** The integers [lo], [lo+1], ..., [hi-1]: what
    [for (let j = lo; j < hi; j++) indices.push(j)] collects. *)
Definition range (lo hi : Z) : list Z :=
  map (fun k => (lo + Z.of_nat k)%Z) (seq 0 (Z.to_nat (hi - lo))).

(** Template literals print numbers; [NaN] prints as its name. *)
Definition showInt (n : jsint) : string :=
  match n with
  | IntNaN => "NaN"
  | Int z => text_of (toString z)
  end.

Definition showZ (z : Z) : string := text_of (toString z).

(** ** AnnotationPipeline: [addWatermarkToPDF] *)

(** [endPage === 0] is tested on the value itself: true for the number 0
    and for an absent key (the default is 0); any other value goes through
    [parseInt]. *)
Inductive EndPage : Type :=
| EndPageZero : EndPage
| EndPageValue (parsed : jsint) : EndPage.

(** A field of the request object: [None] when the key is absent, else
    what [parseInt] (or [parseFloat], for the opacity) makes of its value. *)
Record WatermarkData : Type := mkWatermarkData {
  wm_text : option string;
  wm_fontSize : option jsint;
  wm_opacity : option jsnum;
  wm_color : option string;
  wm_rotation : option jsint;
  wm_position : option string;
  wm_startPage : option jsint;
  wm_endPage : EndPage
}.

Definition getOr {A : Type} (x : option A) (d : A) : A :=
  match x with Some a => a | None => d end.




Definition int_max (a : Z) (b : jsint) : jsint :=
  match b with IntNaN => IntNaN | Int z => Int (Z.max a z) end.

Definition int_min (a : Z) (b : jsint) : jsint :=
  match b with IntNaN => IntNaN | Int z => Int (Z.min a z) end.

Definition int_pred (a : jsint) : jsint :=
  match a with IntNaN => IntNaN | Int z => Int (z - 1) end.

(** [Math.max(0, parseInt(startPage) - 1)] *)
Definition startPageIndex (w : WatermarkData) : jsint :=
  int_max 0 (int_pred (getOr (wm_startPage w) (Int 1))).

(** [Math.min(pages.length - 1, actualEndPage - 1)] *)
Definition endPageIndex (w : WatermarkData) (npages : Z) : jsint :=
  let actualEndPage :=
    match wm_endPage w with
    | EndPageZero => Int npages
    | EndPageValue parsed => parsed
    end in
  int_min (npages - 1) (int_pred actualEndPage).

(** The pages of [for (let i = startPageIndex; i <= endPageIndex; i++)]:
    a comparison with [NaN] is false, so the loop body never runs then. *)
Definition watermarkPages (w : WatermarkData) (npages : Z) : list Z :=
  match startPageIndex w, endPageIndex w npages with
  | Int lo, Int hi => range lo (hi + 1)
  | _, _ => []
  end.

Definition drawAll `{PdfLib} (d : Doc) (ops : list DrawOp) : result Doc :=
  fold_left (fun acc op => do d' <- acc; draw d' op) ops (inr d).


(** ** AnnotationPipeline: [addHeaderFooterToPDF] *)

Record HeaderFooterData : Type := mkHeaderFooterData {
  leftHeader : string;
  middleHeader : string;
  rightHeader : string;
  leftFooter : string;
  middleFooter : string;
  rightFooter : string;
  (** the number [startPage - 1] is computed from.  The value is used as
      it stands in the request, so this is what JavaScript's conversion to
      a number makes of it: a number is itself, fraction or not; [null],
      [false], the empty string and the empty array count as 0 and [true]
      as 1; a string that spells a number counts as that number; what
      converts to no number, such as any other string or a plain object,
      is [NaN]; an absent key is 1.  (The values are those the conversion
      gives a number for.) *)
  startPage : jsnum;
  coverWithWhite : bool;
  textColor : string;
  (** [parseInt(fontSize)] *)
  fontSize : jsint
}.

Definition headerY : Z := 750.
Definition footerY : Z := 50.

Definition isEmpty (s : string) : bool :=
  match s with EmptyString => true | _ => false end.

(** One [if (slotText) { ... }] block. *)
Definition slotOps (h : HeaderFooterData) (npages i : Z) (slot : Slot) (slotText : string)
  : list DrawOp :=
  if isEmpty slotText then []
  else [DrawSlotText i slot (processTemplate slotText (i + 1) npages)
          (orDefault (fontSize h) 10) (hexToRgb (textColor h))].

(** The body of the page loop, for a page that exists. *)
Definition pageOps (h : HeaderFooterData) (npages i : Z) : list DrawOp :=
  (if coverWithWhite h
   then [DrawWhiteBackground i headerY; DrawWhiteBackground i footerY]
   else [])
  ++ slotOps h npages i LeftHeader (leftHeader h)
  ++ slotOps h npages i MiddleHeader (middleHeader h)
  ++ slotOps h npages i RightHeader (rightHeader h)
  ++ slotOps h npages i LeftFooter (leftFooter h)
  ++ slotOps h npages i MiddleFooter (middleFooter h)
  ++ slotOps h npages i RightFooter (rightFooter h).

(** [pages[i]] is [undefined] outside [0 .. pages.length - 1], and
    [page.getSize()] on it throws a [TypeError]. *)
Definition undefinedPageError : string :=
  "Cannot read properties of undefined (reading 'getSize')".

(** [for (let i = startPage - 1; i < pages.length; i++) { ... }] *)
Fixpoint headerFooterLoop (fuel : nat) (h : HeaderFooterData) (npages i : Z)
  (ops : list DrawOp) : result (list DrawOp) :=
  match fuel with
  | O => inr ops
  | S fuel' =>
      if (i <? npages)%Z then
        if ((0 <=? i) && (i <? npages))%Z
        then headerFooterLoop fuel' h npages (i + 1) (ops ++ pageOps h npages i)
        else inl undefinedPageError
      else inr ops
  end.

(** The integer a finite number is, when it is one. *)
Definition integerValue (q : Q) : option Z :=
  if (Qnum q mod Zpos (Qden q) =? 0)%Z then Some (Qnum q / Zpos (Qden q))%Z else None.

(** The drawing operations of a request, in order, or the error thrown.

    A comparison with [NaN] is false, so the loop does not run then, nor
    from [Infinity]; from [-Infinity] the first [pages[i]] is [undefined].
    From a fraction [i] the first test [i < pages.length] decides: when it
    holds, [pages[i]] is [undefined], as no page stands at a fraction.
    ([startPage - 1] is computed in doubles.  The subtraction is exact for
    every double from 1 up to 2^53, where the doubles that are no integers
    end; above that the result, rounded or not, lies beyond every page
    count; and for a double below 1 the result is below 0 like the exact
    one.  So the rounding does not show in what the loop does.) *)
Definition headerFooterOps (h : HeaderFooterData) (npages : Z) : result (list DrawOp) :=
  match startPage h with
  | NaN | PosInf => inr []
  | NegInf => inl undefinedPageError
  | Fin q =>
      match integerValue q with
      | Some sp => headerFooterLoop (S (Z.to_nat npages)) h npages (sp - 1) []
      | None =>
          if Qle_bool (inject_Z npages) (q - 1)%Q then inr [] else inl undefinedPageError
      end
  end.

Definition addHeaderFooterToPDF `{PdfLib} (pdfBuffer : Buffer) (h : HeaderFooterData)
  : result Buffer :=
  rethrow "PDF processing failed: "
    (do pdfDoc <- load pdfBuffer None;
     let npages := Z.of_nat (getPageCount pdfDoc) in
     let pdfDoc := embedFont pdfDoc "Helvetica" in
     do ops <- headerFooterOps h npages;
     do pdfDoc' <- drawAll pdfDoc ops;
     save pdfDoc' None).

(** ** SplitPlanner: [splitPDF] *)

Record SplitData : Type := mkSplitData {
  splitType : string;
  (** [parseInt] of each entry of [pages] *)
  pages : list jsint;
  (** [parseInt] of the [start] and [end] of each entry of [ranges] *)
  ranges : list (jsint * jsint);
  (** [parseInt(everyNPages)] *)
  everyNPages : jsint;
  fileName : string
}.

(** One output of the split, before its pages are copied and saved. *)
Record SplitGroup : Type := mkSplitGroup {
  pageIndices : list Z;
  group_filename : string;
  group_pageRange : string;
  group_pageCount : jsint
}.

Record SplitResult : Type := mkSplitResult {
  buffer : Buffer;
  filename : string;
  pageRange : string;
  pageCount : jsint
}.

(** The [pages] branch: one group per entry that passes
    [pageNum > 0 && pageNum <= totalPages]. *)
Fixpoint planPages (fileName : string) (totalPages : Z) (pages : list jsint)
  : list SplitGroup :=
  match pages with
  | [] => []
  | IntNaN :: rest => planPages fileName totalPages rest
  | Int pageNum :: rest =>
      if ((0 <? pageNum) && (pageNum <=? totalPages))%Z
      then mkSplitGroup [(pageNum - 1)%Z]
             (fileName ++ "_page_" ++ showZ pageNum ++ ".pdf")
             ("Page " ++ showZ pageNum)
             (Int 1)
           :: planPages fileName totalPages rest
      else planPages fileName totalPages rest
  end.

(** The [ranges] branch. *)
Fixpoint planRanges (fileName : string) (totalPages : Z) (ranges : list (jsint * jsint))
  : list SplitGroup :=
  match ranges with
  | [] => []
  | (start, end_) :: rest =>
      match int_max 1 start, int_min totalPages end_ with
      | Int startPage, Int endPage =>
          if (startPage <=? endPage)%Z
          then mkSplitGroup (map (fun pageNum => (pageNum - 1)%Z) (range startPage (endPage + 1)))
                 (fileName ++ "_pages_" ++ showZ startPage ++ "_to_" ++ showZ endPage ++ ".pdf")
                 ("Pages " ++ showZ startPage ++ "-" ++ showZ endPage)
                 (Int (endPage - startPage + 1))
               :: planRanges fileName totalPages rest
          else planRanges fileName totalPages rest
      | _, _ => planRanges fileName totalPages rest
      end
  end.

(** The [every] branch for a numeric [n]:
    [for (let i = 0; i < totalPages; i += n) { ... partNumber++ }] *)
Fixpoint planEveryLoop (fuel : nat) (fileName : string) (totalPages n i partNumber : Z)
  : list SplitGroup :=
  match fuel with
  | O => []
  | S fuel' =>
      if (i <? totalPages)%Z then
        let endIndex := Z.min (i + n) totalPages in
        let startPage := (i + 1)%Z in
        let endPage := endIndex in
        mkSplitGroup (range i endIndex)
          (fileName ++ "_part_" ++ showZ partNumber ++ ".pdf")
          ("Pages " ++ showZ startPage ++ "-" ++ showZ endPage)
          (Int (endPage - startPage + 1))
        :: planEveryLoop fuel' fileName totalPages n (i + n) (partNumber + 1)
      else []
  end.

(** The [every] branch: [n = Math.max(1, parseInt(everyNPages))].  With
    [n = NaN] the first test [0 < totalPages] is the only one that can
    hold: [endIndex] is [NaN], no index is collected, and [i += n] ends
    the loop. *)
Definition planEvery (fileName : string) (totalPages : Z) (everyNPages : jsint)
  : list SplitGroup :=
  match int_max 1 everyNPages with
  | Int n => planEveryLoop (Z.to_nat totalPages) fileName totalPages n 0 1
  | IntNaN =>
      if (0 <? totalPages)%Z
      then [mkSplitGroup [] (fileName ++ "_part_1.pdf") "Pages 1-NaN" IntNaN]
      else []
  end.

Definition planSplit (d : SplitData) (totalPages : Z) : result (list SplitGroup) :=
  if String.eqb (splitType d) "pages" then inr (planPages (fileName d) totalPages (pages d))
  else if String.eqb (splitType d) "ranges" then inr (planRanges (fileName d) totalPages (ranges d))
  else if String.eqb (splitType d) "every" then inr (planEvery (fileName d) totalPages (everyNPages d))
  else inl ("Invalid split type: " ++ splitType d)%string.

(** A new document with the pages at [indices], saved. *)
Definition renderGroup `{PdfLib} (sourcePdf : Doc) (grp : SplitGroup) : result SplitResult :=
  let newPdf := create in
  do copiedPages <- copyPages newPdf sourcePdf (pageIndices grp);
  do pdfBytes <- save (addPages newPdf copiedPages) None;
  inr (mkSplitResult pdfBytes (group_filename grp) (group_pageRange grp) (group_pageCount grp)).

Fixpoint renderGroups `{PdfLib} (sourcePdf : Doc) (groups : list SplitGroup)
  : result (list SplitResult) :=
  match groups with
  | [] => inr []
  | grp :: rest =>
      do res <- renderGroup sourcePdf grp;
      do others <- renderGroups sourcePdf rest;
      inr (res :: others)
  end.

(** The source copies and saves each group as soon as it is planned.  A
    failure there aborts the whole call, so planning all groups first and
    rendering them in order gives the same result. *)
Definition splitPDF `{PdfLib} (pdfBuffer : Buffer) (d : SplitData)
  : result (list SplitResult) :=
  rethrow "PDF splitting failed: "
    (do sourcePdf <- load pdfBuffer None;
     let totalPages := Z.of_nat (getPageCount sourcePdf) in
     do groups <- planSplit d totalPages;
     do results <- renderGroups sourcePdf groups;
     match results with
     | [] => inl "No valid pages or ranges specified for splitting"
     | _ => inr results
     end).

(** ** ValidationPipeline: [validatePDFStructure]

    The source decodes the bytes as UTF-8 before it searches them.  All
    four markers are ASCII.  An ASCII byte decodes to itself wherever it
    stands, every other byte decodes to something that is no ASCII
    character, and nothing is put between two ASCII bytes that follow each
    other; so a marker is searched in the bytes.  The one thing the decoder
    takes away is a byte order mark at the very beginning. *)

(** [new TextDecoder().decode(bytes)], as far as the search for an ASCII
    marker can tell: without a leading byte order mark [EF BB BF]. *)
Definition decode (bytes : Buffer) : Buffer :=
  match bytes with
  | b1 :: b2 :: b3 :: text =>
      if Byte.eqb b1 xef && Byte.eqb b2 xbb && Byte.eqb b3 xbf then text else bytes
  | _ => bytes
  end.

Definition startsWith (bytes : Buffer) (marker : string) : bool :=
  prefixb Byte.eqb (bytes_of marker) bytes.

Definition bytesInclude (bytes : Buffer) (marker : string) : bool :=
  includesb Byte.eqb (bytes_of marker) bytes.

Definition validatePDFStructure (pdfBytes : Buffer) : result unit :=
  rethrow "PDF structure is invalid: "
    (let header := decode (firstn 8 pdfBytes) in
     let trailer := decode (lastn 1024 pdfBytes) in
     let pdfString := decode pdfBytes in
     if negb (startsWith header "%PDF-")
     then inl "Invalid PDF header"
     else if negb (bytesInclude trailer "%%EOF")
     then inl "Invalid PDF trailer - missing %%EOF"
     else if negb (bytesInclude pdfString "/Type /Catalog")
     then inl "Missing PDF catalog"
     else if negb (bytesInclude pdfString "/Type /Pages")
     then inl "Missing PDF pages structure"
     else inr tt).

(** ** MergeOrchestrator: [mergePDFs] *)

(** What the merge writes on the console about the copying of pages. *)
Inductive LogEvent : Type :=
| LogBatchCopied (count : nat)
| LogBatchFailed (firstPage lastPage : Z) (message : string)
| LogRecovered (page : Z)
| LogSkipped (page : Z) (message : string).

Definition isSkip (e : LogEvent) : bool :=
  match e with LogSkipped _ _ => true | _ => false end.

(** The number of pages the console reports as skipped. *)
Definition skippedPages (log : list LogEvent) : nat :=
  List.length (filter isSkip log).

Record MergeData : Type := mkMergeData {
  outputFileName : option string;
  addBookmarks : bool;
  fileNames : list string
}.

Definition MB : Z := 1024 * 1024.

Definition byteLength (bytes : Buffer) : Z := Z.of_nat (List.length bytes).

(** [x.toFixed(2)] for [x = bytes / (1024 * 1024)]: the nearest multiple
    of 0.01, the larger one at a tie.  The quotient is exact in a double. *)
Definition toFixed2MB (bytes : Z) : string :=
  let n := ((200 * bytes + MB) / (2 * MB))%Z in
  let frac := (n mod 100)%Z in
  (showZ (n / 100) ++ "." ++ (if (frac <? 10)%Z then "0" else "") ++ showZ frac)%string.

(** [bufferSizeMB > 100 ? 5 : (bufferSizeMB > 20 ? 10 : 20)] *)
Definition batchSizeFor (bytes : Z) : Z :=
  if (100 * MB <? bytes)%Z then 5
  else if (20 * MB <? bytes)%Z then 10
  else 20.

(** [Promise.race] of the load against a timer of
    [Math.max(30000, bufferSizeMB * 1000)] milliseconds: the timer wins
    when the load takes at least that long. *)
Definition loadTimesOut `{PdfLib} (bytes : Buffer) : bool :=
  let t := loadMillis bytes in
  ((30000 <=? t) && (byteLength bytes * 1000 <=? t * MB))%Z.

Definition mergeLoadOptions : LoadOptions := mkLoadOptions true false false.

(** The message of the timer goes on with the number of seconds; the
    handler of the per-file [catch] only looks for the word [timeout] in it
    and then replaces the message, so the model stops after that word. *)
Definition loadWithTimeout `{PdfLib} (i : Z) (bytes : Buffer) : result Doc :=
  if loadTimesOut bytes
  then inl ("PDF " ++ showZ (i + 1) ++ " loading timeout")%string
  else load bytes (Some mergeLoadOptions).

(** The retry of a failed batch, page by page.  [const [singlePage] = ...]
    takes the first copied page; by [copyPages_length] there is exactly
    one. *)
Definition copyIndividually `{PdfLib} (mergedPdf currentPdf : Doc) (indices : list Z)
  (acc : list Page * list LogEvent) : list Page * list LogEvent :=
  fold_left
    (fun acc singlePageIdx =>
       let '(allCopiedPages, log) := acc in
       match copyPages mergedPdf currentPdf [singlePageIdx] with
       | inr copied =>
           (allCopiedPages ++ firstn 1 copied, log ++ [LogRecovered (singlePageIdx + 1)])
       | inl msg =>
           (allCopiedPages, log ++ [LogSkipped (singlePageIdx + 1) msg])
       end)
    indices acc.

(** [for (let pageStart = 0; pageStart < pageCount; pageStart += batchSize)] *)
Fixpoint copyInBatches `{PdfLib} (fuel : nat) (mergedPdf currentPdf : Doc)
  (pageCount batchSize pageStart : Z) (acc : list Page * list LogEvent)
  : list Page * list LogEvent :=
  match fuel with
  | O => acc
  | S fuel' =>
      if (pageStart <? pageCount)%Z then
        let pageEnd := Z.min (pageStart + batchSize) pageCount in
        let indices := range pageStart pageEnd in
        let '(allCopiedPages, log) := acc in
        let acc' :=
          match copyPages mergedPdf currentPdf indices with
          | inr batchPages =>
              (allCopiedPages ++ batchPages, log ++ [LogBatchCopied (List.length batchPages)])
          | inl msg =>
              copyIndividually mergedPdf currentPdf indices
                (allCopiedPages, log ++ [LogBatchFailed (pageStart + 1) pageEnd msg])
          end in
        copyInBatches fuel' mergedPdf currentPdf pageCount batchSize
          (pageStart + batchSize) acc'
      else acc
  end.

(** The handler of the per-file [catch]. *)
Definition fileError (i : Z) (message : string) : string :=
  if includes message "timeout"
  then "PDF file " ++ showZ (i + 1) ++
       " is too large or complex to process. Consider splitting it into smaller files first."
  else if includes message "Invalid PDF"
  then "PDF file " ++ showZ (i + 1) ++ " appears to be corrupted or invalid."
  else "Failed to process PDF file " ++ showZ (i + 1) ++ ": " ++ message.

(** The body of the loop over the files, for file [i]. *)
Definition mergeFile `{PdfLib} (mergedPdf : Doc) (i : Z) (bytes : Buffer)
  (log : list LogEvent) : result Doc * list LogEvent :=
  match loadWithTimeout i bytes with
  | inl msg => (inl (fileError i msg), log)
  | inr currentPdf =>
      let pageCount := getPageCount currentPdf in
      let batchSize := batchSizeFor (byteLength bytes) in
      let '(allCopiedPages, log') :=
        copyInBatches pageCount mergedPdf currentPdf (Z.of_nat pageCount) batchSize 0
          ([], log) in
      (inr (addPages mergedPdf allCopiedPages), log')
  end.

Fixpoint mergeFiles `{PdfLib} (mergedPdf : Doc) (i : Z) (pdfBuffers : list Buffer)
  (log : list LogEvent) : result Doc * list LogEvent :=
  match pdfBuffers with
  | [] => (inr mergedPdf, log)
  | bytes :: rest =>
      match mergeFile mergedPdf i bytes log with
      | (inl msg, log') => (inl msg, log')
      | (inr mergedPdf', log') => mergeFiles mergedPdf' (i + 1) rest log'
      end
  end.

Definition mergeSaveOptions : SaveOptions :=
  mkSaveOptions (Some false) false (Some 50%Z) false (Some false).

Definition validationLoadOptions : LoadOptions := mkLoadOptions true true false.

(** The "Enhanced PDF validation" block. *)
Definition validateMerged `{PdfLib} (savedPdf : Buffer) (totalPages : nat) : result unit :=
  rethrow "Generated PDF is corrupted and cannot be opened: "
    (do validationPdf <- load savedPdf (Some validationLoadOptions);
     let validationPageCount := getPageCount validationPdf in
     do _ <- validatePDFStructure savedPdf;
     if Nat.eqb validationPageCount totalPages then inr tt
     else inl ("Page count mismatch: expected " ++ showZ (Z.of_nat totalPages) ++
               ", got " ++ showZ (Z.of_nat validationPageCount))%string).

(** [addBookmarksToMergedPDF] loads the inputs again and writes the
    bookmark titles on the console; it leaves the merged document as it is
    and swallows its own errors. *)
Definition addBookmarksToMergedPDF `{PdfLib} (mergedPdf : Doc) (pdfBuffers : list Buffer)
  (mergeData : MergeData) : Doc := mergedPdf.

Definition totalSize (pdfBuffers : list Buffer) : Z :=
  fold_left (fun sum bytes => (sum + byteLength bytes)%Z) pdfBuffers 0%Z.

(** The value returned or the error thrown, and the console log. *)
Definition mergePDFs `{PdfLib} (pdfBuffers : list Buffer) (mergeData : MergeData)
  : result Buffer * list LogEvent :=
  let wrap (x : result Buffer) := rethrow "PDF merge failed: " x in
  match pdfBuffers with
  | [] => (wrap (inl "No PDF files provided for merging"), [])
  | [_] => (wrap (inl "At least 2 PDF files are required for merging"), [])
  | _ =>
      if (500 * MB <? totalSize pdfBuffers)%Z
      then (wrap (inl ("Total file size (" ++ toFixed2MB (totalSize pdfBuffers) ++
                       " MB) exceeds 500MB limit. Consider splitting large files first.")%string),
            [])
      else
        match mergeFiles create 0 pdfBuffers [] with
        | (inl msg, log) => (wrap (inl msg), log)
        | (inr mergedPdf, log) =>
            let totalPages := getPageCount mergedPdf in
            let mergedPdf :=
              if addBookmarks mergeData
              then addBookmarksToMergedPDF mergedPdf pdfBuffers mergeData
              else mergedPdf in
            (wrap (do savedPdf <- save mergedPdf (Some mergeSaveOptions);
                   do _ <- validateMerged savedPdf totalPages;
                   inr savedPdf),
             log)
        end
  end.

(** [getPDFMergeInfo]: the page count of each input and their sum. *)
Record MergeInfo : Type := mkMergeInfo {
  fileCount : nat;
  info_totalPages : nat;
  filePageCounts : list nat;
  estimatedSize : Z
}.

Fixpoint loadPageCounts `{PdfLib} (pdfBuffers : list Buffer) : result (list nat) :=
  match pdfBuffers with
  | [] => inr []
  | bytes :: rest =>
      do pdf <- load bytes None;
      do counts <- loadPageCounts rest;
      inr (getPageCount pdf :: counts)
  end.

Definition getPDFMergeInfo `{PdfLib} (pdfBuffers : list Buffer) : result MergeInfo :=
  rethrow "Failed to analyze PDFs: "
    (do counts <- loadPageCounts pdfBuffers;
     inr (mkMergeInfo (List.length pdfBuffers) (list_sum counts) counts
            (totalSize pdfBuffers))).

(** ** The merge handler of the controller: [PDFController.mergePDFs] *)

Record UploadedFile : Type := mkUploadedFile {
  originalname : string;
  file_buffer : Buffer
}.

(** What [JSON.parse(req.body.mergeData)] gives: an object (an array is
    one; [{}] is taken when the field is absent or does not parse),
    [null], or a number, a string or a boolean, with the name of its type
    and its value as an error message prints them. *)
Inductive ParsedBody : Type :=
| ObjectBody : ParsedBody
| NullBody : ParsedBody
| PrimitiveBody (typeName printed : string) : ParsedBody.

Record MergeRequest : Type := mkMergeRequest {
  (** [req.files]; [None] when it is missing *)
  files : option (list UploadedFile);
  (** what [mergeData] is after the parsing *)
  req_mergeData : ParsedBody;
  (** for an object, [mergeData.outputFileName]: [None] when the key is
      absent or its value is falsy, else the text a template literal prints
      for the value *)
  req_outputFileName : option string;
  (** whether that value can be printed at all: [false] for an object that
      cannot be converted to a string, such as [{toString: 1}]; the field
      above is not looked at then *)
  req_outputFileNamePrints : bool;
  (** for an object, whether [mergeData.addBookmarks] is truthy *)
  req_addBookmarks : bool;
  (** [new Date().toISOString().replace(/[:.]/g, '-')] *)
  timestamp : string
}.

(** [mergeData.fileNames = fileNames]: the handler is a method of a class,
    whose body is strict code, so the assignment throws a [TypeError] on
    [null] and on a number, a string or a boolean.  The messages are those
    of the current versions of Node. *)
Definition assignFileNamesError (mergeData : ParsedBody) : option string :=
  match mergeData with
  | ObjectBody => None
  | NullBody => Some "Cannot set properties of null (setting 'fileNames')"
  | PrimitiveBody typeName printed =>
      Some ("Cannot create property 'fileNames' on " ++ typeName ++
            " '" ++ printed ++ "'")%string
  end.

(** What the caller receives: a JSON error body with its status, or the
    PDF with its response headers. *)
Inductive Response : Type :=
| JsonError (status : Z) (error details : string)
| PdfDownload (headers : list (string * string)) (body : Buffer).

(** The double quote character, as a string. *)
Definition quote : string := String (ascii_of_nat 34) EmptyString.

(** [buffer.toString('ascii', 0, 8)]: the first eight bytes, each with
    its highest bit cleared. *)
Definition clearHighBit (x : byte) : byte :=
  match ascii_of_byte x with
  | Ascii b0 b1 b2 b3 b4 b5 b6 _ => byte_of_ascii (Ascii b0 b1 b2 b3 b4 b5 b6 false)
  end.

Definition asciiHead (bytes : Buffer) : Buffer :=
  map clearHighBit (firstn 8 bytes).

(** [res.setHeader] refuses a value that holds a character other than a
    tab, a printable ASCII character or a character from 0x80 to 0xFF, and
    throws.  Strings are carried in UTF-8 here, where the characters from
    0x80 to 0xFF take the bytes 0x80 to 0xC3 and every character above them
    begins with a byte from 0xC4 on. *)
Definition validHeaderChar (c : ascii) : bool :=
  let n := nat_of_ascii c in
  ((n =? 9) || ((32 <=? n) && (n <=? 126)) || ((128 <=? n) && (n <=? 195)))%nat.

Definition validHeaderValue (value : string) : bool :=
  forallb validHeaderChar (chars value).

Definition invalidHeaderError (name : string) : string :=
  "Invalid character in header content [" ++ quote ++ name ++ quote ++ "]".

Definition contentDisposition (name : string) : string :=
  "attachment; filename=" ++ quote ++ name ++ quote.

(** The [TypeError] of a template literal on a value that cannot be
    converted to a string. *)
Definition unprintableError : string := "Cannot convert object to primitive value".

Definition mergeHeaders (name : string) (body : Buffer) : list (string * string) :=
  [ ("Content-Type", "application/pdf");
    ("Content-Disposition", contentDisposition name);
    ("Content-Length", showZ (byteLength body));
    ("Cache-Control", "no-cache, no-store, must-revalidate");
    ("Pragma", "no-cache");
    ("Expires", "0");
    ("Content-Encoding", "identity");
    ("Accept-Ranges", "bytes") ].

(** [a || b] on strings: the empty string is falsy. *)
Definition orString (a : option string) (d : string) : string :=
  match a with
  | Some s => if isEmpty s then d else s
  | None => d
  end.

Definition controllerMergePDFs `{PdfLib} (req : MergeRequest) : Response * list LogEvent :=
  match files req with
  | None | Some [] =>
      (JsonError 400 "No PDF files uploaded" "Please select at least 2 PDF files to merge", [])
  | Some [_] =>
      (JsonError 400 "Insufficient files" "At least 2 PDF files are required for merging", [])
  | Some uploaded =>
      let pdfBuffers := map file_buffer uploaded in
      match assignFileNamesError (req_mergeData req) with
      | Some msg => (JsonError 500 "PDF merge failed" msg, [])
      | None =>
          let mergeData :=
            mkMergeData (req_outputFileName req) (req_addBookmarks req)
              (map originalname uploaded) in
          match getPDFMergeInfo pdfBuffers with
          | inl msg => (JsonError 500 "PDF merge failed" msg, [])
          | inr mergeInfo =>
              match mergePDFs pdfBuffers mergeData with
              | (inl msg, log) => (JsonError 500 "PDF merge failed" msg, log)
              | (inr finalBuffer, log) =>
                  if (byteLength finalBuffer =? 0)%Z
                  then (JsonError 500 "PDF merge failed" "Merged PDF buffer is empty", log)
                  else if negb (startsWith (asciiHead finalBuffer) "%PDF-")
                  then (JsonError 500 "PDF merge failed"
                          "Merged PDF buffer does not contain valid PDF header", log)
                  else if negb (req_outputFileNamePrints req)
                  then (JsonError 500 "PDF merge failed" unprintableError, log)
                  else
                    let name :=
                      orString (outputFileName mergeData)
                        ("merged-document-" ++ timestamp req ++ ".pdf") in
                    if negb (validHeaderValue (contentDisposition name))
                    then (JsonError 500 "PDF merge failed"
                            (invalidHeaderError "Content-Disposition"), log)
                    else (PdfDownload (mergeHeaders name finalBuffer) finalBuffer, log)
              end
          end
      end
  end.

(** ** CompressionAdvisor: [compressPDF] *)

(** The value of [compressionLevel], by what the code can tell of it.

    The settings are looked up with [settings[level] || settings.medium],
    under the property key of the value; the later tests compare the value
    itself with the strings ['high'] and ['maximum'].
    - [low], [medium], [high], [maximum]: these four strings ([medium]
      also for an absent key);
    - [inheritedLevel]: a string under which every object inherits a
      member, such as ['constructor'] or ['toString']: the lookup finds
      that member, and every option read from it is [undefined];
    - [otherLevel]: any other string: the lookup finds nothing and the
      settings of [medium] are taken;
    - [notAString key]: a value that is no string and has the property
      key of [key], such as the array [['high']] or the number 5: it takes
      the settings [key] takes and equals no string in the later tests.
    The values are those that have a property key; an object that cannot
    be converted to a string has none. *)
Inductive CompressionLevel : Type :=
| low | medium | high | maximum | otherLevel | inheritedLevel
| notAString (key : CompressionLevel).

Record CompressionSettings : Type := mkCompressionSettings {
  cs_useObjectStreams : option bool;
  cs_objectsPerTick : option Z;
  cs_compress : option bool;
  cs_description : option string
}.

Fixpoint getCompressionSettings (level : CompressionLevel) : CompressionSettings :=
  match level with
  | low => mkCompressionSettings (Some false) (Some 100%Z) (Some true)
             (Some "Minimal compression, preserves maximum quality")
  | high => mkCompressionSettings (Some true) (Some 10%Z) (Some true)
              (Some "Strong compression, slight quality reduction")
  | maximum => mkCompressionSettings (Some false) (Some 1%Z) (Some true)
                 (Some "Maximum compression, quality may be affected")
  | medium | otherLevel =>
      mkCompressionSettings (Some true) (Some 25%Z) (Some true)
        (Some "Balanced compression with good quality")
  | inheritedLevel => mkCompressionSettings None None None None
  | notAString key => getCompressionSettings key
  end.

Record CompressionData : Type := mkCompressionData {
  compressionLevel : CompressionLevel;
  removeMetadata : bool
}.

Definition compressLoadOptions : LoadOptions := mkLoadOptions true false false.

Definition primarySettings (level : CompressionLevel) : SaveOptions :=
  let compressionSettings := getCompressionSettings level in
  mkSaveOptions (cs_useObjectStreams compressionSettings) false
    (cs_objectsPerTick compressionSettings) false (cs_compress compressionSettings).

Definition alternativeSettings : list SaveOptions :=
  [ mkSaveOptions (Some false) false (Some 5%Z) false (Some true);
    mkSaveOptions (Some true) false (Some 1%Z) false (Some true);
    mkSaveOptions (Some false) false (Some 1%Z) false (Some true) ].

Definition basicSettings : SaveOptions :=
  mkSaveOptions (Some false) false (Some 50%Z) false (Some true).

Definition isHighOrMaximum (level : CompressionLevel) : bool :=
  match level with
  | high | maximum => true
  | _ => false
  end.

(** The save configurations a tier tries, in order. *)
Definition tierSettings (level : CompressionLevel) : list SaveOptions :=
  primarySettings level :: (if isHighOrMaximum level then alternativeSettings else []).

(** [bestCompressed], with its [bestSettings]; [None] for [null], when
    [bestSize] is [Infinity]. *)
Definition Best : Type := option (Buffer * SaveOptions).

(** [result.length < bestSize] *)
Definition smallerThanBest (candidate : Buffer) (best : Best) : bool :=
  match best with
  | None => true
  | Some (bestCompressed, _) => (List.length candidate <? List.length bestCompressed)%nat
  end.

(** One [try { save; if (smaller) keep } catch { warn }] attempt. *)
Definition attempt `{PdfLib} (finalDoc : Doc) (best : Best) (settings : SaveOptions) : Best :=
  match save finalDoc (Some settings) with
  | inr candidate =>
      if smallerThanBest candidate best then Some (candidate, settings) else best
  | inl _ => best
  end.

(** The document that is saved: for [maximum], a fresh document with all
    pages copied into it, or the loaded one when that copy fails. *)
Definition freshDocument `{PdfLib} (level : CompressionLevel) (pdfDoc : Doc) : Doc :=
  match level with
  | maximum =>
      let finalDoc := create in
      let pageRefs := range 0 (Z.of_nat (getPageCount pdfDoc)) in
      match copyPages finalDoc pdfDoc pageRefs with
      | inr copiedPages => addPages finalDoc copiedPages
      | inl _ => pdfDoc
      end
  | _ => pdfDoc
  end.

(** The document [compressPDF] saves, from the loaded one. *)
Definition finalDocument `{PdfLib} (c : CompressionData) (pdfDoc : Doc) : Doc :=
  let pdfDoc := if removeMetadata c then removeMetadataFields pdfDoc else pdfDoc in
  freshDocument (compressionLevel c) pdfDoc.

(** The primary attempt followed by the alternative ones. *)
Definition bestAttempt `{PdfLib} (level : CompressionLevel) (finalDoc : Doc) : Best :=
  fold_left (attempt finalDoc) (tierSettings level) None.

Definition compressPDF `{PdfLib} (pdfBuffer : Buffer) (c : CompressionData)
  : result Buffer :=
  rethrow "PDF compression failed: "
    (do pdfDoc <- load pdfBuffer (Some compressLoadOptions);
     let finalDoc := finalDocument c pdfDoc in
     do bestCompressed <-
       match bestAttempt (compressionLevel c) finalDoc with
       | Some (bestCompressed, _) => inr bestCompressed
       | None => save finalDoc (Some basicSettings)
       end;
     do _ <- rethrow "Compression resulted in corrupted PDF: " (load bestCompressed None);
     inr bestCompressed).

(** ** Vocabulary of the properties *)

(** Six hexadecimal digits. *)
Definition SixHexDigits (body : list ascii) : Prop :=
  List.length body = 6%nat /\ Forall (fun c => isHexDigit c = true) body.

(** The string is an optional [#] followed by exactly six hexadecimal
    digits. *)
Definition matchesHexColour (hex : string) : Prop :=
  exists body, SixHexDigits body /\
               (chars hex = body \/ chars hex = "#"%char :: body).

(** The value of the two-digit hexadecimal numeral [c d]. *)
Definition twoDigitValue (c d : ascii) : Z :=
  (16 * getOr (hexDigitValue c) 0 + getOr (hexDigitValue d) 0)%Z.

(** A global replacement, as the words say it: a text in which the
    pattern does not occur stays as it is; otherwise the text is cut at the
    leftmost occurrence of the pattern (no occurrence begins before the
    cut), the replacement is put in the place of the occurrence, and what
    follows the occurrence is treated in the same way. *)
Inductive GlobalReplace (A : Type) (eqb : A -> A -> bool) (pat rep : list A)
  : list A -> list A -> Prop :=
| NoOccurrence (s : list A) :
    includesb eqb pat s = false ->
    GlobalReplace eqb pat rep s s
| LeftmostOccurrence (before after out : list A) :
    includesb eqb pat (before ++ removelast pat) = false ->
    GlobalReplace eqb pat rep after out ->
    GlobalReplace eqb pat rep (before ++ pat ++ after) (before ++ rep ++ out).

(** The placeholders of a header or footer text with what stands in for
    them at page [pageNum] of [totalPages], in the order of precedence. *)
Definition templateRules (pageNum totalPages : Z) : list (string * list ascii) :=
  [ ("Page (x) of (y)",
     chars "Page " ++ toString pageNum ++ chars " of " ++ toString totalPages);
    ("(x) of (y)", toString pageNum ++ chars " of " ++ toString totalPages);
    ("Page (x)", chars "Page " ++ toString pageNum);
    ("(x)", toString pageNum);
    ("(file)", chars "Document") ].

(** The placeholders that stand without the word [Page]. *)
Definition bareRules (pageNum totalPages : Z) : list (string * list ascii) :=
  [ ("(x) of (y)", toString pageNum ++ chars " of " ++ toString totalPages);
    ("(x)", toString pageNum);
    ("(file)", chars "Document") ].

(** The rules applied one after the other, each to the whole text the
    rule before it has left. *)
Inductive AppliedInOrder : list (string * list ascii) -> list ascii -> list ascii -> Prop :=
| AppliedNone (s : list ascii) : AppliedInOrder [] s s
| AppliedFirst (pat : string) (rep : list ascii) (rules : list (string * list ascii))
    (s mid out : list ascii) :
    GlobalReplace Ascii.eqb (chars pat) rep s mid ->
    AppliedInOrder rules mid out ->
    AppliedInOrder ((pat, rep) :: rules) s out.

(** A number between 0 and 1. *)
Definition inUnitInterval (x : jsnum) : Prop :=
  match x with
  | Fin q => (0 <= q /\ q <= 1)%Q
  | _ => False
  end.

(** The page numbers of a [pages] request that lie in [1 .. totalPages],
    in the order given, each as often as it is given. *)
Definition requestedPages (totalPages : Z) (pages : list jsint) : list Z :=
  flat_map (fun p => match p with
                     | Int z => if ((0 <? z) && (z <=? totalPages))%Z then [z] else []
                     | IntNaN => []
                     end) pages.

Definition emptySplitError : string :=
  "PDF splitting failed: No valid pages or ranges specified for splitting".

(** [res] is the output of a split for the pages at [indices]: its bytes
    are the saved form of a new document that holds the copies of those
    pages of the source, one page for each index, and nothing else. *)
Definition holdsPages `{PdfLib} (sourcePdf : Doc) (indices : list Z) (res : SplitResult)
  : Prop :=
  exists copiedPages,
    copyPages create sourcePdf indices = inr copiedPages /\
    getPageCount (addPages create copiedPages) = List.length indices /\
    save (addPages create copiedPages) None = inr (buffer res).

(** [res] is the output for the planned group [grp]: the pages of the
    group, under the name, page range and page count of the group. *)
Definition outputOf `{PdfLib} (sourcePdf : Doc) (grp : SplitGroup) (res : SplitResult)
  : Prop :=
  holdsPages sourcePdf (pageIndices grp) res /\
  filename res = group_filename grp /\
  pageRange res = group_pageRange grp /\
  pageCount res = group_pageCount grp.

(** [res] is the single-page output for the page number [pageNum] of a
    [pages] request on a file called [fileName]. *)
Definition singlePageOutput `{PdfLib} (sourcePdf : Doc) (fileName : string) (pageNum : Z)
  (res : SplitResult) : Prop :=
  holdsPages sourcePdf [(pageNum - 1)%Z] res /\
  filename res = (fileName ++ "_page_" ++ showZ pageNum ++ ".pdf")%string /\
  pageRange res = ("Page " ++ showZ pageNum)%string /\
  pageCount res = Int 1.

(** The inputs of a merge, numbered from [i], load as the documents
    [docs], each within its time limit. *)
Definition loadedAs `{PdfLib} (i : Z) (pdfBuffers : list Buffer) (docs : list Doc) : Prop :=
  Forall2 (fun (entry : Z * Buffer) d => loadWithTimeout (fst entry) (snd entry) = inr d)
    (combine (map (fun k => (i + Z.of_nat k)%Z) (seq 0 (List.length pdfBuffers))) pdfBuffers)
    docs.

(** The sum of the page counts of the documents. *)
Definition totalPageCount `{PdfLib} (docs : list Doc) : nat :=
  list_sum (map getPageCount docs).

(** The validation of the saved bytes [savedPdf] of a merged document
    fails: they do not load, or the structure check rejects them, or they
    load with another page count than the merged document has. *)
Definition validationFails `{PdfLib} (mergedPdf : Doc) (savedPdf : Buffer) : Prop :=
  (exists msg, load savedPdf (Some validationLoadOptions) = inl msg) \/
  (exists msg, validatePDFStructure savedPdf = inl msg) \/
  (exists validationPdf,
      load savedPdf (Some validationLoadOptions) = inr validationPdf /\
      getPageCount validationPdf <> getPageCount mergedPdf).

(** The name the merge handler gives the download. *)
Definition downloadName (req : MergeRequest) : string :=
  orString (req_outputFileName req) ("merged-document-" ++ timestamp req ++ ".pdf").


(** The bytes load again with the default options: the final check of
    [compressPDF]. *)
Definition reloads `{PdfLib} (bytes : Buffer) : Prop :=
  exists d, load bytes None = inr d.

(** [candidate] is what one of the save configurations of the tier makes
    of the document. *)
Definition savedBy `{PdfLib} (level : CompressionLevel) (finalDoc : Doc) (candidate : Buffer)
  : Prop :=
  exists settings, In settings (tierSettings level) /\
                   save finalDoc (Some settings) = inr candidate.

(** No save configuration of the tier makes anything smaller. *)
Definition smallestOf `{PdfLib} (level : CompressionLevel) (finalDoc : Doc) (bytes : Buffer)
  : Prop :=
  forall candidate, savedBy level finalDoc candidate ->
                    (List.length bytes <= List.length candidate)%nat.

(** What the save configurations [settingsList] make of the document, in
    their order; a configuration whose save fails makes nothing. *)
Definition outputsOf `{PdfLib} (finalDoc : Doc) (settingsList : list SaveOptions)
  : list Buffer :=
  flat_map (fun settings => match save finalDoc (Some settings) with
                            | inr candidate => [candidate]
                            | inl _ => []
                            end) settingsList.

(** The outputs of the save configurations of the tier. *)
Definition savedOutputs `{PdfLib} (level : CompressionLevel) (finalDoc : Doc) : list Buffer :=
  outputsOf finalDoc (tierSettings level).

(** [bytes] is the earliest among the smallest of [candidates]: everything
    before it is larger, and nothing after it is smaller. *)
Definition firstSmallest (bytes : Buffer) (candidates : list Buffer) : Prop :=
  exists earlier later,
    candidates = earlier ++ bytes :: later /\
    Forall (fun c => (List.length bytes < List.length c)%nat) earlier /\
    Forall (fun c => (List.length bytes <= List.length c)%nat) later.

(** The specification's reading of the choice: whenever some save
    configuration of the tier makes bytes that reload, [compressPDF]
    returns bytes that reload and are no larger than those. *)
Definition returnsSmallestValid `{PdfLib} (pdfBuffer : Buffer) (c : CompressionData) : Prop :=
  forall pdfDoc valid,
    load pdfBuffer (Some compressLoadOptions) = inr pdfDoc ->
    savedBy (compressionLevel c) (finalDocument c pdfDoc) valid ->
    reloads valid ->
    exists out, compressPDF pdfBuffer c = inr out /\ reloads out /\
                (List.length out <= List.length valid)%nat.

(** The specification's reading of the fallback: when no save
    configuration of the tier makes bytes that reload, [compressPDF]
    returns what the basic configuration makes. *)
Definition fallsBackWhenNoneValid `{PdfLib} (pdfBuffer : Buffer) (c : CompressionData) : Prop :=
  forall pdfDoc,
    load pdfBuffer (Some compressLoadOptions) = inr pdfDoc ->
    (forall candidate,
        savedBy (compressionLevel c) (finalDocument c pdfDoc) candidate ->
        ~ reloads candidate) ->
    exists out, compressPDF pdfBuffer c = inr out /\
                save (finalDocument c pdfDoc) (Some basicSettings) = inr out.

(** The output of tier [second] is no larger than that of tier [first],
    on the same input, whenever both return. *)
Definition sizeOrdered `{PdfLib} (pdfBuffer : Buffer) (removeMeta : bool)
  (first second : CompressionLevel) : Prop :=
  forall outFirst outSecond,
    compressPDF pdfBuffer (mkCompressionData first removeMeta) = inr outFirst ->
    compressPDF pdfBuffer (mkCompressionData second removeMeta) = inr outSecond ->
    (List.length outSecond <= List.length outFirst)%nat.

(** Sizes do not grow along low, medium, high, maximum. *)
Definition tiersNonIncreasing `{PdfLib} (pdfBuffer : Buffer) (removeMeta : bool) : Prop :=
  sizeOrdered pdfBuffer removeMeta low medium /\
  sizeOrdered pdfBuffer removeMeta medium high /\
  sizeOrdered pdfBuffer removeMeta high maximum.



(** A header and footer request with a page number on the right of the
    header, from [startPage] on. *)
Definition pageNumberHeader (startPage : jsint) : HeaderFooterData :=
  mkHeaderFooterData "" "" "Page (x) of (y)" "" "" "" (numberOf startPage) false "#000000"
    (Int 10).

(** ** A small model of the pdf-lib interface

    Used to run the service on concrete inputs.  A document is the list of
    its pages, and a page is one byte, a decimal digit; the page [0] is
    damaged and cannot be copied.  A file is a header, the pages and a
    trailer, which the loader insists on; saving with object streams (the
    library's choice when the option is left to it) adds a marker, and
    loses the trailer when the document holds a page [9]. *)

Definition isDigitByte (x : byte) : bool :=
  let n := Byte.to_N x in ((48 <=? n) && (n <=? 57))%N.

Definition toyHeader : Buffer := bytes_of "%PDF-toy /Type /Catalog /Type /Pages ".

Definition toyTrailer : Buffer := bytes_of " %%EOF".

Definition toyFile (pageDigits : string) : Buffer :=
  toyHeader ++ bytes_of pageDigits ++ toyTrailer.

Definition toyLoad (bytes : Buffer) (_ : option LoadOptions) : result (list byte) :=
  if startsWith bytes "%PDF-" && bytesInclude (lastn 1024 bytes) "%%EOF"
  then inr (filter isDigitByte bytes)
  else inl "Invalid PDF structure".

Definition toySave (d : list byte) (options : option SaveOptions) : result Buffer :=
  match options with
  | Some o =>
      match useObjectStreams o with
      | Some false => inr (toyHeader ++ d ++ toyTrailer)
      | _ => inr (toyHeader ++ bytes_of "Obj " ++ d ++
                    (if existsb (Byte.eqb "9"%byte) d then [] else toyTrailer))
      end
  | None => inr (toyHeader ++ d ++ toyTrailer)
  end.

Fixpoint toyCopyPages (src : list byte) (indices : list Z) : result (list byte) :=
  match indices with
  | [] => inr []
  | i :: rest =>
      match (if (0 <=? i)%Z then nth_error src (Z.to_nat i) else None) with
      | None => inl "page index out of range"
      | Some page =>
          if Byte.eqb page "0"%byte then inl "damaged page"
          else match toyCopyPages src rest with
               | inl msg => inl msg
               | inr copied => inr (page :: copied)
               end
      end
  end.

Definition toyPdf : PdfLib.
Proof.
  refine {| Doc := list byte;
            Page := byte;
            load := toyLoad;
            loadMillis := fun _ => 0%Z;
            create := [];
            getPageCount := @List.length byte;
            copyPages := fun _ src indices => toyCopyPages src indices;
            addPage := fun d page => d ++ [page];
            save := toySave;
            removeMetadataFields := fun d => d;
            embedFont := fun d _ => d;
            draw := fun d _ => inr d |}.
  - reflexivity.
  - intros d page. rewrite length_app. simpl. apply Nat.add_1_r.
  - intros _ src indices. induction indices as [|i rest IH]; intros copied; simpl.
    + intros [= <-]. reflexivity.
    + destruct (if (0 <=? i)%Z then nth_error src (Z.to_nat i) else None) as [page|];
        [|discriminate].
      destruct (Byte.eqb page "0"%byte); [discriminate|].
      destruct (toyCopyPages src rest) as [msg|others]; [discriminate|].
      intros [= <-]. simpl. f_equal. apply IH. reflexivity.
Defined.

(** A merge request of two files for the model library: one page, and one
    good page followed by the damaged pages [damaged]. *)
Definition toyMergeRequest (damaged : string) : MergeRequest :=
  mkMergeRequest
    (Some [mkUploadedFile "a.pdf" (toyFile "1");
           mkUploadedFile "b.pdf" (toyFile ("2" ++ damaged))])
    ObjectBody (Some "out.pdf") true false "2024-01-01T00-00-00-000Z".

(** ** Vocabulary of the further properties *)

(** A page index of a document of [totalPages] pages. *)
Definition inBounds (totalPages idx : Z) : Prop := (0 <= idx < totalPages)%Z.

(** What one entry of a [ranges] request selects: the indices of the pages
    from the larger of 1 and [start] to the smaller of [totalPages] and
    [end], or nothing when that window is empty or a bound is no number. *)
Definition clampedRange (totalPages : Z) (entry : jsint * jsint) : list (list Z) :=
  match entry with
  | (Int s, Int e) =>
      if (Z.max 1 s <=? Z.min totalPages e)%Z
      then [range (Z.max 1 s - 1) (Z.min totalPages e)]
      else []
  | _ => []
  end.

(** The name of the [k]-th part (counted from 0) of an [every] split. *)
Definition partName (fileName : string) (k : nat) : string :=
  fileName ++ "_part_" ++ showZ (Z.of_nat k + 1) ++ ".pdf".

(** The page a drawing operation draws on. *)
Definition opPage (op : DrawOp) : Z :=
  match op with
  | DrawWhiteBackground page _ => page
  | DrawSlotText page _ _ _ _ => page
  | DrawWatermark page _ _ _ _ _ _ => page
  end.

(** The text of a header or footer slot of a request. *)
Definition slotTextOf (h : HeaderFooterData) (slot : Slot) : string :=
  match slot with
  | LeftHeader => leftHeader h
  | MiddleHeader => middleHeader h
  | RightHeader => rightHeader h
  | LeftFooter => leftFooter h
  | MiddleFooter => middleFooter h
  | RightFooter => rightFooter h
  end.

(** The model library with a slow loader: one second for each byte of
    the file. *)
Definition slowToyPdf : PdfLib :=
  {| Doc := @Doc toyPdf;
     Page := @Page toyPdf;
     load := @load toyPdf;
     loadMillis := fun bytes => (1000 * byteLength bytes)%Z;
     create := @create toyPdf;
     getPageCount := @getPageCount toyPdf;
     copyPages := @copyPages toyPdf;
     addPage := @addPage toyPdf;
     save := @save toyPdf;
     removeMetadataFields := @removeMetadataFields toyPdf;
     embedFont := @embedFont toyPdf;
     draw := @draw toyPdf;
     getPageCount_create := @getPageCount_create toyPdf;
     getPageCount_addPage := @getPageCount_addPage toyPdf;
     copyPages_length := @copyPages_length toyPdf |}.

(** ** The compression handler of the controller: [PDFController.compressPDF] *)

(** A letter in lower case; any other character as it is. *)
Definition lowerAscii (c : ascii) : ascii :=
  let n := nat_of_ascii c in
  if ((65 <=? n) && (n <=? 90))%nat then ascii_of_nat (n + 32) else c.

(** [name.replace(/\.pdf$/i, '')]: the name without a final [.pdf], in
    whatever case. *)
Definition stripPdfSuffix (name : string) : string :=
  let l := chars name in
  let n := List.length l in
  if ((4 <=? n)%nat && prefixb Ascii.eqb (chars ".pdf") (map lowerAscii (lastn 4 l)))
  then text_of (firstn (n - 4) l)
  else name.

Record CompressRequest : Type := mkCompressRequest {
  (** [req.file]; [None] when it is missing *)
  creq_file : option UploadedFile;
  (** whether [JSON.parse(req.body.compressionData)] is [null], which the
      service cannot take apart; the three fields below are not looked at
      then *)
  creq_dataIsNull : bool;
  (** [JSON.parse(req.body.compressionData)], or [{}] when that fails,
      with the defaults of the service for the absent keys *)
  creq_data : CompressionData;
  (** [compressionData.outputFileName]: [None] when the key is absent or
      its value is falsy, else the text a template literal prints for the
      value *)
  creq_outputFileName : option string;
  (** whether that value can be printed at all *)
  creq_outputFileNamePrints : bool;
  creq_timestamp : string
}.

(** The [TypeError] of [const { compressionLevel, ... } = null], as the
    service passes it on. *)
Definition nullDataError : string :=
  "PDF compression failed: " ++
  "Cannot destructure property 'compressionLevel' of 'compressionData' as it is null.".

(** The response headers of a compressed download.  The reduction in
    percent is computed in floating point and printed with one decimal;
    its text is taken as given. *)
Definition compressHeaders (name reduction : string) (originalSize : Z) (body : Buffer)
  : list (string * string) :=
  [ ("Content-Type", "application/pdf");
    ("Content-Disposition", contentDisposition name);
    ("Content-Length", showZ (byteLength body));
    ("Cache-Control", "no-cache, no-store, must-revalidate");
    ("Pragma", "no-cache");
    ("Expires", "0");
    ("Content-Encoding", "identity");
    ("Accept-Ranges", "bytes");
    ("X-Original-Size", showZ originalSize);
    ("X-Compressed-Size", showZ (byteLength body));
    ("X-Compression-Ratio", reduction) ].

Definition compressedName (req : CompressRequest) (file : UploadedFile) : string :=
  orString (creq_outputFileName req)
    (stripPdfSuffix (originalname file) ++ "-compressed-" ++ creq_timestamp req ++ ".pdf").

(** [reductionPercent original compressed] stands for
    [((o - c) / o * 100).toFixed(1)] on the sizes in megabytes. *)
Definition controllerCompressPDF `{PdfLib} (reductionPercent : Z -> Z -> string)
  (req : CompressRequest) : Response :=
  match creq_file req with
  | None => JsonError 400 "No PDF file uploaded" "Please select a PDF file to compress"
  | Some file =>
      let originalSize := byteLength (file_buffer file) in
      if (250 * MB <? originalSize)%Z
      then JsonError 400 "File too large"
             "Maximum file size for compression is 250MB. Please use a smaller file."
      else if creq_dataIsNull req
      then JsonError 500 "PDF compression failed" nullDataError
      else
        match compressPDF (file_buffer file) (creq_data req) with
        | inl msg => JsonError 500 "PDF compression failed" msg
        | inr finalBuffer =>
            if (byteLength finalBuffer =? 0)%Z
            then JsonError 500 "PDF compression failed" "Compressed PDF buffer is empty"
            else if negb (startsWith (asciiHead finalBuffer) "%PDF-")
            then JsonError 500 "PDF compression failed"
                   "Compressed PDF buffer does not contain valid PDF header"
            else if negb (creq_outputFileNamePrints req)
            then JsonError 500 "PDF compression failed" unprintableError
            else if negb (validHeaderValue (contentDisposition (compressedName req file)))
            then JsonError 500 "PDF compression failed"
                   (invalidHeaderError "Content-Disposition")
            else
              PdfDownload
                (compressHeaders (compressedName req file)
                   (reductionPercent originalSize (byteLength finalBuffer))
                   originalSize finalBuffer)
                finalBuffer
        end
  end.

(* ===================================================================== *)
(** * Part II. Properties                                                 *)
(* ===================================================================== *)

Example template_page_3_of_10 :
  processTemplate "Page (x) of (y) - (x)" 3 10 = "Page 3 of 10 - 3".
Proof. vm_compute. reflexivity. Qed.

(** ** Sequences *)

Section SequenceFacts.

Variable A : Type.
Variable eqb : A -> A -> bool.
Hypothesis eqb_eq : forall x y, eqb x y = true <-> x = y.

Lemma prefixb_app (p s : list A) : prefixb eqb p (p ++ s) = true.
Proof.
  induction p as [|x p IH]; simpl; [reflexivity|].
  rewrite IH, andb_true_r. apply eqb_eq. reflexivity.
Qed.

Lemma prefixb_true_iff (p s : list A) :
  prefixb eqb p s = true <-> exists t, s = p ++ t.
Proof.
  split.
  - revert s. induction p as [|x p IH]; intros s H; simpl in *.
    + exists s. reflexivity.
    + destruct s as [|y s]; [discriminate|].
      apply andb_true_iff in H. destruct H as [Hxy Hp].
      apply eqb_eq in Hxy. subst y.
      destruct (IH _ Hp) as [t ->]. exists t. reflexivity.
  - intros [t ->]. apply prefixb_app.
Qed.

(** A pattern that holds an element the text lacks is no prefix of it. *)
Lemma prefixb_absent (c : A) (p s : list A) :
  In c p -> ~ In c s -> prefixb eqb p s = false.
Proof.
  intros Hp Hs. destruct (prefixb eqb p s) eqn:E; [|reflexivity].
  apply prefixb_true_iff in E. destruct E as [t ->].
  exfalso. apply Hs. apply in_or_app. left. exact Hp.
Qed.

Lemma includesb_of_prefixb (p s : list A) :
  prefixb eqb p s = true -> includesb eqb p s = true.
Proof. intros H. destruct s; simpl; rewrite H; reflexivity. Qed.

Lemma includesb_true_iff (p s : list A) :
  includesb eqb p s = true <-> exists u t, s = u ++ p ++ t.
Proof.
  split.
  - induction s as [|y s IH]; simpl; intros H.
    + rewrite orb_false_r in H. apply prefixb_true_iff in H.
      destruct H as [t Ht]. exists [], t. exact Ht.
    + apply orb_true_iff in H. destruct H as [H|H].
      * apply prefixb_true_iff in H. destruct H as [t Ht]. exists [], t. exact Ht.
      * destruct (IH H) as (u & t & ->). exists (y :: u), t. reflexivity.
  - intros (u & t & ->). induction u as [|y u IH].
    + change ([] ++ p ++ t) with (p ++ t).
      apply includesb_of_prefixb. apply prefixb_app.
    + simpl. rewrite IH. apply orb_true_r.
Qed.

(** Where the pattern does not occur, a global replace changes nothing. *)
Lemma replaceAll_absent (pat rep s : list A) :
  includesb eqb pat s = false -> replaceAll eqb pat rep s = s.
Proof.
  unfold replaceAll. induction s as [|c s IH]; simpl; intros H; [reflexivity|].
  apply orb_false_iff in H. destruct H as [Hp Hs].
  simpl in Hp. rewrite Hp. f_equal. apply IH. exact Hs.
Qed.

(** If the pattern [q] does not occur, no pattern that holds [q] does. *)
Lemma includesb_inner (u q v s : list A) :
  includesb eqb q s = false -> includesb eqb (u ++ q ++ v) s = false.
Proof.
  intros H. destruct (includesb eqb (u ++ q ++ v) s) eqn:E; [|reflexivity].
  apply includesb_true_iff in E. destruct E as (a & t & ->).
  assert (includesb eqb q (a ++ (u ++ q ++ v) ++ t) = true) as C.
  { apply includesb_true_iff. exists (a ++ u), (v ++ t).
    repeat rewrite <- app_assoc. reflexivity. }
  congruence.
Qed.

Lemma includesb_absent (c : A) (p s : list A) :
  In c p -> ~ In c s -> includesb eqb p s = false.
Proof.
  intros Hp. induction s as [|y s IH]; intros Hs; simpl.
  - rewrite (prefixb_absent c p [] Hp Hs). reflexivity.
  - rewrite (prefixb_absent c p (y :: s) Hp Hs). simpl.
    apply IH. intros Hin. apply Hs. right. exact Hin.
Qed.

Lemma prefixb_short (p s : list A) :
  (List.length s < List.length p)%nat -> prefixb eqb p s = false.
Proof.
  revert s. induction p as [|x p IH]; intros s H; simpl in *; [lia|].
  destruct s as [|y s]; [reflexivity|].
  simpl in H. rewrite IH by lia. apply andb_false_r.
Qed.

Lemma includesb_short (p s : list A) :
  (List.length s < List.length p)%nat -> includesb eqb p s = false.
Proof.
  induction s as [|y s IH]; intros H; simpl.
  - rewrite prefixb_short by exact H. reflexivity.
  - rewrite (prefixb_short p (y :: s)) by exact H. simpl in H. apply IH. lia.
Qed.

(** Whether the pattern is a prefix is settled by as many elements as the
    pattern has. *)
Lemma prefixb_app_long (p u v : list A) :
  (List.length p <= List.length u)%nat -> prefixb eqb p (u ++ v) = prefixb eqb p u.
Proof.
  revert u. induction p as [|x p IH]; intros u H; simpl; [reflexivity|].
  destruct u as [|y u]; simpl in H; [lia|].
  simpl. rewrite IH by lia. reflexivity.
Qed.

Lemma length_removelast_S (p : list A) :
  p <> [] -> List.length p = S (List.length (removelast p)).
Proof.
  intros Hp. destruct p as [|x p]; [congruence|].
  rewrite (app_removelast_last x Hp) at 1.
  rewrite length_app. simpl. lia.
Qed.

(** No occurrence begins in [c :: before] when none lies in it and all of
    the pattern but its last element. *)
Lemma prefixb_before_cut (c : A) (pat before after : list A) :
  pat <> [] ->
  prefixb eqb pat ((c :: before) ++ pat ++ after) =
  prefixb eqb pat ((c :: before) ++ removelast pat).
Proof.
  intros Hp. pose proof (length_removelast_S Hp) as Hlen.
  destruct pat as [|x pat']; [congruence|].
  assert ((x :: pat') ++ after =
          removelast (x :: pat') ++ ([last (x :: pat') x] ++ after)) as E.
  { rewrite app_assoc, <- (app_removelast_last x Hp). reflexivity. }
  rewrite E, app_assoc. apply prefixb_app_long.
  rewrite length_app. simpl List.length at 2. lia.
Qed.

(** The elements a match passes over are not looked at. *)
Lemma replaceAllFrom_skip (pat rep u v : list A) :
  replaceAllFrom eqb (List.length u) pat rep (u ++ v) = replaceAllFrom eqb 0 pat rep v.
Proof.
  induction u as [|c u IH]; [reflexivity|]. simpl. exact IH.
Qed.

(** The scan copies what stands before the leftmost occurrence, replaces
    the occurrence and goes on behind it. *)
Lemma replaceAll_leftmost (pat rep before after : list A) :
  pat <> [] ->
  includesb eqb pat (before ++ removelast pat) = false ->
  replaceAll eqb pat rep (before ++ pat ++ after) =
  before ++ rep ++ replaceAll eqb pat rep after.
Proof.
  intros Hp. unfold replaceAll. induction before as [|c before IH]; intros Hfree.
  - destruct pat as [|x pat']; [congruence|].
    change ([] ++ (x :: pat') ++ after) with (x :: pat' ++ after).
    cbn [replaceAllFrom].
    change (x :: pat' ++ after) with ((x :: pat') ++ after).
    rewrite prefixb_app.
    replace (List.length (x :: pat') - 1)%nat with (List.length pat') by (simpl; lia).
    rewrite replaceAllFrom_skip. reflexivity.
  - change ((c :: before) ++ removelast pat) with (c :: (before ++ removelast pat)) in Hfree.
    cbn [includesb] in Hfree. apply orb_false_iff in Hfree. destruct Hfree as [Hhere Hlater].
    change (c :: (before ++ removelast pat)) with ((c :: before) ++ removelast pat) in Hhere.
    rewrite <- (prefixb_before_cut c before after Hp) in Hhere.
    change ((c :: before) ++ pat ++ after) with (c :: (before ++ pat ++ after)) in *.
    cbn [replaceAllFrom]. rewrite Hhere. rewrite (IH Hlater). reflexivity.
Qed.

(** What the words say is what the scan does. *)
Lemma GlobalReplace_replaceAll (pat rep s out : list A) :
  pat <> [] -> GlobalReplace eqb pat rep s out -> out = replaceAll eqb pat rep s.
Proof.
  intros Hp H. induction H as [s Hfree | before after out Hfree Hrest IH].
  - symmetry. apply replaceAll_absent. exact Hfree.
  - rewrite (replaceAll_leftmost rep before after Hp Hfree), IH. reflexivity.
Qed.

Lemma GlobalReplace_cons (pat rep : list A) (c : A) (t out : list A) :
  pat <> [] ->
  prefixb eqb pat (c :: t) = false ->
  GlobalReplace eqb pat rep t out ->
  GlobalReplace eqb pat rep (c :: t) (c :: out).
Proof.
  intros Hp Hhere H. destruct H as [t Hfree | before after out Hfree Hrest].
  - apply NoOccurrence. cbn [includesb]. rewrite Hhere, Hfree. reflexivity.
  - change (c :: before ++ pat ++ after) with ((c :: before) ++ pat ++ after).
    change (c :: before ++ rep ++ out) with ((c :: before) ++ rep ++ out).
    apply LeftmostOccurrence; [|exact Hrest].
    change ((c :: before) ++ removelast pat) with (c :: (before ++ removelast pat)).
    cbn [includesb]. rewrite Hfree.
    change (c :: (before ++ removelast pat)) with ((c :: before) ++ removelast pat).
    rewrite <- (prefixb_before_cut c before after Hp).
    change ((c :: before) ++ pat ++ after) with (c :: (before ++ pat ++ after)).
    rewrite Hhere. reflexivity.
Qed.

Lemma replaceAll_GlobalReplace_bounded (pat rep : list A) (n : nat) (s : list A) :
  pat <> [] -> (List.length s <= n)%nat ->
  GlobalReplace eqb pat rep s (replaceAll eqb pat rep s).
Proof.
  intros Hp. unfold replaceAll. revert s.
  induction n as [|n IH]; intros s Hlen.
  - destruct s; [|simpl in Hlen; lia]. apply NoOccurrence.
    apply includesb_short. destruct pat; [congruence | simpl; lia].
  - destruct s as [|c t].
    + apply NoOccurrence. apply includesb_short. destruct pat; [congruence | simpl; lia].
    + cbn [replaceAllFrom]. destruct (prefixb eqb pat (c :: t)) eqn:Ehere.
      * apply prefixb_true_iff in Ehere. destruct Ehere as [after Hafter].
        destruct pat as [|x pat']; [congruence|].
        injection Hafter as -> ->.
        replace (List.length (x :: pat') - 1)%nat with (List.length pat') by (simpl; lia).
        rewrite replaceAllFrom_skip.
        change (x :: pat' ++ after) with ([] ++ (x :: pat') ++ after).
        change (rep ++ replaceAllFrom eqb 0 (x :: pat') rep after)
          with ([] ++ rep ++ replaceAllFrom eqb 0 (x :: pat') rep after).
        apply LeftmostOccurrence.
        -- apply includesb_short. rewrite (length_removelast_S Hp). simpl. lia.
        -- apply IH. simpl in Hlen. rewrite length_app in Hlen. lia.
      * apply GlobalReplace_cons; [exact Hp | exact Ehere |].
        apply IH. simpl in Hlen. lia.
Qed.

Lemma eqb_differ (x y : A) : x <> y -> eqb x y = false.
Proof.
  intros H. destruct (eqb x y) eqn:E; [|reflexivity].
  apply eqb_eq in E. contradiction.
Qed.

(** A stretch of text without the first element of the pattern is copied. *)
Lemma replaceAll_copy (h : A) (pat' rep w v : list A) :
  ~ In h w ->
  replaceAll eqb (h :: pat') rep (w ++ v) = w ++ replaceAll eqb (h :: pat') rep v.
Proof.
  unfold replaceAll. induction w as [|c w IH]; intros Hw; [reflexivity|].
  simpl app. cbn [replaceAllFrom prefixb].
  rewrite (@eqb_differ h c) by (intros ->; apply Hw; left; reflexivity).
  cbn [andb]. rewrite IH; [reflexivity|]. intros Hin. apply Hw. right. exact Hin.
Qed.

(** An occurrence at the very beginning is replaced. *)
Lemma replaceAll_match (pat rep v : list A) :
  pat <> [] -> replaceAll eqb pat rep (pat ++ v) = rep ++ replaceAll eqb pat rep v.
Proof.
  intros Hp. apply (@replaceAll_leftmost pat rep [] v Hp).
  apply includesb_short. rewrite (length_removelast_S Hp). simpl. lia.
Qed.

(** What a replacement leaves at the beginning, when it lacks the first
    element of the pattern, stood there before. *)
Lemma prefixb_before_replace (a : A) (pat' rep w t : list A) :
  ~ In a w ->
  prefixb eqb w (replaceAll eqb (a :: pat') (a :: rep) t) = true ->
  prefixb eqb w t = true.
Proof.
  unfold replaceAll. revert t. induction w as [|x w IH]; intros t Hw H; [reflexivity|].
  destruct t as [|y t]; [simpl in H; discriminate|].
  cbn [replaceAllFrom] in H.
  destruct (prefixb eqb (a :: pat') (y :: t)) eqn:E.
  - exfalso. simpl in H. apply andb_true_iff in H. destruct H as [Hxa _].
    apply eqb_eq in Hxa. apply Hw. left. exact Hxa.
  - cbn [prefixb] in H |- *. apply andb_true_iff in H. destruct H as [Hxy Hrest].
    rewrite Hxy. cbn [andb]. apply IH; [|exact Hrest].
    intros Hin. apply Hw. right. exact Hin.
Qed.

(** A rule for the pattern [q] behind a word [u] that puts the same word
    before what the rule for [q] alone puts in is absorbed by that rule
    coming after it: the outcome is that of the rule for [q] alone. *)
Lemma replaceAll_absorb_bounded (a h : A) (u' q' r : list A) (n : nat) (s : list A) :
  ~ In a (h :: q') -> ~ In h (a :: u') -> ~ In h r ->
  (List.length s <= n)%nat ->
  replaceAll eqb (h :: q') r
    (replaceAll eqb ((a :: u') ++ h :: q') ((a :: u') ++ r) s) =
  replaceAll eqb (h :: q') r s.
Proof.
  intros Ha Hu Hr. revert s. induction n as [|n IH]; intros s Hlen.
  - destruct s; [reflexivity | simpl in Hlen; lia].
  - destruct s as [|c t]; [reflexivity|].
    destruct (prefixb eqb ((a :: u') ++ h :: q') (c :: t)) eqn:E1.
    + apply prefixb_true_iff in E1. destruct E1 as [s' Hs']. rewrite Hs'.
      rewrite replaceAll_match by discriminate.
      rewrite <- !app_assoc.
      rewrite (@replaceAll_copy h q' r (a :: u') _ Hu).
      rewrite (@replaceAll_copy h q' r r _ Hr).
      rewrite (@replaceAll_copy h q' r (a :: u') _ Hu).
      rewrite (@replaceAll_match (h :: q') r s') by discriminate.
      rewrite IH; [reflexivity|].
      assert (List.length (c :: t) = List.length (((a :: u') ++ h :: q') ++ s')) as El
        by (rewrite Hs'; reflexivity).
      rewrite length_app in El. simpl in El, Hlen. lia.
    + assert (replaceAll eqb ((a :: u') ++ h :: q') ((a :: u') ++ r) (c :: t) =
              c :: replaceAll eqb ((a :: u') ++ h :: q') ((a :: u') ++ r) t) as Estep.
      { unfold replaceAll. cbn [replaceAllFrom]. rewrite E1. reflexivity. }
      rewrite Estep.
      destruct (prefixb eqb (h :: q') (c :: t)) eqn:E2.
      * apply prefixb_true_iff in E2. destruct E2 as [s' Hs'].
        injection Hs' as -> ->.
        change ((a :: u') ++ h :: q') with (a :: (u' ++ h :: q')).
        change ((a :: u') ++ r) with (a :: (u' ++ r)).
        rewrite (@replaceAll_copy a (u' ++ h :: q') (a :: (u' ++ r)) q' s')
          by (intros Hin; apply Ha; right; exact Hin).
        change (h :: q' ++ ?x) with ((h :: q') ++ x).
        rewrite !replaceAll_match by discriminate.
        change (a :: (u' ++ h :: q')) with ((a :: u') ++ h :: q').
        change (a :: (u' ++ r)) with ((a :: u') ++ r).
        rewrite IH; [reflexivity|]. simpl in Hlen. rewrite length_app in Hlen. lia.
      * assert (prefixb eqb (h :: q')
                  (c :: replaceAll eqb ((a :: u') ++ h :: q') ((a :: u') ++ r) t) = false)
          as Enew.
        { destruct (prefixb eqb (h :: q')
                      (c :: replaceAll eqb ((a :: u') ++ h :: q') ((a :: u') ++ r) t)) eqn:E3;
            [|reflexivity].
          exfalso. cbn [prefixb] in E3, E2. apply andb_true_iff in E3.
          destruct E3 as [Hhc Hrest]. rewrite Hhc in E2. cbn [andb] in E2.
          change ((a :: u') ++ h :: q') with (a :: (u' ++ h :: q')) in Hrest.
          change ((a :: u') ++ r) with (a :: (u' ++ r)) in Hrest.
          apply prefixb_before_replace in Hrest;
            [congruence | intros Hin; apply Ha; right; exact Hin]. }
        unfold replaceAll at 1. cbn [replaceAllFrom]. rewrite Enew.
        fold (replaceAll eqb (h :: q') r
                (replaceAll eqb ((a :: u') ++ h :: q') ((a :: u') ++ r) t)).
        rewrite IH by (simpl in Hlen; lia).
        unfold replaceAll at 2. cbn [replaceAllFrom]. rewrite E2. reflexivity.
Qed.

(** A global replacement of a non-empty pattern is the one thing the words
    describe. *)
Lemma replaceAll_spec (pat rep s out : list A) :
  pat <> [] ->
  (GlobalReplace eqb pat rep s out <-> out = replaceAll eqb pat rep s).
Proof.
  intros Hp. split.
  - apply GlobalReplace_replaceAll. exact Hp.
  - intros ->. apply replaceAll_GlobalReplace_bounded with (List.length s); [exact Hp | lia].
Qed.

End SequenceFacts.

(** ** ColorCodec *)

Lemma hexDigitValue_range (c : ascii) (v : Z) :
  hexDigitValue c = Some v -> (0 <= v <= 15)%Z.
Proof.
  unfold hexDigitValue.
  set (n := Z.of_nat (nat_of_ascii c)).
  destruct ((48 <=? n) && (n <=? 57))%Z eqn:E1.
  { intros [= <-]. apply andb_true_iff in E1. lia. }
  destruct ((97 <=? n) && (n <=? 102))%Z eqn:E2.
  { intros [= <-]. apply andb_true_iff in E2. lia. }
  destruct ((65 <=? n) && (n <=? 70))%Z eqn:E3.
  { intros [= <-]. apply andb_true_iff in E3. lia. }
  discriminate.
Qed.

Lemma hash_is_no_hexDigit : isHexDigit "#" = false.
Proof. reflexivity. Qed.

(** The optional [#] of the pattern: stripped when present. *)
Lemma strip_hash_other (a : ascii) (t : list ascii) :
  a <> "#"%char ->
  match a :: t with
  | "#"%char :: t' => t'
  | _ => a :: t
  end = a :: t.
Proof.
  intros Ha.
  destruct a as [[] [] [] [] [] [] [] []]; try reflexivity.
  exfalso. apply Ha. reflexivity.
Qed.

Lemma isHexDigit_not_hash (a : ascii) : isHexDigit a = true -> a <> "#"%char.
Proof. intros H ->. rewrite hash_is_no_hexDigit in H. discriminate. Qed.

Lemma isHexDigit_value (c : ascii) :
  isHexDigit c = true -> exists v, hexDigitValue c = Some v /\ (0 <= v <= 15)%Z.
Proof.
  unfold isHexDigit. destruct (hexDigitValue c) as [v|] eqn:E; [|discriminate].
  intros _. exists v. split; [reflexivity|]. apply hexDigitValue_range with c. exact E.
Qed.

Lemma parseInt16_two_digits (c d : ascii) :
  isHexDigit c = true -> isHexDigit d = true ->
  parseInt16 [c; d] = Int (twoDigitValue c d) /\ (0 <= twoDigitValue c d <= 255)%Z.
Proof.
  intros Hc Hd.
  destruct (isHexDigit_value c Hc) as (v & Ev & Rv).
  destruct (isHexDigit_value d Hd) as (w & Ew & Rw).
  unfold parseInt16, twoDigitValue. rewrite Hc.
  cbn [parseHexDigits]. rewrite Ev. cbn [parseHexDigits]. rewrite Ew.
  cbn [parseHexDigits getOr].
  split; [f_equal; lia | lia].
Qed.

Lemma div255_unit (z : Z) : (0 <= z <= 255)%Z -> inUnitInterval (div255 (Int z)).
Proof.
  intros Hz. simpl. unfold Qle, Qdiv, Qmult, Qinv, inject_Z. simpl. lia.
Qed.

Lemma hexPattern_exec_digits (c1 c2 c3 c4 c5 c6 : ascii) (l : list ascii) :
  Forall (fun c => isHexDigit c = true) [c1; c2; c3; c4; c5; c6] ->
  l = [c1; c2; c3; c4; c5; c6] \/ l = "#"%char :: [c1; c2; c3; c4; c5; c6] ->
  hexPattern_exec l = Some ([c1; c2], [c3; c4], [c5; c6]).
Proof.
  intros Hall Hl.
  assert (forallb isHexDigit [c1; c2; c3; c4; c5; c6] = true) as Hb.
  { apply forallb_forall. intros x Hx. rewrite Forall_forall in Hall. auto. }
  inversion Hall as [|? ? H1 _]; subst.
  unfold hexPattern_exec. destruct Hl as [-> | ->].
  - rewrite strip_hash_other by (apply isHexDigit_not_hash; exact H1).
    rewrite Hb. reflexivity.
  - cbv iota beta. rewrite Hb. reflexivity.
Qed.

(** Whenever the pattern matches, the string has the shape the pattern
    describes. *)
Lemma hexPattern_exec_Some (l : list ascii) (groups : list ascii * list ascii * list ascii) :
  hexPattern_exec l = Some groups ->
  exists body, SixHexDigits body /\ (l = body \/ l = "#"%char :: body).
Proof.
  unfold hexPattern_exec.
  set (body := match l with "#"%char :: t => t | _ => l end).
  assert (l = body \/ l = "#"%char :: body) as Hshape.
  { subst body. destruct l as [|a t]; [left; reflexivity|].
    destruct (Ascii.eqb_spec a "#"%char) as [-> | Hne].
    - right. reflexivity.
    - left. symmetry. apply strip_hash_other. exact Hne. }
  clearbody body.
  destruct body as [|c1 [|c2 [|c3 [|c4 [|c5 [|c6 [|c7 rest]]]]]]]; try discriminate.
  destruct (forallb isHexDigit [c1; c2; c3; c4; c5; c6]) eqn:Hb; [|discriminate].
  intros _. exists [c1; c2; c3; c4; c5; c6]. split; [|exact Hshape].
  split; [reflexivity|]. apply Forall_forall. intros x Hx.
  rewrite forallb_forall in Hb. auto.
Qed.

Lemma black_unit : inUnitInterval (r black) /\ inUnitInterval (g black) /\ inUnitInterval (b black).
Proof. simpl. unfold Qle. simpl. lia. Qed.

(** C10. [hexToRgb] returns black for every string that is not an optional
    [#] followed by exactly six hexadecimal digits; for a string of that
    shape each component is the value of its two digits divided by 255;
    and every component it returns lies between 0 and 1. *)
Theorem hexToRgb_spec (hex : string) :
  (~ matchesHexColour hex -> hexToRgb hex = black) /\
  (forall c1 c2 c3 c4 c5 c6,
      Forall (fun c => isHexDigit c = true) [c1; c2; c3; c4; c5; c6] ->
      chars hex = [c1; c2; c3; c4; c5; c6] \/
      chars hex = "#"%char :: [c1; c2; c3; c4; c5; c6] ->
      hexToRgb hex =
        mkRgb (Fin (inject_Z (twoDigitValue c1 c2) / 255))
              (Fin (inject_Z (twoDigitValue c3 c4) / 255))
              (Fin (inject_Z (twoDigitValue c5 c6) / 255))) /\
  (inUnitInterval (r (hexToRgb hex)) /\
   inUnitInterval (g (hexToRgb hex)) /\
   inUnitInterval (b (hexToRgb hex))).
Proof.
  assert (forall c1 c2 c3 c4 c5 c6,
      Forall (fun c => isHexDigit c = true) [c1; c2; c3; c4; c5; c6] ->
      chars hex = [c1; c2; c3; c4; c5; c6] \/
      chars hex = "#"%char :: [c1; c2; c3; c4; c5; c6] ->
      hexToRgb hex =
        mkRgb (div255 (Int (twoDigitValue c1 c2)))
              (div255 (Int (twoDigitValue c3 c4)))
              (div255 (Int (twoDigitValue c5 c6))) /\
      (0 <= twoDigitValue c1 c2 <= 255)%Z /\
      (0 <= twoDigitValue c3 c4 <= 255)%Z /\
      (0 <= twoDigitValue c5 c6 <= 255)%Z) as Hmatch.
  { intros c1 c2 c3 c4 c5 c6 Hall Hshape.
    unfold hexToRgb. rewrite (hexPattern_exec_digits Hall Hshape).
    repeat match goal with
           | H : Forall _ (_ :: _) |- _ => inversion H; subst; clear H
           end.
    destruct (parseInt16_two_digits c1 c2) as [-> ?]; auto.
    destruct (parseInt16_two_digits c3 c4) as [-> ?]; auto.
    destruct (parseInt16_two_digits c5 c6) as [-> ?]; auto. }
  split; [|split].
  - intros Hno. unfold hexToRgb.
    destruct (hexPattern_exec (chars hex)) as [groups|] eqn:E; [|reflexivity].
    exfalso. apply Hno. apply hexPattern_exec_Some with groups. exact E.
  - intros c1 c2 c3 c4 c5 c6 Hall Hshape.
    destruct (Hmatch c1 c2 c3 c4 c5 c6 Hall Hshape) as [-> _]. reflexivity.
  - destruct (hexPattern_exec (chars hex)) as [groups|] eqn:E.
    + destruct (hexPattern_exec_Some _ E) as (body & [Hlen Hall] & Hshape).
      destruct body as [|c1 [|c2 [|c3 [|c4 [|c5 [|c6 [|c7 rest]]]]]]]; try discriminate.
      destruct (Hmatch c1 c2 c3 c4 c5 c6 Hall Hshape) as (-> & H1 & H2 & H3).
      cbn [r g b]. repeat split; apply div255_unit; assumption.
    + unfold hexToRgb. rewrite E. apply black_unit.
Qed.

(** The theorem at the colours [#FF8000] and [red]. *)
Lemma hexToRgb_spec_witness :
  hexToRgb "#FF8000" = mkRgb (Fin (255 / 255)) (Fin (128 / 255)) (Fin (0 / 255)) /\
  hexToRgb "red" = black.
Proof.
  split.
  - apply (proj1 (proj2 (hexToRgb_spec "#FF8000")) "F" "F" "8" "0" "0" "0")%char.
    + repeat constructor.
    + right. reflexivity.
  - apply (proj1 (hexToRgb_spec "red")).
    intros (body & [Hlen _] & [H | H]).
    + rewrite <- H in Hlen. discriminate.
    + simpl in H. discriminate.
Defined.

(** ** TemplateEngine *)

Lemma replaceAllFrom_skip_all (A : Type) (eqb : A -> A -> bool) (pat rep t : list A) (k : nat) :
  (List.length t <= k)%nat -> replaceAllFrom eqb k pat rep t = [].
Proof.
  revert k. induction t as [|c t IH]; intros k Hk; simpl; [reflexivity|].
  destruct k as [|k]; simpl in Hk; [lia|]. apply IH. lia.
Qed.

Lemma replaceText_absent (pat : string) (rep s : list ascii) :
  includesb Ascii.eqb (chars pat) s = false -> replaceText pat rep s = s.
Proof. apply replaceAll_absent. Qed.

(** A text that is exactly the pattern becomes the replacement. *)
Lemma replaceText_self (pat : string) (rep : list ascii) :
  pat <> "" -> replaceText pat rep (chars pat) = rep.
Proof.
  intros Hne. unfold replaceText, replaceAll.
  destruct pat as [|c pat]; [congruence|].
  change (chars (String c pat)) with (c :: chars pat).
  cbn [replaceAllFrom].
  pose proof (prefixb_app Ascii.eqb Ascii.eqb_eq (c :: chars pat) []) as Hp.
  rewrite app_nil_r in Hp. rewrite Hp.
  rewrite replaceAllFrom_skip_all by (simpl; lia).
  apply app_nil_r.
Qed.

Lemma replaceText_no_paren (pat : string) (rep s : list ascii) :
  In "("%char (chars pat) -> ~ In "("%char s -> replaceText pat rep s = s.
Proof.
  intros Hp Hs. apply replaceText_absent.
  apply includesb_absent with "("%char; [apply Ascii.eqb_eq | exact Hp | exact Hs].
Qed.

Lemma string_of_uint_no_paren (d : Decimal.uint) :
  ~ In "("%char (chars (NilEmpty.string_of_uint d)).
Proof.
  induction d; simpl; intros H; try (destruct H as [H|H]; [discriminate | auto]).
  exact H.
Qed.

(** A printed integer holds no parenthesis. *)
Lemma toString_no_paren (n : Z) : ~ In "("%char (toString n).
Proof.
  unfold toString, NilZero.string_of_int, NilZero.string_of_uint.
  destruct (Z.to_int n) as [d|d].
  - destruct d; try apply (string_of_uint_no_paren (_ d)).
    simpl. intros [H|[]]. discriminate.
  - change (chars (String "-" ?s)) with ("-"%char :: chars s).
    intros [H|H]; [discriminate|]. revert H.
    destruct d; try apply (string_of_uint_no_paren (_ d)).
    simpl. intros [H|[]]. discriminate.
Qed.

Lemma no_paren_app (l1 l2 : list ascii) :
  ~ In "("%char l1 -> ~ In "("%char l2 -> ~ In "("%char (l1 ++ l2).
Proof. intros H1 H2 H. apply in_app_or in H. tauto. Qed.

Lemma no_paren_closed (l : list ascii) :
  existsb (Ascii.eqb "("%char) l = false -> ~ In "("%char l.
Proof.
  intros H Hin. assert (existsb (Ascii.eqb "("%char) l = true) as C.
  { apply existsb_exists. exists "("%char. split; [exact Hin | apply Ascii.eqb_refl]. }
  congruence.
Qed.

Ltac no_paren :=
  repeat first
    [ apply toString_no_paren
    | apply no_paren_app
    | apply no_paren_closed; reflexivity ].

(** One replacement step of [processTemplate] on a text that is known. *)
Ltac template_step :=
  match goal with
  | |- context [replaceText ?pat ?rep ?s] =>
      lazymatch s with
      | context [replaceText] => fail
      | _ =>
          first
            [ rewrite (@replaceText_self pat rep) by discriminate
            | rewrite (@replaceText_absent pat rep s) by reflexivity
            | rewrite (@replaceText_no_paren pat rep s)
                by (first [ simpl; tauto | no_paren ]) ]
      end
  end.

Lemma text_of_app (l1 l2 : list ascii) :
  text_of (l1 ++ l2) = (text_of l1 ++ text_of l2)%string.
Proof. induction l1 as [|c l1 IH]; simpl; [reflexivity | rewrite IH; reflexivity]. Qed.

Lemma text_of_chars (s : string) : text_of (chars s) = s.
Proof. apply string_of_list_ascii_of_string. Qed.

(** Each placeholder alone expands in full. *)
Lemma processTemplate_placeholders (p t : Z) :
  processTemplate "Page (x) of (y)" p t = ("Page " ++ showZ p ++ " of " ++ showZ t)%string /\
  processTemplate "(x) of (y)" p t = (showZ p ++ " of " ++ showZ t)%string /\
  processTemplate "Page (x)" p t = ("Page " ++ showZ p)%string /\
  processTemplate "(x)" p t = showZ p /\
  processTemplate "(file)" p t = "Document".
Proof.
  unfold processTemplate, showZ.
  repeat split; repeat template_step;
    repeat rewrite text_of_app; repeat rewrite text_of_chars; reflexivity.
Qed.

(** A text without [(x)] and without [(file)] holds no placeholder. *)
Lemma processTemplate_unchanged (text : string) (p t : Z) :
  includes text "(x)" = false -> includes text "(file)" = false ->
  processTemplate text p t = text.
Proof.
  unfold includes, processTemplate. intros Hx Hf.
  rewrite (@replaceText_absent "Page (x) of (y)" _ (chars text)).
  2:{ change (chars "Page (x) of (y)") with (chars "Page " ++ chars "(x)" ++ chars " of (y)").
      apply includesb_inner; [apply Ascii.eqb_eq | exact Hx]. }
  rewrite (@replaceText_absent "(x) of (y)" _ (chars text)).
  2:{ change (chars "(x) of (y)") with ([] ++ chars "(x)" ++ chars " of (y)").
      apply includesb_inner; [apply Ascii.eqb_eq | exact Hx]. }
  rewrite (@replaceText_absent "Page (x)" _ (chars text)).
  2:{ change (chars "Page (x)") with (chars "Page " ++ chars "(x)" ++ []).
      apply includesb_inner; [apply Ascii.eqb_eq | exact Hx]. }
  rewrite (@replaceText_absent "(x)" _ (chars text)) by exact Hx.
  rewrite (@replaceText_absent "(file)" _ (chars text)) by exact Hf.
  apply text_of_chars.
Qed.

(** One rule applied to a text gives what the replacement of the source
    gives, and nothing else. *)
Lemma replaceText_spec (pat : string) (rep s out : list ascii) :
  pat <> "" ->
  (GlobalReplace Ascii.eqb (chars pat) rep s out <-> out = replaceText pat rep s).
Proof.
  intros Hp. unfold replaceText. apply replaceAll_spec; [apply Ascii.eqb_eq|].
  destruct pat; [congruence | discriminate].
Qed.

(** The five rules applied in their order give what [processTemplate]
    computes, and nothing else. *)
Lemma processTemplate_applied (text : string) (p t : Z) (l : list ascii) :
  AppliedInOrder (templateRules p t) (chars text) l <->
  processTemplate text p t = text_of l /\
  l = replaceText "(file)" (chars "Document")
        (replaceText "(x)" (toString p)
           (replaceText "Page (x)" (chars "Page " ++ toString p)
              (replaceText "(x) of (y)" (toString p ++ chars " of " ++ toString t)
                 (replaceText "Page (x) of (y)"
                    (chars "Page " ++ toString p ++ chars " of " ++ toString t)
                    (chars text))))).
Proof.
  unfold templateRules. split.
  - intros H.
    inversion H as [|pat1 rep1 rules1 s0 s1 l1 G1 H1]; subst; clear H.
    inversion H1 as [|pat2 rep2 rules2 s1' s2 l2 G2 H2]; subst; clear H1.
    inversion H2 as [|pat3 rep3 rules3 s2' s3 l3 G3 H3]; subst; clear H2.
    inversion H3 as [|pat4 rep4 rules4 s3' s4 l4 G4 H4]; subst; clear H3.
    inversion H4 as [|pat5 rep5 rules5 s4' s5 l5 G5 H5]; subst; clear H4.
    inversion H5; subst; clear H5.
    apply replaceText_spec in G1; [|discriminate].
    apply replaceText_spec in G2; [|discriminate].
    apply replaceText_spec in G3; [|discriminate].
    apply replaceText_spec in G4; [|discriminate].
    apply replaceText_spec in G5; [|discriminate].
    subst. split; reflexivity.
  - intros [_ ->].
    repeat (eapply AppliedFirst; [apply replaceText_spec; [discriminate | reflexivity]|]).
    apply AppliedNone.
Qed.

Lemma no_char_closed (c : ascii) (l : list ascii) :
  existsb (Ascii.eqb c) l = false -> ~ In c l.
Proof.
  intros H Hin. assert (existsb (Ascii.eqb c) l = true) as C.
  { apply existsb_exists. exists c. split; [exact Hin | apply Ascii.eqb_refl]. }
  congruence.
Qed.

(** The two rules with the word [Page] never change the outcome: it is
    that of the three rules without the word. *)
Lemma processTemplate_bare (text : string) (p t : Z) :
  processTemplate text p t =
  text_of (replaceText "(file)" (chars "Document")
             (replaceText "(x)" (toString p)
                (replaceText "(x) of (y)" (toString p ++ chars " of " ++ toString t)
                   (chars text)))).
Proof.
  unfold processTemplate, replaceText. f_equal. f_equal. cbv zeta.
  change (chars "Page (x) of (y)")
    with (("P"%char :: chars "age ") ++ "("%char :: chars "x) of (y)").
  change (chars "Page (x)") with (("P"%char :: chars "age ") ++ "("%char :: chars "x)").
  change (chars "(x) of (y)") with ("("%char :: chars "x) of (y)").
  change (chars "(x)") with ("("%char :: chars "x)").
  change (chars "Page ") with ("P"%char :: chars "age ").
  rewrite (@replaceAll_absorb_bounded ascii Ascii.eqb Ascii.eqb_eq "P"%char "("%char
             (chars "age ") (chars "x) of (y)")
             (toString p ++ chars " of " ++ toString t)
             (List.length (chars text)) (chars text));
    [| apply no_char_closed; reflexivity | apply no_char_closed; reflexivity
     | no_paren | apply Nat.le_refl ].
  set (y := replaceAll Ascii.eqb ("("%char :: chars "x) of (y)")
              (toString p ++ chars " of " ++ toString t) (chars text)).
  apply (@replaceAll_absorb_bounded ascii Ascii.eqb Ascii.eqb_eq "P"%char "("%char
           (chars "age ") (chars "x)") (toString p) (List.length y) y);
    [ apply no_char_closed; reflexivity | apply no_char_closed; reflexivity
    | no_paren | apply Nat.le_refl ].
Qed.

(** The three rules without the word [Page], applied in their order, give
    what [processTemplate] computes, and nothing else. *)
Lemma processTemplate_applied_bare (text : string) (p t : Z) (out : string) :
  processTemplate text p t = out <->
  exists l, AppliedInOrder (bareRules p t) (chars text) l /\ out = text_of l.
Proof.
  rewrite processTemplate_bare. unfold bareRules. split.
  - intros <-. eexists. split; [|reflexivity].
    repeat (eapply AppliedFirst; [apply replaceText_spec; [discriminate | reflexivity]|]).
    apply AppliedNone.
  - intros (l & H & ->).
    inversion H as [|pat1 rep1 rules1 s0 s1 l1 G1 H1]; subst; clear H.
    inversion H1 as [|pat2 rep2 rules2 s1' s2 l2 G2 H2]; subst; clear H1.
    inversion H2 as [|pat3 rep3 rules3 s2' s3 l3 G3 H3]; subst; clear H2.
    inversion H3; subst; clear H3.
    apply replaceText_spec in G1; [|discriminate].
    apply replaceText_spec in G2; [|discriminate].
    apply replaceText_spec in G3; [|discriminate].
    subst. reflexivity.
Qed.

(** C5. For every text, [processTemplate] is the five rules applied in
    their order of precedence, each as a global replacement on the whole
    text the rule before it has left: [Page (x) of (y)] first, then
    [(x) of (y)], then [Page (x)], then [(x)], then [(file)]; every
    occurrence is replaced, from the left, and there is no other outcome.
    A placeholder that stands behind the word [Page] is expanded to the
    same text by the rule with the word and by the rule without it, so for
    every text the outcome is also that of the three rules without the
    word: every [(x) of (y)], then every [(x)], then every [(file)].
    So the text [Page (x) of (y) - (x)] at page 3 of 10 becomes
    [Page 3 of 10 - 3], and [(x) and (x)] becomes [3 and 3]; each
    placeholder standing alone is expanded in full, for every page number
    and page count; a text that holds no placeholder is returned as it is;
    and the empty text gives the empty text. *)
Theorem processTemplate_spec :
  processTemplate "Page (x) of (y) - (x)" 3 10 = "Page 3 of 10 - 3" /\
  (forall p t : Z,
      processTemplate "Page (x) of (y)" p t = ("Page " ++ showZ p ++ " of " ++ showZ t)%string /\
      processTemplate "(x) of (y)" p t = (showZ p ++ " of " ++ showZ t)%string /\
      processTemplate "Page (x)" p t = ("Page " ++ showZ p)%string /\
      processTemplate "(x)" p t = showZ p /\
      processTemplate "(file)" p t = "Document") /\
  (forall (text : string) (p t : Z),
      includes text "(x)" = false -> includes text "(file)" = false ->
      processTemplate text p t = text) /\
  (forall p t : Z, processTemplate "" p t = "") /\
  (forall (text : string) (p t : Z) (out : string),
      processTemplate text p t = out <->
      exists l, AppliedInOrder (templateRules p t) (chars text) l /\ out = text_of l) /\
  (forall (text : string) (p t : Z) (out : string),
      processTemplate text p t = out <->
      exists l, AppliedInOrder (bareRules p t) (chars text) l /\ out = text_of l) /\
  processTemplate "(x) and (x)" 3 10 = "3 and 3" /\
  processTemplate "(x)(x) of (y), Page (x) of (y) and Page (x)(file)" 3 10 =
    "33 of 10, Page 3 of 10 and Page 3Document".
Proof.
  split; [vm_compute; reflexivity|].
  split; [exact processTemplate_placeholders|].
  split; [exact processTemplate_unchanged|].
  split; [intros p t; reflexivity|].
  split; [|split; [exact processTemplate_applied_bare | split; vm_compute; reflexivity]].
  intros text p t out. split.
  - intros <-. eexists. split.
    + apply processTemplate_applied. split; reflexivity.
    + reflexivity.
  - intros (l & Hl & ->). apply processTemplate_applied in Hl. apply Hl.
Qed.

(** The theorem at the text [Chapter one (y)], which holds no placeholder. *)
Lemma processTemplate_spec_witness :
  processTemplate "Chapter one (y)" 3 10 = "Chapter one (y)".
Proof.
  apply (proj1 (proj2 (proj2 processTemplate_spec))); reflexivity.
Defined.

(** ** SplitPlanner *)

Lemma range_nil (a b : Z) : (b <= a)%Z -> range a b = [].
Proof. intros H. unfold range. replace (Z.to_nat (b - a)) with 0%nat by lia. reflexivity. Qed.

Lemma range_length (a b : Z) : List.length (range a b) = Z.to_nat (b - a).
Proof. unfold range. rewrite length_map, length_seq. reflexivity. Qed.

Lemma map_seq_shift (a : Z) (d m s : nat) :
  map (fun k => (a + Z.of_nat k)%Z) (seq (d + s) m) =
  map (fun k => (a + Z.of_nat d + Z.of_nat k)%Z) (seq s m).
Proof.
  revert s. induction m as [|m IH]; intros s; simpl; [reflexivity|].
  f_equal; [lia|]. rewrite <- IH. f_equal. f_equal. lia.
Qed.

Lemma range_app (a b c : Z) :
  (a <= b <= c)%Z -> range a b ++ range b c = range a c.
Proof.
  intros H. unfold range.
  replace (Z.to_nat (c - a)) with (Z.to_nat (b - a) + Z.to_nat (c - b))%nat by lia.
  rewrite seq_app, map_app. f_equal.
  replace (0 + Z.to_nat (b - a))%nat with (Z.to_nat (b - a) + 0)%nat by lia.
  rewrite map_seq_shift. apply map_ext. intros k. lia.
Qed.

Lemma range_NoDup (a b : Z) : NoDup (range a b).
Proof.
  unfold range. apply Injective_map_NoDup; [|apply seq_NoDup].
  intros x y Hxy. lia.
Qed.

Section EveryN.

Variable fileName : string.
Variables P n : Z.
Hypothesis n_pos : (1 <= n)%Z.

(** The groups of the loop tile the pages from [i] on. *)
Lemma planEveryLoop_concat (fuel : nat) (i part : Z) :
  (Z.to_nat (P - i) <= fuel)%nat ->
  List.concat (map pageIndices (planEveryLoop fuel fileName P n i part)) = range i P.
Proof.
  revert i part. induction fuel as [|fuel IH]; intros i part Hfuel; simpl.
  - symmetry. apply range_nil. lia.
  - destruct (i <? P)%Z eqn:E.
    + apply Z.ltb_lt in E. simpl. rewrite IH by lia.
      destruct (Z_le_gt_dec (i + n) P) as [Hle|Hgt].
      * rewrite Z.min_l by lia. apply range_app. lia.
      * rewrite Z.min_r by lia. rewrite (@range_nil (i + n)%Z P) by lia.
        apply app_nil_r.
    + apply Z.ltb_ge in E. symmetry. apply range_nil. lia.
Qed.

(** The [k]-th group of the loop, when there is one. *)
Lemma planEveryLoop_nth (fuel : nat) (k : nat) (i part : Z) :
  (Z.to_nat (P - i) <= fuel)%nat ->
  nth_error (map pageIndices (planEveryLoop fuel fileName P n i part)) k =
  if (i + Z.of_nat k * n <? P)%Z
  then Some (range (i + Z.of_nat k * n) (Z.min (i + (Z.of_nat k + 1) * n) P))
  else None.
Proof.
  revert k i part. induction fuel as [|fuel IH]; intros k i part Hfuel.
  - simpl. destruct (i + Z.of_nat k * n <? P)%Z eqn:E.
    + apply Z.ltb_lt in E. nia.
    + destruct k; reflexivity.
  - simpl. destruct (i <? P)%Z eqn:Ei.
    + apply Z.ltb_lt in Ei. destruct k as [|k].
      * cbn [map nth_error pageIndices Z.of_nat].
        replace (i + 0 * n)%Z with i by lia.
        replace (i + (0 + 1) * n)%Z with (i + n)%Z by lia.
        apply Z.ltb_lt in Ei. rewrite Ei. reflexivity.
      * cbn [map nth_error]. rewrite IH by lia.
        replace (i + n + Z.of_nat k * n)%Z with (i + Z.of_nat (S k) * n)%Z by lia.
        replace (i + n + (Z.of_nat k + 1) * n)%Z
          with (i + (Z.of_nat (S k) + 1) * n)%Z by lia.
        reflexivity.
    + apply Z.ltb_ge in Ei.
      destruct (i + Z.of_nat k * n <? P)%Z eqn:E.
      * apply Z.ltb_lt in E. nia.
      * destruct k; reflexivity.
Qed.

End EveryN.

(** C6. For a document of [P >= 1] pages and a numeric chunk size, raised
    to [N >= 1], the [every] split plans groups of page indices that are
    contiguous ([k]-th group: the indices from [k * N] up to the smaller of
    [(k + 1) * N] and [P]), do not overlap, and cover exactly the indices
    [0 .. P - 1] in order; every group but the last has [N] pages, and the
    last has [P mod N] pages, or [N] when [P mod N = 0]. *)
Theorem everyN_split_exhaustive (d : SplitData) (P z : Z) :
  splitType d = "every" ->
  everyNPages d = Int z ->
  (1 <= P)%Z ->
  let N := Z.max 1 z in
  exists groups,
    planSplit d P = inr groups /\
    let idx := map pageIndices groups in
    List.concat idx = range 0 P /\
    NoDup (List.concat idx) /\
    (forall k grp, nth_error idx k = Some grp ->
       grp = range (Z.of_nat k * N) (Z.min ((Z.of_nat k + 1) * N) P) /\
       (Z.of_nat k * N < P)%Z) /\
    (forall k grp, nth_error idx k = Some grp -> (S k < List.length idx)%nat ->
       Z.of_nat (List.length grp) = N) /\
    (exists grp, nth_error idx (List.length idx - 1) = Some grp /\
       Z.of_nat (List.length grp) = if (P mod N =? 0)%Z then N else (P mod N)%Z).
Proof.
  intros Htype Hn HP N.
  assert (1 <= N)%Z as HN by (subst N; lia).
  exists (planEveryLoop (Z.to_nat P) (fileName d) P N 0 1).
  split.
  { unfold planSplit, planEvery. rewrite Htype, Hn. reflexivity. }
  cbv zeta.
  set (idx := map pageIndices (planEveryLoop (Z.to_nat P) (fileName d) P N 0 1)).
  assert (forall k, nth_error idx k =
            if (Z.of_nat k * N <? P)%Z
            then Some (range (Z.of_nat k * N) (Z.min ((Z.of_nat k + 1) * N) P))
            else None) as Hnth.
  { intros k. subst idx. rewrite planEveryLoop_nth by lia.
    rewrite !Z.add_0_l. reflexivity. }
  assert (List.concat idx = range 0 P) as Hcat.
  { subst idx. apply planEveryLoop_concat; lia. }
  assert (forall k grp, nth_error idx k = Some grp ->
            grp = range (Z.of_nat k * N) (Z.min ((Z.of_nat k + 1) * N) P) /\
            (Z.of_nat k * N < P)%Z) as Hshape.
  { intros k grp Hk. rewrite Hnth in Hk.
    destruct (Z.of_nat k * N <? P)%Z eqn:E; [|discriminate].
    apply Z.ltb_lt in E. injection Hk as <-. split; [reflexivity | exact E]. }
  split; [exact Hcat|].
  split; [rewrite Hcat; apply range_NoDup|].
  split; [exact Hshape|].
  split.
  - intros k grp Hk Hlen.
    destruct (Hshape k grp Hk) as [-> Hlt].
    destruct (nth_error idx (S k)) as [next|] eqn:Enext.
    + destruct (Hshape (S k) next Enext) as [_ Hnext].
      rewrite range_length. lia.
    + apply nth_error_None in Enext. lia.
  - assert (List.length idx <> 0)%nat as Hne.
    { intros H0. apply length_zero_iff_nil in H0. specialize (Hnth 0%nat).
      rewrite H0 in Hnth. simpl in Hnth.
      destruct (0 <? P)%Z eqn:E; [discriminate|]. apply Z.ltb_ge in E. lia. }
    destruct (nth_error idx (List.length idx - 1)) as [grp|] eqn:Elast.
    2:{ apply nth_error_None in Elast. lia. }
    exists grp. split; [reflexivity|].
    destruct (Hshape _ _ Elast) as [-> Hlt].
    assert (nth_error idx (List.length idx) = None) as Hend
      by (apply nth_error_None; lia).
    rewrite Hnth in Hend.
    destruct (Z.of_nat (List.length idx) * N <? P)%Z eqn:E; [discriminate|].
    apply Z.ltb_ge in E.
    set (k := Z.of_nat (List.length idx - 1)) in *.
    replace (Z.of_nat (List.length idx)) with (k + 1)%Z in E by lia.
    rewrite range_length, Z.min_r by lia.
    assert (0 <= k)%Z as Hk by lia.
    destruct (Z.eq_dec P ((k + 1) * N)) as [Heq|Hneq].
    + rewrite Heq, Z_mod_mult. simpl. lia.
    + assert (P mod N = P - k * N)%Z as Hmod.
      { symmetry. apply Z.mod_unique with k; lia. }
      rewrite Hmod. destruct (P - k * N =? 0)%Z eqn:E0; [|lia].
      apply Z.eqb_eq in E0. lia.
Qed.

(** The theorem at a split of 7 pages in chunks of 3. *)
Lemma everyN_split_exhaustive_witness :
  exists groups,
    planSplit (mkSplitData "every" [] [] (Int 3) "document") 7 = inr groups /\
    List.concat (map pageIndices groups) = range 0 7.
Proof.
  destruct (@everyN_split_exhaustive (mkSplitData "every" [] [] (Int 3) "document") 7 3)
    as (groups & Hplan & Hcat & _); [reflexivity | reflexivity | lia |].
  exists groups. split; [exact Hplan | exact Hcat].
Defined.

Lemma planPages_indices (fileName : string) (totalPages : Z) (pages : list jsint) :
  map pageIndices (planPages fileName totalPages pages) =
  map (fun p => [(p - 1)%Z]) (requestedPages totalPages pages).
Proof.
  induction pages as [|[|z] rest IH]; simpl; [reflexivity | exact IH |].
  destruct ((0 <? z) && (z <=? totalPages))%Z; simpl; rewrite IH; reflexivity.
Qed.

Lemma planPages_pageCount (fileName : string) (totalPages : Z) (pages : list jsint) :
  Forall (fun grp => group_pageCount grp = Int 1) (planPages fileName totalPages pages).
Proof.
  induction pages as [|[|z] rest IH]; simpl; [constructor | exact IH |].
  destruct ((0 <? z) && (z <=? totalPages))%Z; [constructor; [reflexivity|]|]; exact IH.
Qed.

Lemma planPages_requested (fileName : string) (totalPages : Z) (pages : list jsint) :
  planPages fileName totalPages pages =
  map (fun pageNum => mkSplitGroup [(pageNum - 1)%Z]
                        (fileName ++ "_page_" ++ showZ pageNum ++ ".pdf")
                        ("Page " ++ showZ pageNum) (Int 1))
      (requestedPages totalPages pages).
Proof.
  induction pages as [|[|z] rest IH]; simpl; [reflexivity | exact IH |].
  destruct ((0 <? z) && (z <=? totalPages))%Z; simpl; rewrite IH; reflexivity.
Qed.

Lemma Forall2_map_left (A B C : Type) (f : A -> B) (R : B -> C -> Prop)
      (l : list A) (l' : list C) :
  Forall2 R (map f l) l' -> Forall2 (fun x y => R (f x) y) l l'.
Proof.
  revert l'. induction l as [|x l IH]; intros l' H; simpl in H.
  - inversion H; subst. constructor.
  - inversion H; subst. constructor; [assumption | apply IH; assumption].
Qed.

Section SplitFacts.

Context `{L : PdfLib}.

Lemma getPageCount_addPages_create (copiedPages : list Page) :
  getPageCount (addPages create copiedPages) = List.length copiedPages.
Proof.
  unfold addPages.
  assert (forall d, getPageCount (fold_left addPage copiedPages d) =
                    (getPageCount d + List.length copiedPages)%nat) as H.
  { induction copiedPages as [|pg rest IH]; intros d; simpl; [lia|].
    rewrite IH, getPageCount_addPage. lia. }
  rewrite H, getPageCount_create. reflexivity.
Qed.

(** What a rendered group is. *)
Lemma renderGroup_inr (sourcePdf : Doc) (grp : SplitGroup) (res : SplitResult) :
  renderGroup sourcePdf grp = inr res -> outputOf sourcePdf grp res.
Proof.
  unfold renderGroup.
  destruct (copyPages create sourcePdf (pageIndices grp)) as [msg|copiedPages] eqn:Ecopy;
    [discriminate|].
  cbn [bind].
  destruct (save (addPages create copiedPages) None) as [msg|pdfBytes] eqn:Esave;
    [discriminate|].
  cbn [bind]. intros [= <-]. split; [|repeat split].
  exists copiedPages. split; [exact Ecopy|]. split; [|exact Esave].
  rewrite getPageCount_addPages_create. apply (copyPages_length _ _ _ Ecopy).
Qed.

Lemma renderGroups_inr (sourcePdf : Doc) (groups : list SplitGroup)
      (results : list SplitResult) :
  renderGroups sourcePdf groups = inr results ->
  Forall2 (outputOf sourcePdf) groups results.
Proof.
  revert results. induction groups as [|grp rest IH]; intros results; simpl.
  - intros [= <-]. constructor.
  - destruct (renderGroup sourcePdf grp) as [msg|res] eqn:Eres; [discriminate|].
    cbn [bind].
    destruct (renderGroups sourcePdf rest) as [msg|others]; [discriminate|].
    cbn [bind]. intros [= <-]. constructor; [apply renderGroup_inr; exact Eres|].
    apply IH. reflexivity.
Qed.

Lemma renderGroups_all (sourcePdf : Doc) (groups : list SplitGroup) :
  (forall grp, In grp groups -> exists res, renderGroup sourcePdf grp = inr res) ->
  exists results,
    renderGroups sourcePdf groups = inr results /\
    map filename results = map group_filename groups /\
    map pageCount results = map group_pageCount groups.
Proof.
  induction groups as [|grp rest IH]; intros Hall.
  - exists []. repeat split.
  - destruct (Hall grp (or_introl eq_refl)) as [res Hres].
    destruct IH as (others & Hothers & Hnames & Hcounts).
    { intros g Hg. apply Hall. right. exact Hg. }
    exists (res :: others). simpl. rewrite Hres. simpl. rewrite Hothers. simpl.
    unfold renderGroup in Hres.
    destruct (copyPages create sourcePdf (pageIndices grp)); [discriminate|].
    simpl in Hres. destruct (save _ None); [discriminate|].
    simpl in Hres. injection Hres as <-. simpl.
    rewrite Hnames, Hcounts. repeat split.
Qed.

(** What [splitPDF] went through when it returns outputs. *)
Lemma splitPDF_inr (pdfBuffer : Buffer) (d : SplitData) (results : list SplitResult) :
  splitPDF pdfBuffer d = inr results ->
  exists sourcePdf groups,
    load pdfBuffer None = inr sourcePdf /\
    planSplit d (Z.of_nat (getPageCount sourcePdf)) = inr groups /\
    renderGroups sourcePdf groups = inr results /\
    results <> [].
Proof.
  unfold splitPDF.
  destruct (load pdfBuffer None) as [msg|sourcePdf] eqn:Eload; [discriminate|]. cbn [bind].
  destruct (planSplit d (Z.of_nat (getPageCount sourcePdf))) as [msg|groups] eqn:Eplan;
    [discriminate|].
  cbn [bind].
  destruct (renderGroups sourcePdf groups) as [msg|rendered] eqn:Erender; [discriminate|].
  cbn [bind]. destruct rendered as [|res others]; [discriminate|].
  intros [= <-]. exists sourcePdf, groups.
  split; [reflexivity|]. split; [exact Eplan|]. split; [exact Erender | discriminate].
Qed.

(** C7. In [pages] mode the split plans one single-page group per
    requested page number that lies in [1 .. pageCount], in the order of
    the request and as often as it is requested; an entry outside the
    range (or unparsable) is left out and raises no error of its own: when
    the groups that remain can be rendered, the split returns one output
    per group.  In every mode, a plan without any group makes the whole
    split fail.

    What the split returns is never empty, and it is, group by group and
    in the order of the plan, the saved bytes of a new document that holds
    the copies of the pages of the group and nothing else.  So in [pages]
    mode the outputs are, one for one and in the order of the request, the
    requested page numbers that lie in [1 .. pageCount]: each output holds
    that one page of the source, and a page requested twice is in two
    outputs. *)
Theorem pages_split_spec (pdfBuffer : Buffer) (sourcePdf : Doc) (d : SplitData) :
  load pdfBuffer None = inr sourcePdf ->
  let totalPages := Z.of_nat (getPageCount sourcePdf) in
  (splitType d = "pages" ->
   exists groups,
     planSplit d totalPages = inr groups /\
     map pageIndices groups =
       map (fun p => [(p - 1)%Z]) (requestedPages totalPages (pages d)) /\
     Forall (fun grp => group_pageCount grp = Int 1) groups) /\
  (planSplit d totalPages = inr [] -> splitPDF pdfBuffer d = inl emptySplitError) /\
  (forall groups,
     planSplit d totalPages = inr groups -> groups <> [] ->
     (forall grp, In grp groups -> exists res, renderGroup sourcePdf grp = inr res) ->
     exists results,
       splitPDF pdfBuffer d = inr results /\
       map filename results = map group_filename groups /\
       map pageCount results = map group_pageCount groups /\
       Forall2 (outputOf sourcePdf) groups results) /\
  (forall results,
     splitPDF pdfBuffer d = inr results ->
     results <> [] /\
     exists groups,
       planSplit d totalPages = inr groups /\
       Forall2 (outputOf sourcePdf) groups results) /\
  (splitType d = "pages" ->
   (forall results,
      splitPDF pdfBuffer d = inr results ->
      Forall2 (singlePageOutput sourcePdf (fileName d))
        (requestedPages totalPages (pages d)) results) /\
   (requestedPages totalPages (pages d) <> [] ->
    (forall pageNum,
        In pageNum (requestedPages totalPages (pages d)) ->
        exists copiedPages bytes,
          copyPages create sourcePdf [(pageNum - 1)%Z] = inr copiedPages /\
          save (addPages create copiedPages) None = inr bytes) ->
    exists results, splitPDF pdfBuffer d = inr results)).
Proof.
  intros Hload totalPages.
  assert (forall results,
             splitPDF pdfBuffer d = inr results ->
             results <> [] /\
             exists groups,
               planSplit d totalPages = inr groups /\
               Forall2 (outputOf sourcePdf) groups results) as Hsound.
  { intros results Hres. apply splitPDF_inr in Hres.
    destruct Hres as (src & groups & Hload' & Hplan & Hrender & Hne).
    rewrite Hload in Hload'. injection Hload' as <-.
    split; [exact Hne|]. exists groups. split; [exact Hplan|].
    apply renderGroups_inr. exact Hrender. }
  assert (forall groups,
             planSplit d totalPages = inr groups -> groups <> [] ->
             (forall grp, In grp groups -> exists res, renderGroup sourcePdf grp = inr res) ->
             exists results,
               splitPDF pdfBuffer d = inr results /\
               map filename results = map group_filename groups /\
               map pageCount results = map group_pageCount groups /\
               Forall2 (outputOf sourcePdf) groups results) as Hcomplete.
  { intros groups Hplan Hne Hall.
    destruct (renderGroups_all sourcePdf groups Hall) as (results & Hres & Hnames & Hcounts).
    exists results. split; [|split; [exact Hnames | split; [exact Hcounts|]]].
    - unfold splitPDF. rewrite Hload. simpl. fold totalPages. rewrite Hplan. simpl.
      rewrite Hres. simpl.
      destruct results as [|res others]; [|reflexivity].
      destruct groups; [congruence | discriminate].
    - apply renderGroups_inr. exact Hres. }
  split; [|split; [|split; [exact Hcomplete | split; [exact Hsound|]]]].
  - intros Htype. exists (planPages (fileName d) totalPages (pages d)).
    split; [|split].
    + unfold planSplit. rewrite Htype. reflexivity.
    + apply planPages_indices.
    + apply planPages_pageCount.
  - intros Hplan. unfold splitPDF. rewrite Hload. simpl.
    fold totalPages. rewrite Hplan. reflexivity.
  - intros Htype.
    assert (planSplit d totalPages =
            inr (map (fun pageNum => mkSplitGroup [(pageNum - 1)%Z]
                                       (fileName d ++ "_page_" ++ showZ pageNum ++ ".pdf")
                                       ("Page " ++ showZ pageNum) (Int 1))
                     (requestedPages totalPages (pages d)))) as Hplan.
    { unfold planSplit. rewrite Htype. cbn [String.eqb Ascii.eqb Bool.eqb].
      rewrite planPages_requested. reflexivity. }
    split.
    + intros results Hres. destruct (Hsound results Hres) as (_ & groups & Hplan' & Hout).
      rewrite Hplan in Hplan'. injection Hplan' as <-.
      apply Forall2_map_left in Hout. exact Hout.
    + intros Hne Hall.
      destruct (Hcomplete _ Hplan) as (results & Hres & _).
      * intros E. apply map_eq_nil in E. exact (Hne E).
      * intros grp Hin. apply in_map_iff in Hin. destruct Hin as (pageNum & <- & Hin).
        destruct (Hall pageNum Hin) as (copiedPages & bytes & Hcopy & Hsave).
        unfold renderGroup. cbn [pageIndices]. rewrite Hcopy. cbn [bind].
        rewrite Hsave. cbn [bind]. eexists. reflexivity.
      * exists results. exact Hres.
Qed.

End SplitFacts.

(** The theorem at a three-page file and the request [3, 0, 3, NaN, 1, 9]:
    three single-page groups, for the pages 3, 3 and 1, and three outputs
    that hold the page 3, the page 3 and the page 1. *)
Lemma pages_split_spec_witness :
  (exists groups,
      planSplit (mkSplitData "pages" [Int 3; Int 0; Int 3; IntNaN; Int 1; Int 9] [] (Int 1) "doc") 3
        = inr groups /\
      map pageIndices groups = [[2%Z]; [2%Z]; [0%Z]]) /\
  exists results,
    @splitPDF toyPdf (toyFile "123")
      (mkSplitData "pages" [Int 3; Int 0; Int 3; IntNaN; Int 1; Int 9] [] (Int 1) "doc")
      = inr results /\
    Forall2 (@singlePageOutput toyPdf (bytes_of "123") "doc") [3%Z; 3%Z; 1%Z] results /\
    map buffer results = [toyFile "3"; toyFile "3"; toyFile "1"].
Proof.
  destruct (@pages_split_spec toyPdf (toyFile "123") (bytes_of "123")
              (mkSplitData "pages" [Int 3; Int 0; Int 3; IntNaN; Int 1; Int 9] [] (Int 1) "doc")
              eq_refl) as (Hpages & _ & _ & _ & Hout).
  split.
  - destruct (Hpages eq_refl) as (groups & Hplan & Hidx & _).
    exists groups. split; [exact Hplan | exact Hidx].
  - destruct (@splitPDF toyPdf (toyFile "123")
                (mkSplitData "pages" [Int 3; Int 0; Int 3; IntNaN; Int 1; Int 9] [] (Int 1)
                   "doc")) as [msg|results] eqn:E; [vm_compute in E; discriminate|].
    exists results. split; [reflexivity|]. split.
    + exact (proj1 (Hout eq_refl) results eq_refl).
    + vm_compute in E. injection E as <-. reflexivity.
Defined.

(** ** MergeOrchestrator *)

Lemma skippedPages_app (l1 l2 : list LogEvent) :
  skippedPages (l1 ++ l2) = (skippedPages l1 + skippedPages l2)%nat.
Proof. unfold skippedPages. rewrite filter_app, length_app. reflexivity. Qed.

Lemma batchSizeFor_pos (bytes : Z) : (1 <= batchSizeFor bytes)%Z.
Proof.
  unfold batchSizeFor.
  destruct (100 * MB <? bytes)%Z; [lia|]. destruct (20 * MB <? bytes)%Z; lia.
Qed.

Section MergeFacts.

Context `{L : PdfLib}.

Lemma getPageCount_addPages (d : Doc) (ps : list Page) :
  getPageCount (addPages d ps) = (getPageCount d + List.length ps)%nat.
Proof.
  unfold addPages. revert d. induction ps as [|p ps IH]; intros d; simpl.
  - lia.
  - rewrite IH, getPageCount_addPage. lia.
Qed.

(** Every page of a retried batch is either copied or reported as
    skipped. *)
Lemma copyIndividually_count (mergedPdf currentPdf : Doc) (indices : list Z)
      (all all' : list Page) (log log' : list LogEvent) :
  copyIndividually mergedPdf currentPdf indices (all, log) = (all', log') ->
  (List.length all' + skippedPages log' =
   List.length all + skippedPages log + List.length indices)%nat.
Proof.
  unfold copyIndividually. revert all log.
  induction indices as [|i rest IH]; intros all log; simpl.
  - intros [= <- <-]. lia.
  - destruct (copyPages mergedPdf currentPdf [i]) as [msg|copied] eqn:E.
    + intros H. apply IH in H. rewrite H, skippedPages_app.
      unfold skippedPages. simpl. lia.
    + intros H. apply IH in H. rewrite H, skippedPages_app, length_app.
      apply copyPages_length in E. simpl in E.
      destruct copied as [|p [|q copied]]; try discriminate.
      unfold skippedPages. simpl. lia.
Qed.

(** The same for the whole batch loop, from [pageStart] on. *)
Lemma copyInBatches_count (fuel : nat) (mergedPdf currentPdf : Doc)
      (count batchSize pageStart : Z)
      (all all' : list Page) (log log' : list LogEvent) :
  (1 <= batchSize)%Z -> (0 <= pageStart)%Z ->
  (Z.to_nat (count - pageStart) <= fuel)%nat ->
  copyInBatches fuel mergedPdf currentPdf count batchSize pageStart (all, log)
    = (all', log') ->
  Z.of_nat (List.length all' + skippedPages log') =
  (Z.of_nat (List.length all + skippedPages log) + Z.max 0 (count - pageStart))%Z.
Proof.
  intros Hb. revert pageStart all log.
  induction fuel as [|fuel IH]; intros pageStart all log Hs Hfuel; simpl.
  - intros [= <- <-]. lia.
  - destruct (pageStart <? count)%Z eqn:E.
    2:{ apply Z.ltb_ge in E. intros [= <- <-]. lia. }
    apply Z.ltb_lt in E.
    set (pageEnd := Z.min (pageStart + batchSize) count).
    assert (Z.of_nat (List.length (range pageStart pageEnd)) = pageEnd - pageStart)%Z
      as Hlen by (rewrite range_length; subst pageEnd; lia).
    destruct (copyPages mergedPdf currentPdf (range pageStart pageEnd))
      as [msg|batchPages] eqn:Ecopy.
    + destruct (copyIndividually mergedPdf currentPdf (range pageStart pageEnd)
                  (all, log ++ [LogBatchFailed (pageStart + 1) pageEnd msg]))
        as [all1 log1] eqn:Eind.
      intros H. apply IH in H; [|lia|lia].
      apply copyIndividually_count in Eind.
      rewrite skippedPages_app in Eind. unfold skippedPages in *. simpl in Eind.
      subst pageEnd. lia.
    + intros H. apply IH in H; [|lia|lia].
      apply copyPages_length in Ecopy.
      rewrite length_app, skippedPages_app in H. unfold skippedPages in *. simpl in H.
      subst pageEnd. lia.
Qed.

(** A file that loads is merged whatever happens to its pages: each of
    them is added to the output or reported as skipped. *)
Lemma mergeFile_loaded (mergedPdf currentPdf : Doc) (i : Z) (bytes : Buffer)
      (log : list LogEvent) :
  loadWithTimeout i bytes = inr currentPdf ->
  exists mergedPdf' log',
    mergeFile mergedPdf i bytes log = (inr mergedPdf', log') /\
    (getPageCount mergedPdf' + skippedPages log' =
     getPageCount mergedPdf + skippedPages log + getPageCount currentPdf)%nat.
Proof.
  intros Hload. unfold mergeFile. rewrite Hload.
  destruct (copyInBatches (getPageCount currentPdf) mergedPdf currentPdf
              (Z.of_nat (getPageCount currentPdf))
              (batchSizeFor (byteLength bytes)) 0 ([], log)) as [all log'] eqn:E.
  exists (addPages mergedPdf all), log'. split; [reflexivity|].
  apply copyInBatches_count in E; [|apply batchSizeFor_pos|lia|lia].
  rewrite getPageCount_addPages. simpl in E. lia.
Qed.

Lemma mergeFile_inr (mergedPdf mergedPdf' : Doc) (i : Z) (bytes : Buffer)
      (log log' : list LogEvent) :
  mergeFile mergedPdf i bytes log = (inr mergedPdf', log') ->
  exists currentPdf,
    loadWithTimeout i bytes = inr currentPdf /\
    (getPageCount mergedPdf' + skippedPages log' =
     getPageCount mergedPdf + skippedPages log + getPageCount currentPdf)%nat.
Proof.
  intros H. destruct (loadWithTimeout i bytes) as [msg|currentPdf] eqn:Hload.
  - unfold mergeFile in H. rewrite Hload in H. discriminate.
  - exists currentPdf. split; [reflexivity|].
    destruct (mergeFile_loaded mergedPdf i bytes log Hload) as (m & l & Hm & Hcount).
    rewrite Hm in H. injection H as <- <-. exact Hcount.
Qed.

Lemma loadedAs_cons (i : Z) (bytes : Buffer) (rest : list Buffer) (d : Doc) (docs : list Doc) :
  loadWithTimeout i bytes = inr d -> loadedAs (i + 1) rest docs ->
  loadedAs i (bytes :: rest) (d :: docs).
Proof.
  intros Hd Hrest. unfold loadedAs in *. simpl. constructor.
  - simpl. rewrite Z.add_0_r. exact Hd.
  - rewrite <- seq_shift, map_map.
    erewrite map_ext; [exact Hrest|]. intros k. simpl. lia.
Qed.

Lemma loadedAs_cons_inv (i : Z) (bytes : Buffer) (rest : list Buffer) (docs : list Doc) :
  loadedAs i (bytes :: rest) docs ->
  exists d docs', docs = d :: docs' /\ loadWithTimeout i bytes = inr d /\
                  loadedAs (i + 1) rest docs'.
Proof.
  unfold loadedAs. simpl. intros H. inversion H as [|entry d es docs' Hd Hrest]; subst.
  exists d, docs'. split; [reflexivity|]. simpl in Hd. rewrite Z.add_0_r in Hd.
  split; [exact Hd|].
  rewrite <- seq_shift, map_map in Hrest.
  erewrite map_ext; [exact Hrest|]. intros k. simpl. lia.
Qed.

Lemma mergeFiles_inr (pdfBuffers : list Buffer) (mergedPdf mergedPdf' : Doc) (i : Z)
      (log log' : list LogEvent) :
  mergeFiles mergedPdf i pdfBuffers log = (inr mergedPdf', log') ->
  exists docs,
    loadedAs i pdfBuffers docs /\
    (getPageCount mergedPdf' + skippedPages log' =
     getPageCount mergedPdf + skippedPages log + totalPageCount docs)%nat.
Proof.
  revert mergedPdf i log. induction pdfBuffers as [|bytes rest IH];
    intros mergedPdf i log; simpl.
  - intros [= <- <-]. exists []. split; [constructor|]. unfold totalPageCount. simpl. lia.
  - destruct (mergeFile mergedPdf i bytes log) as [[msg|m1] log1] eqn:E1; [discriminate|].
    intros H. apply IH in H. destruct H as (docs & Hdocs & Hcount).
    apply mergeFile_inr in E1. destruct E1 as (d & Hd & Hc1).
    exists (d :: docs). split; [apply loadedAs_cons; assumption|].
    unfold totalPageCount in *. simpl. lia.
Qed.


Lemma validateMerged_inr (savedPdf : Buffer) (totalPages : nat) (u : unit) :
  validateMerged savedPdf totalPages = inr u ->
  exists validationPdf,
    load savedPdf (Some validationLoadOptions) = inr validationPdf /\
    validatePDFStructure savedPdf = inr tt /\
    getPageCount validationPdf = totalPages.
Proof.
  unfold validateMerged.
  destruct (load savedPdf (Some validationLoadOptions)) as [msg|v]; [discriminate|].
  simpl. destruct (validatePDFStructure savedPdf) as [msg|[]]; [discriminate|].
  simpl. destruct (Nat.eqb (getPageCount v) totalPages) eqn:E; [|discriminate].
  intros _. exists v. apply Nat.eqb_eq in E. repeat split. exact E.
Qed.

(** What a successful merge went through. *)
Lemma mergePDFs_inr (pdfBuffers : list Buffer) (mergeData : MergeData)
      (savedPdf : Buffer) (log : list LogEvent) :
  mergePDFs pdfBuffers mergeData = (inr savedPdf, log) ->
  exists mergedPdf,
    (2 <= List.length pdfBuffers)%nat /\
    mergeFiles create 0 pdfBuffers [] = (inr mergedPdf, log) /\
    save mergedPdf (Some mergeSaveOptions) = inr savedPdf /\
    validateMerged savedPdf (getPageCount mergedPdf) = inr tt.
Proof.
  unfold mergePDFs.
  destruct pdfBuffers as [|b1 [|b2 rest]]; [discriminate | discriminate |].
  destruct (500 * MB <? totalSize (b1 :: b2 :: rest))%Z; [discriminate|].
  destruct (mergeFiles create 0 (b1 :: b2 :: rest) []) as [[msg|mergedPdf] log0] eqn:E;
    [discriminate|].
  assert ((if addBookmarks mergeData
           then addBookmarksToMergedPDF mergedPdf (b1 :: b2 :: rest) mergeData
           else mergedPdf) = mergedPdf) as -> by (destruct (addBookmarks mergeData); reflexivity).
  destruct (save mergedPdf (Some mergeSaveOptions)) as [msg|saved] eqn:Esave; [discriminate|].
  simpl. destruct (validateMerged saved (getPageCount mergedPdf)) as [msg|[]] eqn:Eval;
    [discriminate|].
  simpl. intros [= <- <-]. exists mergedPdf. repeat split; try assumption. simpl. lia.
Qed.

End MergeFacts.

Section MergeTheorems.

Context `{L : PdfLib}.

(** The page count of the bytes a merge returns. *)
Lemma mergePDFs_pages (pdfBuffers : list Buffer) (mergeData : MergeData)
      (savedPdf : Buffer) (log : list LogEvent) :
  mergePDFs pdfBuffers mergeData = (inr savedPdf, log) ->
  exists docs validationPdf,
    (2 <= List.length pdfBuffers)%nat /\
    loadedAs 0 pdfBuffers docs /\
    load savedPdf (Some validationLoadOptions) = inr validationPdf /\
    validatePDFStructure savedPdf = inr tt /\
    (getPageCount validationPdf + skippedPages log = totalPageCount docs)%nat.
Proof.
  intros H.
  apply mergePDFs_inr in H. destruct H as (mergedPdf & Hlen & Hfiles & Hsave & Hval).
  apply mergeFiles_inr in Hfiles. destruct Hfiles as (docs & Hdocs & Hcount).
  apply validateMerged_inr in Hval. destruct Hval as (v & Hv & Hstruct & Hpages).
  exists docs, v. rewrite getPageCount_create in Hcount.
  unfold skippedPages in Hcount at 2. simpl in Hcount.
  repeat split; try assumption; lia.
Qed.

(** C2. When a merge returns bytes, at least two inputs were given, all
    of them loaded, and the bytes load again, pass the structure check and
    hold as many pages as were copied: the sum of the page counts of the
    inputs less the pages reported as skipped, so exactly that sum when no
    page was skipped.  When the saved bytes fail the validation (they do
    not load, the structure check rejects them, or the page count
    differs), the merge returns an error and no bytes. *)
Theorem merge_page_count (pdfBuffers : list Buffer) (mergeData : MergeData) :
  (forall savedPdf log,
      mergePDFs pdfBuffers mergeData = (inr savedPdf, log) ->
      exists docs validationPdf,
        (2 <= List.length pdfBuffers)%nat /\
        loadedAs 0 pdfBuffers docs /\
        load savedPdf (Some validationLoadOptions) = inr validationPdf /\
        validatePDFStructure savedPdf = inr tt /\
        (getPageCount validationPdf + skippedPages log = totalPageCount docs)%nat /\
        (skippedPages log = 0%nat -> getPageCount validationPdf = totalPageCount docs)) /\
  (forall mergedPdf log savedPdf,
      mergeFiles create 0 pdfBuffers [] = (inr mergedPdf, log) ->
      save mergedPdf (Some mergeSaveOptions) = inr savedPdf ->
      validationFails mergedPdf savedPdf ->
      exists msg, fst (mergePDFs pdfBuffers mergeData) = inl msg).
Proof.
  split.
  - intros savedPdf log H.
    destruct (mergePDFs_pages _ _ H) as (docs & v & Hlen & Hdocs & Hv & Hstruct & Hcount).
    exists docs, v. repeat split; try assumption. lia.
  - intros mergedPdf log savedPdf Hfiles Hsave Hfail.
    destruct (fst (mergePDFs pdfBuffers mergeData)) as [msg|out] eqn:E.
    + exists msg. reflexivity.
    + exfalso.
      destruct (mergePDFs pdfBuffers mergeData) as [res log'] eqn:Em.
      simpl in E. subst res.
      apply mergePDFs_inr in Em. destruct Em as (m & _ & Hfiles' & Hsave' & Hval).
      rewrite Hfiles in Hfiles'. injection Hfiles' as <- <-.
      rewrite Hsave in Hsave'. injection Hsave' as <-.
      apply validateMerged_inr in Hval. destruct Hval as (v & Hv & Hstruct & Hpages).
      destruct Hfail as [[msg Hm] | [[msg Hm] | (v' & Hv' & Hne)]]; congruence.
Qed.


End MergeTheorems.

(** The theorem at a merge of a two-page and a three-page file: the bytes
    returned hold five pages. *)
Lemma merge_page_count_witness :
  exists savedPdf log docs validationPdf,
    @mergePDFs toyPdf [toyFile "12"; toyFile "345"] (mkMergeData None false [])
      = (inr savedPdf, log) /\
    @totalPageCount toyPdf docs = 5%nat /\
    @load toyPdf savedPdf (Some validationLoadOptions) = inr validationPdf /\
    @getPageCount toyPdf validationPdf = 5%nat.
Proof.
  destruct (@mergePDFs toyPdf [toyFile "12"; toyFile "345"] (mkMergeData None false []))
    as [[msg|savedPdf] log] eqn:E; [vm_compute in E; discriminate|].
  destruct (proj1 (@merge_page_count toyPdf [toyFile "12"; toyFile "345"]
                     (mkMergeData None false [])) savedPdf log E)
    as (docs & v & _ & Hdocs & Hv & _ & _ & Hcount).
  assert (skippedPages log = 0%nat) as Hk by (vm_compute in E; injection E as _ <-; reflexivity).
  assert (@totalPageCount toyPdf docs = 5%nat) as Hsum.
  { unfold loadedAs in Hdocs. simpl in Hdocs.
    inversion Hdocs as [|? d1 ? rest1 H1 Hrest1]; subst.
    inversion Hrest1 as [|? d2 ? rest2 H2 Hrest2]; subst.
    inversion Hrest2; subst.
    vm_compute in H1, H2. injection H1 as <-. injection H2 as <-. reflexivity. }
  exists savedPdf, log, docs, v. repeat split; try assumption.
  rewrite (Hcount Hk). exact Hsum.
Defined.



(** ** CompressionAdvisor *)

Section CompressFacts.

Context `{L : PdfLib}.

(** The running best after a list of attempts: nothing, when there was
    nothing before and every save failed; otherwise the earlier best or
    the output of one of the attempts, and no larger than either. *)
Lemma attempts_spec (finalDoc : Doc) (settingsList : list SaveOptions) (best : Best) :
  match fold_left (attempt finalDoc) settingsList best with
  | None =>
      best = None /\
      forall settings, In settings settingsList ->
                       exists msg, save finalDoc (Some settings) = inl msg
  | Some (bytes, used) =>
      (forall settings candidate,
          In settings settingsList -> save finalDoc (Some settings) = inr candidate ->
          (List.length bytes <= List.length candidate)%nat) /\
      (forall b0 s0, best = Some (b0, s0) -> (List.length bytes <= List.length b0)%nat) /\
      (best = Some (bytes, used) \/
       (In used settingsList /\ save finalDoc (Some used) = inr bytes))
  end.
Proof.
  revert best. induction settingsList as [|st rest IH]; intros best; simpl.
  - destruct best as [[bytes used]|].
    + split; [intros ? ? []|]. split; [intros b0 s0 [= <- <-]; lia | left; reflexivity].
    + split; [reflexivity | intros ? []].
  - specialize (IH (attempt finalDoc best st)).
    destruct (fold_left (attempt finalDoc) rest (attempt finalDoc best st))
      as [[bytes used]|].
    + destruct IH as (Hrest & Hprev & Horigin).
      unfold attempt in Hprev, Horigin.
      destruct (save finalDoc (Some st)) as [msg|candidate] eqn:Esave.
      * split; [|split].
        -- intros settings c [<-|Hin] Hc; [congruence | eauto].
        -- exact Hprev.
        -- destruct Horigin as [Hb | [Hin Hs]]; [left; exact Hb | right; split; [right|]; assumption].
      * destruct (smallerThanBest candidate best) eqn:Esm.
        -- specialize (Hprev _ _ eq_refl).
           split; [|split].
           ++ intros settings c [<-|Hin] Hc; [|eauto].
              rewrite Esave in Hc. injection Hc as <-. exact Hprev.
           ++ intros b0 s0 ->. simpl in Esm. apply Nat.ltb_lt in Esm. lia.
           ++ right. destruct Horigin as [[= <- <-] | [Hin Hs]].
              ** split; [left; reflexivity | exact Esave].
              ** split; [right|]; assumption.
        -- destruct best as [[b0 s0]|]; [|discriminate].
           simpl in Esm. apply Nat.ltb_ge in Esm.
           specialize (Hprev _ _ eq_refl).
           split; [|split].
           ++ intros settings c [<-|Hin] Hc; [|eauto].
              rewrite Esave in Hc. injection Hc as <-. lia.
           ++ intros b1 s1 [= <- <-]. exact Hprev.
           ++ destruct Horigin as [Hb | [Hin Hs]];
                [left; exact Hb | right; split; [right|]; assumption].
    + destruct IH as (Hnone & Hrest). unfold attempt in Hnone.
      destruct (save finalDoc (Some st)) as [msg|candidate] eqn:Esave.
      * split; [exact Hnone|]. intros settings [<-|Hin]; eauto.
      * destruct (smallerThanBest candidate best) eqn:Esm; [discriminate|].
        subst best. discriminate.
Qed.

Lemma firstSmallest_head (bytes : Buffer) (later : list Buffer) :
  Forall (fun c => (List.length bytes <= List.length c)%nat) later ->
  firstSmallest bytes (bytes :: later).
Proof.
  intros H. exists [], later. split; [reflexivity|]. split; [constructor | exact H].
Qed.

Lemma firstSmallest_later (bytes c : Buffer) (candidates : list Buffer) :
  (List.length bytes < List.length c)%nat ->
  firstSmallest bytes candidates -> firstSmallest bytes (c :: candidates).
Proof.
  intros Hlt (earlier & later & -> & He & Hl). exists (c :: earlier), later.
  split; [reflexivity|]. split; [constructor; assumption | exact Hl].
Qed.

Lemma firstSmallest_nil (bytes : Buffer) : ~ firstSmallest bytes [].
Proof. intros (earlier & later & E & _). destruct earlier; discriminate. Qed.

(** There is one earliest smallest candidate. *)
Lemma firstSmallest_unique (a b : Buffer) (candidates : list Buffer) :
  firstSmallest a candidates -> firstSmallest b candidates -> a = b.
Proof.
  intros (e1 & l1 & -> & He1 & Hl1) (e2 & l2 & E & He2 & Hl2).
  revert e2 E He2. induction e1 as [|x e1 IH]; intros e2 E He2.
  - destruct e2 as [|y e2]; simpl in E.
    + injection E as -> _. reflexivity.
    + injection E as -> ->. exfalso.
      apply Forall_inv in He2.
      rewrite Forall_forall in Hl1.
      specialize (Hl1 b (in_elt b e2 l2)). lia.
  - destruct e2 as [|y e2]; simpl in E.
    + injection E as -> <-. exfalso.
      apply Forall_inv in He1.
      rewrite Forall_forall in Hl2.
      specialize (Hl2 a (in_elt a e1 l1)). lia.
    + injection E as -> E.
      apply (IH (Forall_inv_tail He1) e2 E (Forall_inv_tail He2)).
Qed.

(** The running best after a list of attempts is the earliest smallest of
    their outputs, unless what was there before is no larger than any of
    them. *)
Lemma attempts_first_smallest (finalDoc : Doc) (settingsList : list SaveOptions)
      (best : Best) :
  match fold_left (attempt finalDoc) settingsList best with
  | None => best = None /\ outputsOf finalDoc settingsList = []
  | Some (bytes, _) =>
      match best with
      | None => firstSmallest bytes (outputsOf finalDoc settingsList)
      | Some (b0, _) =>
          (bytes = b0 /\
           Forall (fun c => (List.length b0 <= List.length c)%nat)
             (outputsOf finalDoc settingsList)) \/
          ((List.length bytes < List.length b0)%nat /\
           firstSmallest bytes (outputsOf finalDoc settingsList))
      end
  end.
Proof.
  revert best. induction settingsList as [|st rest IH]; intros best.
  - simpl. destruct best as [[b0 s0]|].
    + left. split; [reflexivity | constructor].
    + split; reflexivity.
  - cbn [fold_left].
    remember (attempt finalDoc best st) as best' eqn:Ebest.
    specialize (IH best').
    unfold outputsOf. cbn [flat_map]. fold (outputsOf finalDoc rest).
    unfold attempt in Ebest.
    destruct (save finalDoc (Some st)) as [msg|candidate] eqn:Esave.
    + subst best'. exact IH.
    + cbn [app].
      destruct best as [[b0 s0]|].
      * cbn [smallerThanBest] in Ebest.
        destruct (List.length candidate <? List.length b0)%nat eqn:Esm; subst best'.
        -- apply Nat.ltb_lt in Esm.
           destruct (fold_left (attempt finalDoc) rest (Some (candidate, st))) as [[bytes used]|].
           ++ right. destruct IH as [[-> Hall] | [Hlt Hfirst]].
              ** split; [exact Esm | apply firstSmallest_head; exact Hall].
              ** split; [lia | apply firstSmallest_later; assumption].
           ++ destruct IH as [IH _]. discriminate.
        -- apply Nat.ltb_ge in Esm.
           destruct (fold_left (attempt finalDoc) rest (Some (b0, s0))) as [[bytes used]|].
           ++ destruct IH as [[-> Hall] | [Hlt Hfirst]].
              ** left. split; [reflexivity | constructor; assumption].
              ** right. split; [exact Hlt | apply firstSmallest_later; [lia | exact Hfirst]].
           ++ destruct IH as [IH _]. discriminate.
      * cbn [smallerThanBest] in Ebest. subst best'.
        destruct (fold_left (attempt finalDoc) rest (Some (candidate, st))) as [[bytes used]|].
        -- destruct IH as [[-> Hall] | [Hlt Hfirst]].
           ++ apply firstSmallest_head. exact Hall.
           ++ apply firstSmallest_later; assumption.
        -- destruct IH as [IH _]. discriminate.
Qed.

(** What [compressPDF] went through when it returns bytes. *)
Lemma compressPDF_inr (pdfBuffer : Buffer) (c : CompressionData) (out : Buffer) :
  compressPDF pdfBuffer c = inr out ->
  exists pdfDoc,
    load pdfBuffer (Some compressLoadOptions) = inr pdfDoc /\
    reloads out /\
    match bestAttempt (compressionLevel c) (finalDocument c pdfDoc) with
    | Some (bytes, _) => out = bytes
    | None => save (finalDocument c pdfDoc) (Some basicSettings) = inr out
    end.
Proof.
  unfold compressPDF.
  destruct (load pdfBuffer (Some compressLoadOptions)) as [msg|pdfDoc]; [discriminate|].
  simpl. intros H. exists pdfDoc. split; [reflexivity|].
  destruct (bestAttempt (compressionLevel c) (finalDocument c pdfDoc)) as [[bytes used]|].
  - simpl in H. destruct (load bytes None) as [msg|d] eqn:El; [discriminate|].
    simpl in H. injection H as <-. split; [exists d; exact El | reflexivity].
  - destruct (save (finalDocument c pdfDoc) (Some basicSettings)) as [msg|bytes];
      [discriminate|].
    simpl in H. destruct (load bytes None) as [msg|d] eqn:El; [discriminate|].
    simpl in H. injection H as <-. split; [exists d; exact El | reflexivity].
Qed.

(** C1, as the code has it.  [compressPDF] never returns bytes that fail
    the reload.  The bytes it returns are the output of one of the save
    configurations of the tier, no larger than the output of any other,
    or, when every configuration of the tier failed to save, the output
    of the basic configuration.  The choice among the saved outputs is by
    size alone: when at least one configuration saved and every output of
    the smallest size fails the reload, [compressPDF] fails, whether or
    not a larger output would have passed.

    And this is all of it.  For an input that loads, the pick is the
    earliest among the smallest of the outputs the configurations of the
    tier saved, in their order: it is returned when it reloads, and
    otherwise the call fails with the error of the reload.  When no
    configuration of the tier saved anything, the pick is what the basic
    configuration saves: it is returned when it reloads, and the call fails
    when that save or the reload fails.  An input that does not load fails
    the call. *)
Theorem compress_selection (pdfBuffer : Buffer) (c : CompressionData) :
  (forall out,
      compressPDF pdfBuffer c = inr out ->
      exists pdfDoc,
        load pdfBuffer (Some compressLoadOptions) = inr pdfDoc /\
        let finalDoc := finalDocument c pdfDoc in
        reloads out /\
        ((savedBy (compressionLevel c) finalDoc out /\
          smallestOf (compressionLevel c) finalDoc out) \/
         ((forall settings, In settings (tierSettings (compressionLevel c)) ->
                            exists msg, save finalDoc (Some settings) = inl msg) /\
          save finalDoc (Some basicSettings) = inr out))) /\
  (forall pdfDoc some,
      load pdfBuffer (Some compressLoadOptions) = inr pdfDoc ->
      let finalDoc := finalDocument c pdfDoc in
      savedBy (compressionLevel c) finalDoc some ->
      (forall candidate,
          savedBy (compressionLevel c) finalDoc candidate ->
          smallestOf (compressionLevel c) finalDoc candidate ->
          ~ reloads candidate) ->
      exists msg, compressPDF pdfBuffer c = inl msg) /\
  (forall pdfDoc pick,
      load pdfBuffer (Some compressLoadOptions) = inr pdfDoc ->
      firstSmallest pick (savedOutputs (compressionLevel c) (finalDocument c pdfDoc)) ->
      (reloads pick -> compressPDF pdfBuffer c = inr pick) /\
      (forall msg,
          load pick None = inl msg ->
          compressPDF pdfBuffer c =
            inl ("PDF compression failed: " ++
                 ("Compression resulted in corrupted PDF: " ++ msg))%string)) /\
  (forall pdfDoc,
      load pdfBuffer (Some compressLoadOptions) = inr pdfDoc ->
      savedOutputs (compressionLevel c) (finalDocument c pdfDoc) = [] ->
      (forall bytes,
          save (finalDocument c pdfDoc) (Some basicSettings) = inr bytes ->
          (reloads bytes -> compressPDF pdfBuffer c = inr bytes) /\
          (forall msg,
              load bytes None = inl msg ->
              compressPDF pdfBuffer c =
                inl ("PDF compression failed: " ++
                     ("Compression resulted in corrupted PDF: " ++ msg))%string)) /\
      (forall msg,
          save (finalDocument c pdfDoc) (Some basicSettings) = inl msg ->
          compressPDF pdfBuffer c = inl ("PDF compression failed: " ++ msg)%string)) /\
  (forall msg,
      load pdfBuffer (Some compressLoadOptions) = inl msg ->
      compressPDF pdfBuffer c = inl ("PDF compression failed: " ++ msg)%string).
Proof.
  split; [|split; [|split; [|split]]].
  - intros out H. apply compressPDF_inr in H.
    destruct H as (pdfDoc & Hload & Hre & Hbest).
    exists pdfDoc. split; [exact Hload|]. cbv zeta. split; [exact Hre|].
    unfold bestAttempt in Hbest.
    pose proof (attempts_spec (finalDocument c pdfDoc)
                  (tierSettings (compressionLevel c)) None) as Hspec.
    destruct (fold_left (attempt (finalDocument c pdfDoc))
                (tierSettings (compressionLevel c)) None) as [[bytes used]|].
    + subst out. destruct Hspec as (Hmin & _ & [Hb | [Hin Hs]]); [discriminate|].
      left. split.
      * exists used. split; assumption.
      * intros candidate (settings & Hin' & Hs'). eauto.
    + right. destruct Hspec as [_ Hall]. split; assumption.
  - intros pdfDoc some Hload finalDoc (st0 & Hin0 & Hs0) Hbad.
    destruct (compressPDF pdfBuffer c) as [msg|out] eqn:E; [exists msg; reflexivity|].
    exfalso. apply compressPDF_inr in E.
    destruct E as (pdfDoc' & Hload' & Hre & Hbest).
    rewrite Hload in Hload'. injection Hload' as <-. fold finalDoc in Hbest.
    unfold bestAttempt in Hbest.
    pose proof (attempts_spec finalDoc (tierSettings (compressionLevel c)) None) as Hspec.
    destruct (fold_left (attempt finalDoc) (tierSettings (compressionLevel c)) None)
      as [[bytes used]|].
    + subst out. destruct Hspec as (Hmin & _ & [Hb | [Hin Hs]]); [discriminate|].
      apply (Hbad bytes); [exists used; split; assumption | | exact Hre].
      intros candidate (settings & Hin' & Hs'). eauto.
    + destruct Hspec as [_ Hall]. destruct (Hall st0 Hin0) as [msg Hmsg]. congruence.
  - intros pdfDoc pick Hload Hpick. unfold compressPDF, bestAttempt. rewrite Hload.
    cbn [bind]. unfold savedOutputs in Hpick.
    pose proof (attempts_first_smallest (finalDocument c pdfDoc)
                  (tierSettings (compressionLevel c)) None) as Hfold.
    destruct (fold_left (attempt (finalDocument c pdfDoc))
                (tierSettings (compressionLevel c)) None) as [[bytes used]|].
    + rewrite (firstSmallest_unique Hfold Hpick). cbn [bind]. split.
      * intros [d Hd]. rewrite Hd. reflexivity.
      * intros msg Hmsg. rewrite Hmsg. reflexivity.
    + destruct Hfold as [_ Hnone]. rewrite Hnone in Hpick.
      destruct (firstSmallest_nil Hpick).
  - intros pdfDoc Hload Hnone. unfold compressPDF, bestAttempt. rewrite Hload.
    cbn [bind]. unfold savedOutputs in Hnone.
    pose proof (attempts_first_smallest (finalDocument c pdfDoc)
                  (tierSettings (compressionLevel c)) None) as Hfold.
    destruct (fold_left (attempt (finalDocument c pdfDoc))
                (tierSettings (compressionLevel c)) None) as [[bytes used]|].
    + rewrite Hnone in Hfold. destruct (firstSmallest_nil Hfold).
    + split.
      * intros bytes Hsave. rewrite Hsave. cbn [bind]. split.
        -- intros [d Hd]. rewrite Hd. reflexivity.
        -- intros msg Hmsg. rewrite Hmsg. reflexivity.
      * intros msg Hmsg. rewrite Hmsg. reflexivity.
  - intros msg Hmsg. unfold compressPDF. rewrite Hmsg. reflexivity.
Qed.

(** C8, as the code has it.  Within a tier, the bytes [compressPDF]
    returns are no larger than the output of any save configuration the
    tier tried on the document. *)
Theorem compress_smallest_of_tier (pdfBuffer : Buffer) (c : CompressionData) (out : Buffer) :
  compressPDF pdfBuffer c = inr out ->
  exists pdfDoc,
    load pdfBuffer (Some compressLoadOptions) = inr pdfDoc /\
    smallestOf (compressionLevel c) (finalDocument c pdfDoc) out.
Proof.
  intros H. apply compressPDF_inr in H.
  destruct H as (pdfDoc & Hload & _ & Hbest).
  exists pdfDoc. split; [exact Hload|].
  unfold bestAttempt in Hbest.
  pose proof (attempts_spec (finalDocument c pdfDoc)
                (tierSettings (compressionLevel c)) None) as Hspec.
  destruct (fold_left (attempt (finalDocument c pdfDoc))
              (tierSettings (compressionLevel c)) None) as [[bytes used]|].
  - subst out. destruct Hspec as (Hmin & _).
    intros candidate (settings & Hin & Hs). eauto.
  - destruct Hspec as [_ Hall].
    intros candidate (settings & Hin & Hs). destruct (Hall settings Hin) as [msg Hmsg].
    congruence.
Qed.

End CompressFacts.

(** The theorem at the [low] tier on a two-page file: the bytes returned
    reload and are the output of the one configuration of the tier.  And
    at the [high] tier: of the four outputs, of 49, 45, 49 and 45 bytes,
    the second is the pick, and it is returned. *)
Lemma compress_selection_witness :
  (exists out,
      @compressPDF toyPdf (toyFile "12") (mkCompressionData low false) = inr out /\
      @reloads toyPdf out /\
      @savedBy toyPdf low (bytes_of "12") out) /\
  map (@List.length byte) (@savedOutputs toyPdf high (bytes_of "12")) = [49; 45; 49; 45]%nat /\
  @compressPDF toyPdf (toyFile "12") (mkCompressionData high false) = inr (toyFile "12").
Proof.
  split; [|split; [reflexivity|]].
  - destruct (@compressPDF toyPdf (toyFile "12") (mkCompressionData low false))
      as [msg|out] eqn:E; [vm_compute in E; discriminate|].
    destruct (proj1 (@compress_selection toyPdf (toyFile "12") (mkCompressionData low false))
                out E) as (pdfDoc & Hload & Hre & Hout).
    vm_compute in Hload. injection Hload as <-.
    exists out. split; [reflexivity|]. split; [exact Hre|].
    destruct Hout as [[Hsaved _] | [Hall _]]; [exact Hsaved|].
    destruct (Hall (primarySettings low) (or_introl eq_refl)) as [msg Hmsg].
    vm_compute in Hmsg. discriminate.
  - apply (proj1 (proj2 (proj2 (@compress_selection toyPdf (toyFile "12")
                                  (mkCompressionData high false))))
             (bytes_of "12") (toyFile "12") eq_refl).
    + exists [toyHeader ++ bytes_of "Obj 12" ++ toyTrailer],
             [toyHeader ++ bytes_of "Obj 12" ++ toyTrailer; toyFile "12"].
      split; [reflexivity|].
      split; repeat constructor; vm_compute; lia.
    + exists (bytes_of "12"). reflexivity.
Defined.

(** C1, as the specification states it, fails.  On a file with a page 9
    the [high] tier saves four candidates; the second one reloads, but the
    first is smaller and does not, and [compressPDF] fails instead of
    returning the second.  On the same file at [medium] the only candidate
    does not reload, and [compressPDF] fails instead of falling back to the
    basic configuration, whose output would reload. *)
Lemma compress_valid_candidate_not_returned :
  ~ @returnsSmallestValid toyPdf (toyFile "9") (mkCompressionData high false) /\
  ~ @fallsBackWhenNoneValid toyPdf (toyFile "9") (mkCompressionData medium false) /\
  @savedBy toyPdf high (bytes_of "9") (toyFile "9") /\
  @reloads toyPdf (toyFile "9") /\
  @compressPDF toyPdf (toyFile "9") (mkCompressionData high false) =
    inl "PDF compression failed: Compression resulted in corrupted PDF: Invalid PDF structure".
Proof.
  assert (@savedBy toyPdf high (bytes_of "9") (toyFile "9")) as Hsaved.
  { exists (mkSaveOptions (Some false) false (Some 5%Z) false (Some true)).
    split; [right; left; reflexivity | reflexivity]. }
  assert (@reloads toyPdf (toyFile "9")) as Hre by (exists (bytes_of "9"); reflexivity).
  split; [|split; [|split; [exact Hsaved | split; [exact Hre | reflexivity]]]].
  - intros Hclaim.
    destruct (Hclaim (bytes_of "9") (toyFile "9") eq_refl Hsaved Hre) as (out & Hout & _).
    vm_compute in Hout. discriminate.
  - intros Hclaim.
    destruct (Hclaim (bytes_of "9") eq_refl) as (out & Hout & _).
    + intros candidate (settings & Hin & Hs) [d Hd].
      destruct Hin as [<- | []]. vm_compute in Hs. injection Hs as <-.
      vm_compute in Hd. discriminate.
    + vm_compute in Hout. discriminate.
Qed.

(** The theorem at the [high] tier on a two-page file: the bytes returned
    are no larger than what the primary configuration saves. *)
Lemma compress_smallest_of_tier_witness :
  exists out primary,
    @compressPDF toyPdf (toyFile "12") (mkCompressionData high false) = inr out /\
    @save toyPdf (bytes_of "12") (Some (primarySettings high)) = inr primary /\
    (List.length out <= List.length primary)%nat.
Proof.
  destruct (@compressPDF toyPdf (toyFile "12") (mkCompressionData high false))
    as [msg|out] eqn:E; [vm_compute in E; discriminate|].
  destruct (@compress_smallest_of_tier toyPdf (toyFile "12") (mkCompressionData high false)
              out E) as (pdfDoc & Hload & Hmin).
  vm_compute in Hload. injection Hload as <-.
  exists out. eexists. split; [reflexivity|]. split; [reflexivity|].
  apply Hmin. exists (primarySettings high). split; [left; reflexivity | reflexivity].
Defined.

(** C8, as the specification states it, fails.  On a two-page file the
    [low] tier returns 45 bytes and the [medium] tier, whose one
    configuration saves with object streams, returns 49. *)
Lemma compress_tiers_not_monotone :
  (exists outLow outMedium,
      @compressPDF toyPdf (toyFile "12") (mkCompressionData low false) = inr outLow /\
      @compressPDF toyPdf (toyFile "12") (mkCompressionData medium false) = inr outMedium /\
      List.length outLow = 45%nat /\ List.length outMedium = 49%nat) /\
  ~ @tiersNonIncreasing toyPdf (toyFile "12") false.
Proof.
  split.
  - eexists. eexists. split; [vm_compute; reflexivity|].
    split; [vm_compute; reflexivity|]. split; reflexivity.
  - intros (Hlm & _).
    specialize (Hlm _ _ eq_refl eq_refl). vm_compute in Hlm. lia.
Qed.

(** ** AnnotationPipeline *)






Lemma integerValue_eq (q : Q) (z : Z) : integerValue q = Some z -> (q == inject_Z z)%Q.
Proof.
  unfold integerValue.
  destruct (Qnum q mod Zpos (Qden q) =? 0)%Z eqn:E; [|discriminate].
  intros [= <-]. apply Z.eqb_eq in E. apply Z.div_exact in E; [|discriminate].
  unfold Qeq. simpl. rewrite Z.mul_1_r, Z.mul_comm. exact E.
Qed.

(** A start page below 1 is an index below 0, and the first page access
    throws. *)
Lemma headerFooterOps_below_one (h : HeaderFooterData) (npages : Z) (q : Q) :
  startPage h = Fin q -> (q < 1)%Q -> (0 <= npages)%Z ->
  headerFooterOps h npages = inl undefinedPageError.
Proof.
  intros Hsp Hlt Hn. unfold headerFooterOps. rewrite Hsp.
  destruct (integerValue q) as [sp|] eqn:Eint.
  - apply integerValue_eq in Eint. rewrite Eint in Hlt.
    unfold Qlt in Hlt. simpl in Hlt. simpl.
    replace (sp - 1 <? npages)%Z with true by (symmetry; apply Z.ltb_lt; lia).
    replace (0 <=? sp - 1)%Z with false by (symmetry; apply Z.leb_gt; lia).
    reflexivity.
  - destruct (Qle_bool (inject_Z npages) (q - 1)%Q) eqn:E; [|reflexivity].
    exfalso. apply Qle_bool_iff in E.
    assert (inject_Z npages < 0)%Q as Hneg by lra.
    unfold Qlt in Hneg. simpl in Hneg. lia.
Qed.

(** The page loop from a valid index on: every page up to the last is
    annotated, in order. *)
Lemma headerFooterLoop_from (h : HeaderFooterData) (npages : Z) (fuel : nat) (i : Z)
      (ops : list DrawOp) :
  (0 <= i)%Z -> (Z.to_nat (npages - i) < fuel)%nat ->
  headerFooterLoop fuel h npages i ops =
  inr (ops ++ flat_map (pageOps h npages) (range i npages)).
Proof.
  revert i ops. induction fuel as [|fuel IH]; intros i ops Hi Hfuel; [lia|].
  simpl. destruct (i <? npages)%Z eqn:E.
  - apply Z.ltb_lt in E.
    replace (0 <=? i)%Z with true by (symmetry; apply Z.leb_le; lia).
    simpl. rewrite IH by lia.
    rewrite <- (@range_app i (i + 1) npages) by lia.
    rewrite flat_map_app, <- app_assoc. f_equal. f_equal. f_equal.
    unfold range. replace (Z.to_nat (i + 1 - i)) with 1%nat by lia. simpl.
    rewrite Z.add_0_r, app_nil_r. reflexivity.
  - apply Z.ltb_ge in E. rewrite range_nil by lia. simpl. rewrite app_nil_r. reflexivity.
Qed.

(** C4.  What the code does where the claim fails: with [startPage = 0] on
    a one-page document the loop starts at index -1, the page access is
    out of range, and the request fails; nothing is drawn on the first
    page.  The watermark path clamps the same value to index 0, and with
    [startPage = 1] the header path annotates the page. *)
Theorem headerFooter_startPage_zero_throws :
  headerFooterOps (pageNumberHeader (Int 0)) 1 = inl undefinedPageError /\
  @addHeaderFooterToPDF toyPdf (toyFile "1") (pageNumberHeader (Int 0)) =
    inl "PDF processing failed: Cannot read properties of undefined (reading 'getSize')" /\
  headerFooterOps (pageNumberHeader (Int (-3))) 1 = inl undefinedPageError /\
  headerFooterOps (pageNumberHeader (Int 1)) 1 =
    inr [DrawSlotText 0 RightHeader "Page 1 of 1" 10 (hexToRgb "#000000")] /\
  startPageIndex (mkWatermarkData None None None None None None (Some (Int 0)) EndPageZero)
    = Int 0.
Proof. repeat split. Qed.


(* ===================================================================== *)
(** * Part III. Further properties of the service                         *)
(* ===================================================================== *)

(** ** Printed integers and file names *)

Lemma In_range (a b x : Z) : In x (range a b) <-> (a <= x < b)%Z.
Proof.
  unfold range. rewrite in_map_iff. split.
  - intros (k & <- & Hk). apply in_seq in Hk. lia.
  - intros H. exists (Z.to_nat (x - a)). split; [lia|]. apply in_seq. lia.
Qed.

Lemma showZ_inj (a b : Z) : showZ a = showZ b -> a = b.
Proof.
  unfold showZ, toString, text_of, chars. rewrite !string_of_list_ascii_of_string.
  intros H. apply DecimalZ.to_int_inj.
  assert (forall z, Z.to_int z <> Decimal.Pos Decimal.Nil /\
                    Z.to_int z <> Decimal.Neg Decimal.Nil) as Hnz.
  { intros z. split; intros E; pose proof (f_equal Z.of_int E) as E0;
      rewrite DecimalZ.of_to in E0; simpl in E0; subst z; discriminate. }
  apply (f_equal NilZero.int_of_string) in H.
  rewrite !NilZero.isi in H by apply Hnz. congruence.
Qed.

Lemma append_inv_head (s a b : string) : (s ++ a = s ++ b)%string -> a = b.
Proof. induction s as [|c s IH]; simpl; intros H; [exact H | injection H as H; auto]. Qed.

Lemma chars_append (a b : string) : chars (a ++ b)%string = chars a ++ chars b.
Proof. induction a as [|c a IH]; simpl; [reflexivity | rewrite IH; reflexivity]. Qed.

Lemma append_inv_tail (a b t : string) : (a ++ t = b ++ t)%string -> a = b.
Proof.
  intros H. apply (f_equal chars) in H. rewrite !chars_append in H.
  apply app_inv_tail in H. apply (f_equal text_of) in H.
  rewrite !text_of_chars in H. exact H.
Qed.

(** Two names built around a printed number are equal only for the same
    number. *)
Lemma numbered_name_inj (prefix infix suffix : string) (a b : Z) :
  (prefix ++ infix ++ showZ a ++ suffix = prefix ++ infix ++ showZ b ++ suffix)%string ->
  a = b.
Proof.
  intros H. apply append_inv_head, append_inv_head, append_inv_tail in H.
  apply showZ_inj. exact H.
Qed.

(** ** SplitPlanner: bounds, page counts and names *)

Lemma planPages_shape (fileName : string) (totalPages : Z) (pages : list jsint) (grp : SplitGroup) :
  In grp (planPages fileName totalPages pages) ->
  exists pageNum,
    In (Int pageNum) pages /\ (0 < pageNum <= totalPages)%Z /\
    grp = mkSplitGroup [(pageNum - 1)%Z]
            (fileName ++ "_page_" ++ showZ pageNum ++ ".pdf")
            ("Page " ++ showZ pageNum) (Int 1).
Proof.
  induction pages as [|[|z] rest IH]; simpl; [intros [] | |].
  - intros H. destruct (IH H) as (q & Hq & Hr & Hg). exists q. auto.
  - destruct ((0 <? z) && (z <=? totalPages))%Z eqn:E.
    + intros [<- | H].
      * exists z. apply andb_true_iff in E. destruct E as [E1 E2].
        apply Z.ltb_lt in E1. apply Z.leb_le in E2. repeat split; auto; lia.
      * destruct (IH H) as (q & Hq & Hr & Hg). exists q. auto.
    + intros H. destruct (IH H) as (q & Hq & Hr & Hg). exists q. auto.
Qed.

Lemma planRanges_shape (fileName : string) (totalPages : Z) (ranges : list (jsint * jsint))
      (grp : SplitGroup) :
  In grp (planRanges fileName totalPages ranges) ->
  exists startPage endPage,
    (1 <= startPage <= endPage)%Z /\ (endPage <= totalPages)%Z /\
    pageIndices grp = map (fun pageNum => (pageNum - 1)%Z) (range startPage (endPage + 1)) /\
    group_pageCount grp = Int (endPage - startPage + 1).
Proof.
  induction ranges as [|[start end_] rest IH]; simpl; [intros []|].
  destruct start as [|s]; simpl; [exact IH|].
  destruct end_ as [|e]; simpl; [exact IH|].
  destruct (Z.max 1 s <=? Z.min totalPages e)%Z eqn:E; [|exact IH].
  apply Z.leb_le in E. intros [<- | H]; [|exact (IH H)].
  exists (Z.max 1 s), (Z.min totalPages e). simpl. repeat split; lia.
Qed.

Lemma planEveryLoop_shape (fileName : string) (totalPages n : Z) (fuel : nat) (i part : Z)
      (grp : SplitGroup) :
  (1 <= n)%Z -> (0 <= i)%Z ->
  In grp (planEveryLoop fuel fileName totalPages n i part) ->
  exists lo hi,
    (0 <= lo < hi)%Z /\ (hi <= totalPages)%Z /\
    pageIndices grp = range lo hi /\ group_pageCount grp = Int (hi - lo).
Proof.
  intros Hn. revert i part. induction fuel as [|fuel IH]; intros i part Hi; simpl; [intros []|].
  destruct (i <? totalPages)%Z eqn:E; [|intros []].
  apply Z.ltb_lt in E. intros [<- | H].
  - exists i, (Z.min (i + n) totalPages). simpl. repeat split; try lia. f_equal. lia.
  - apply (IH (i + n)%Z (part + 1)%Z); [lia | exact H].
Qed.

Lemma shifted_range (lo hi : Z) :
  map (fun pageNum => (pageNum - 1)%Z) (range lo hi) = range (lo - 1) (hi - 1).
Proof.
  unfold range. rewrite map_map.
  replace (hi - 1 - (lo - 1))%Z with (hi - lo)%Z by lia.
  apply map_ext. intros k. lia.
Qed.

(** X1.  Whatever the request, the split never asks for a page outside the
    document: every planned index lies in [0 .. totalPages - 1]. *)
Theorem split_indices_in_bounds (d : SplitData) (totalPages : Z) (groups : list SplitGroup) :
  planSplit d totalPages = inr groups ->
  Forall (fun grp => Forall (inBounds totalPages) (pageIndices grp)) groups.
Proof.
  unfold planSplit. intros H. apply Forall_forall. intros grp Hin.
  apply Forall_forall. intros idx Hidx. unfold inBounds.
  destruct (String.eqb (splitType d) "pages").
  { injection H as <-. apply planPages_shape in Hin.
    destruct Hin as (q & _ & Hq & ->). simpl in Hidx. destruct Hidx as [<- | []]. lia. }
  destruct (String.eqb (splitType d) "ranges").
  { injection H as <-. apply planRanges_shape in Hin.
    destruct Hin as (sp & ep & Hs & He & Hg & _).
    rewrite Hg, shifted_range in Hidx. apply In_range in Hidx. lia. }
  destruct (String.eqb (splitType d) "every"); [|discriminate].
  injection H as <-. unfold planEvery in Hin.
  destruct (everyNPages d) as [|z]; simpl in Hin.
  - destruct (0 <? totalPages)%Z; [|destruct Hin].
    destruct Hin as [<- | []]. destruct Hidx.
  - apply planEveryLoop_shape in Hin; [|lia|lia].
    destruct Hin as (lo & hi & Hlo & Hhi & Hg & _).
    rewrite Hg in Hidx. apply In_range in Hidx. lia.
Qed.

(** The theorem at a ranges request that reaches beyond both ends of a
    five-page document. *)
Lemma split_indices_in_bounds_witness :
  Forall (fun grp => Forall (inBounds 5) (pageIndices grp))
    (planRanges "doc" 5 [(Int (-2), Int 3); (Int 4, Int 99)]).
Proof.
  apply (@split_indices_in_bounds
           (mkSplitData "ranges" [] [(Int (-2), Int 3); (Int 4, Int 99)] (Int 1) "doc") 5).
  reflexivity.
Defined.

(** X2.  Unless the chunk size of an [every] split is unparsable, no planned
    output is empty, and the page count reported for an output is the
    number of pages planned for it. *)
Theorem split_groups_counted (d : SplitData) (totalPages : Z) (groups : list SplitGroup) :
  planSplit d totalPages = inr groups ->
  (splitType d = "every" -> everyNPages d <> IntNaN) ->
  Forall (fun grp => pageIndices grp <> [] /\
                     group_pageCount grp = Int (Z.of_nat (List.length (pageIndices grp))))
         groups.
Proof.
  unfold planSplit. intros H Hn. apply Forall_forall. intros grp Hin.
  destruct (String.eqb (splitType d) "pages").
  { injection H as <-. apply planPages_shape in Hin.
    destruct Hin as (q & _ & Hq & ->). simpl. split; [discriminate | reflexivity]. }
  destruct (String.eqb (splitType d) "ranges").
  { injection H as <-. apply planRanges_shape in Hin.
    destruct Hin as (sp & ep & Hs & He & Hg & Hc).
    rewrite Hg, Hc, length_map, range_length. split; [|f_equal; lia].
    intros E. apply (f_equal (@List.length Z)) in E.
    rewrite length_map, range_length in E. simpl in E. lia. }
  destruct (String.eqb (splitType d) "every") eqn:Et; [|discriminate].
  apply String.eqb_eq in Et. specialize (Hn Et).
  injection H as <-. unfold planEvery in Hin.
  destruct (everyNPages d) as [|z]; [congruence|]. simpl in Hin.
  apply planEveryLoop_shape in Hin; [|lia|lia].
  destruct Hin as (lo & hi & Hlo & Hhi & Hg & Hc).
  rewrite Hg, Hc, range_length. split; [|f_equal; lia].
  intros E. apply (f_equal (@List.length Z)) in E. rewrite range_length in E. simpl in E. lia.
Qed.

(** The theorem at a split of seven pages in chunks of three. *)
Lemma split_groups_counted_witness :
  Forall (fun grp => pageIndices grp <> [] /\
                     group_pageCount grp = Int (Z.of_nat (List.length (pageIndices grp))))
         (planEvery "doc" 7 (Int 3)).
Proof.
  apply (@split_groups_counted (mkSplitData "every" [] [] (Int 3) "doc") 7).
  - reflexivity.
  - intros _. discriminate.
Defined.

(** X3.  The [ranges] branch keeps, in the order of the request, each entry
    whose window from max(1, start) to min(totalPages, end) is not empty,
    and plans for it exactly the pages of that window; an entry whose
    window is empty, or one of whose bounds is no number, is left out. *)
Theorem ranges_split_clamped (fileName : string) (totalPages : Z) (ranges : list (jsint * jsint)) :
  map pageIndices (planRanges fileName totalPages ranges) =
  flat_map (clampedRange totalPages) ranges.
Proof.
  induction ranges as [|[start end_] rest IH]; simpl; [reflexivity|].
  destruct start as [|s]; simpl; [exact IH|].
  destruct end_ as [|e]; simpl; [exact IH|].
  destruct (Z.max 1 s <=? Z.min totalPages e)%Z; [|exact IH].
  simpl. rewrite IH, shifted_range. f_equal. f_equal. lia.
Qed.

Lemma planEveryLoop_names (fileName : string) (totalPages n : Z) (fuel : nat) (i part : Z) :
  map group_filename (planEveryLoop fuel fileName totalPages n i part) =
  map (fun k => fileName ++ "_part_" ++ showZ (part + Z.of_nat k) ++ ".pdf")%string
      (seq 0 (List.length (planEveryLoop fuel fileName totalPages n i part))).
Proof.
  revert i part. induction fuel as [|fuel IH]; intros i part; simpl; [reflexivity|].
  destruct (i <? totalPages)%Z; [|reflexivity].
  simpl. rewrite Z.add_0_r. f_equal.
  rewrite IH, <- seq_shift, map_map. apply map_ext. intros k.
  replace (part + 1 + Z.of_nat k)%Z with (part + Z.of_nat (S k))%Z by lia.
  reflexivity.
Qed.

Lemma partName_inj (fileName : string) (j k : nat) :
  partName fileName j = partName fileName k -> j = k.
Proof.
  unfold partName. intros H. apply numbered_name_inj in H. lia.
Qed.

(** X4.  The outputs of an [every] split with a numeric chunk size are named
    [<fileName>_part_1.pdf], [<fileName>_part_2.pdf], ... in order, so no
    two of them have the same name. *)
Theorem every_split_names (fileName : string) (totalPages z : Z) :
  let groups := planEvery fileName totalPages (Int z) in
  map group_filename groups = map (partName fileName) (seq 0 (List.length groups)) /\
  NoDup (map group_filename groups).
Proof.
  cbv zeta. unfold planEvery. simpl.
  assert (map group_filename
            (planEveryLoop (Z.to_nat totalPages) fileName totalPages (Z.max 1 z) 0 1) =
          map (partName fileName)
            (seq 0 (List.length
                      (planEveryLoop (Z.to_nat totalPages) fileName totalPages (Z.max 1 z) 0 1))))
    as Hnames.
  { rewrite planEveryLoop_names. apply map_ext. intros k. unfold partName.
    replace (1 + Z.of_nat k)%Z with (Z.of_nat k + 1)%Z by lia. reflexivity. }
  split; [exact Hnames|].
  rewrite Hnames. apply Injective_map_NoDup; [|apply seq_NoDup].
  intros j k. apply partName_inj.
Qed.

(** X5.  In a [pages] split two outputs have the same name exactly when they
    are for the same page: a page requested twice gives two outputs under
    one name. *)
Theorem pages_split_names (fileName : string) (totalPages : Z) (pages : list jsint)
        (g1 g2 : SplitGroup) :
  In g1 (planPages fileName totalPages pages) ->
  In g2 (planPages fileName totalPages pages) ->
  (group_filename g1 = group_filename g2 <-> pageIndices g1 = pageIndices g2).
Proof.
  intros H1 H2.
  apply planPages_shape in H1. destruct H1 as (p1 & _ & _ & ->).
  apply planPages_shape in H2. destruct H2 as (p2 & _ & _ & ->).
  cbn [group_filename pageIndices]. split.
  - intros H. apply numbered_name_inj in H. subst p2. reflexivity.
  - intros [= H]. replace p2 with p1 by lia. reflexivity.
Qed.

(** The theorem at the request [2, 2] on a three-page document: both
    outputs are called [doc_page_2.pdf]. *)
Lemma pages_split_names_witness :
  map group_filename (planPages "doc" 3 [Int 2; Int 2]) = ["doc_page_2.pdf"; "doc_page_2.pdf"] /\
  (group_filename (nth 0 (planPages "doc" 3 [Int 2; Int 2]) (mkSplitGroup [] "" "" IntNaN)) =
   group_filename (nth 1 (planPages "doc" 3 [Int 2; Int 2]) (mkSplitGroup [] "" "" IntNaN))
   <-> [1%Z] = [1%Z]).
Proof.
  split; [reflexivity|].
  apply (@pages_split_names "doc" 3 [Int 2; Int 2]).
  - left. reflexivity.
  - right. left. reflexivity.
Defined.

(** ** TemplateEngine: nothing is left to expand *)

Section ReplaceFacts.

Variable A : Type.
Variable eqb : A -> A -> bool.
Hypothesis eqb_eq : forall x y, eqb x y = true <-> x = y.

Lemma eqb_neq (x y : A) : x <> y -> eqb x y = false.
Proof.
  intros H. destruct (eqb x y) eqn:E; [|reflexivity].
  apply eqb_eq in E. contradiction.
Qed.

(** A pattern none of whose elements starts the replacement is found at
    the head of the output only where it was at the head of the input. *)
Lemma prefixb_replace_back (q pat rep' : list A) (r0 : A) (t : list A) :
  ~ In r0 q ->
  prefixb eqb q (replaceAllFrom eqb 0 pat (r0 :: rep') t) = true ->
  prefixb eqb q t = true.
Proof.
  revert t. induction q as [|x q IH]; intros t Hr H; [reflexivity|].
  destruct t as [|c t]; [simpl in H; discriminate|].
  cbn [replaceAllFrom] in H.
  destruct (prefixb eqb pat (c :: t)).
  - simpl in H. apply andb_true_iff in H. destruct H as [H _].
    apply eqb_eq in H. exfalso. apply Hr. left. exact H.
  - simpl in H. apply andb_true_iff in H. destruct H as [Hx Hq].
    simpl. rewrite Hx. simpl. apply IH; [|exact Hq].
    intros Hin. apply Hr. right. exact Hin.
Qed.

Lemma includesb_skip_rep (h : A) (p rep t : list A) :
  ~ In h rep -> includesb eqb (h :: p) (rep ++ t) = includesb eqb (h :: p) t.
Proof.
  intros Hh. induction rep as [|x rep IH]; [reflexivity|].
  change ((x :: rep) ++ t) with (x :: (rep ++ t)).
  cbn [includesb prefixb]. rewrite eqb_neq.
  - simpl. apply IH. intros Hin. apply Hh. right. exact Hin.
  - intros <-. apply Hh. left. reflexivity.
Qed.

(** After a global replace the pattern does not occur any more, as long as
    the replacement neither holds the first element of the pattern nor
    starts with an element of the pattern. *)
Lemma replaceAllFrom_removes (h : A) (p rep' : list A) (r0 : A) (k : nat) (t : list A) :
  ~ In h (r0 :: rep') -> ~ In r0 (h :: p) ->
  includesb eqb (h :: p) (replaceAllFrom eqb k (h :: p) (r0 :: rep') t) = false.
Proof.
  intros Hh Hr. revert k. induction t as [|c t IH]; intros k; [reflexivity|].
  cbn [replaceAllFrom]. destruct k as [|k]; [|apply IH].
  destruct (prefixb eqb (h :: p) (c :: t)) eqn:E.
  - rewrite includesb_skip_rep by exact Hh. apply IH.
  - cbn [includesb]. rewrite IH, orb_false_r.
    destruct (prefixb eqb (h :: p) (c :: replaceAllFrom eqb 0 (h :: p) (r0 :: rep') t)) eqn:E2;
      [|reflexivity].
    assert (replaceAllFrom eqb 0 (h :: p) (r0 :: rep') (c :: t) =
            c :: replaceAllFrom eqb 0 (h :: p) (r0 :: rep') t) as Hout
      by (cbn [replaceAllFrom]; rewrite E; reflexivity).
    rewrite <- Hout in E2. apply prefixb_replace_back in E2; [congruence | exact Hr].
Qed.

(** A global replace does not bring about a pattern that was absent, as
    long as the pattern and the replacement share no element. *)
Lemma replaceAllFrom_keeps_absent (h : A) (q pat rep' : list A) (r0 : A) (k : nat) (t : list A) :
  (forall x, In x (h :: q) -> ~ In x (r0 :: rep')) ->
  includesb eqb (h :: q) t = false ->
  includesb eqb (h :: q) (replaceAllFrom eqb k pat (r0 :: rep') t) = false.
Proof.
  intros Hdis. revert k. induction t as [|c t IH]; intros k Habs; [reflexivity|].
  cbn [includesb] in Habs. apply orb_false_iff in Habs. destruct Habs as [Hp Ht].
  cbn [replaceAllFrom]. destruct k as [|k]; [|apply IH; exact Ht].
  destruct (prefixb eqb pat (c :: t)) eqn:E.
  - rewrite includesb_skip_rep by (apply Hdis; left; reflexivity). apply IH. exact Ht.
  - cbn [includesb]. rewrite (IH 0%nat Ht), orb_false_r.
    destruct (prefixb eqb (h :: q) (c :: replaceAllFrom eqb 0 pat (r0 :: rep') t)) eqn:E2;
      [|reflexivity].
    assert (replaceAllFrom eqb 0 pat (r0 :: rep') (c :: t) =
            c :: replaceAllFrom eqb 0 pat (r0 :: rep') t) as Hout
      by (cbn [replaceAllFrom]; rewrite E; reflexivity).
    rewrite <- Hout in E2. apply prefixb_replace_back in E2; [congruence|].
    intros Hin. apply (Hdis r0 Hin). left. reflexivity.
Qed.

End ReplaceFacts.

Lemma string_of_uint_chars (d : Decimal.uint) :
  Forall (fun c => In c (chars "0123456789")) (chars (NilEmpty.string_of_uint d)).
Proof.
  induction d; simpl; constructor; simpl; auto 12.
Qed.

(** A printed integer is not empty and is made of digits and the sign. *)
Lemma toString_chars (n : Z) :
  toString n <> [] /\ Forall (fun c => In c (chars "-0123456789")) (toString n).
Proof.
  assert (forall d, Forall (fun c => In c (chars "-0123456789"))
                      (chars (NilZero.string_of_uint d))) as Hu.
  { intros d. unfold NilZero.string_of_uint.
    assert (Forall (fun c => In c (chars "-0123456789")) (chars (NilEmpty.string_of_uint d)))
      as Hd.
    { eapply Forall_impl; [|apply string_of_uint_chars]. intros c Hc. right. exact Hc. }
    destruct d; try exact Hd. constructor; [simpl; auto | constructor]. }
  assert (forall d, chars (NilZero.string_of_uint d) <> []) as Hne
    by (intros d; destruct d; discriminate).
  unfold toString, NilZero.string_of_int. destruct (Z.to_int n) as [d|d].
  - split; [apply Hne | apply Hu].
  - split; [discriminate|]. constructor; [left; reflexivity | apply Hu].
Qed.

(** X6.  The output of [processTemplate] holds neither [(x)] nor [(file)], so
    expanding it once more, for whatever page, changes nothing. *)
Theorem processTemplate_leaves_no_placeholder (text : string) (p t : Z) :
  includes (processTemplate text p t) "(x)" = false /\
  includes (processTemplate text p t) "(file)" = false /\
  (forall p' t' : Z,
      processTemplate (processTemplate text p t) p' t' = processTemplate text p t).
Proof.
  assert (includes (processTemplate text p t) "(x)" = false /\
          includes (processTemplate text p t) "(file)" = false) as [Hx Hf].
  { unfold includes, processTemplate, text_of, chars.
    rewrite list_ascii_of_string_of_list_ascii.
    fold chars. unfold replaceText at 1 2, replaceAll.
    destruct (toString_chars p) as [Hne Hdigits].
    destruct (toString p) as [|r0 rep'] eqn:Ep; [congruence|].
    assert (In r0 (chars "-0123456789")) as Hr0 by (inversion Hdigits; assumption).
    assert (~ In "("%char (r0 :: rep')) as Hparen.
    { intros Hin. rewrite Forall_forall in Hdigits. specialize (Hdigits _ Hin).
      simpl in Hdigits. intuition discriminate. }
    assert (~ In r0 (chars "(x)")) as Hstart.
    { intros Hin. simpl in Hr0, Hin. intuition (subst; discriminate). }
    split.
    - apply replaceAllFrom_keeps_absent; [apply Ascii.eqb_eq | |].
      + intros x Hin1 Hin2. simpl in Hin1, Hin2. intuition (subst; discriminate).
      + apply replaceAllFrom_removes; [apply Ascii.eqb_eq | exact Hparen | exact Hstart].
    - apply replaceAllFrom_removes; [apply Ascii.eqb_eq | |];
        simpl; intuition discriminate. }
  split; [exact Hx|]. split; [exact Hf|].
  intros p' t'. apply processTemplate_unchanged; assumption.
Qed.


(** ** AnnotationPipeline: the pages that are drawn on *)

(** X7.  The watermark loop never touches a page outside the document, whatever
    the start and end page of the request. *)
Theorem watermark_pages_in_bounds (w : WatermarkData) (npages : Z) :
  Forall (inBounds npages) (watermarkPages w npages).
Proof.
  apply Forall_forall. intros i Hi. unfold watermarkPages in Hi.
  destruct (startPageIndex w) as [|lo] eqn:Elo; [destruct Hi|].
  destruct (endPageIndex w npages) as [|hi] eqn:Ehi; [destruct Hi|].
  apply In_range in Hi. unfold inBounds.
  unfold startPageIndex in Elo. unfold endPageIndex in Ehi.
  destruct (int_pred (getOr (wm_startPage w) (Int 1))) as [|s]; [discriminate|].
  simpl in Elo. injection Elo as <-.
  destruct (int_pred _) as [|e] in Ehi; [discriminate|].
  simpl in Ehi. injection Ehi as <-. lia.
Qed.

(** X8.  The watermark goes on the pages from the start page of the request
    (the first page for a start page below 1) to its end page, and to the
    last page of the document when the end page is 0, absent or beyond the
    document.  A start or end page that is no number selects no page. *)
Theorem watermark_pages_window (w : WatermarkData) (npages : Z) :
  (forall s, getOr (wm_startPage w) (Int 1) = Int s ->
     (wm_endPage w = EndPageZero ->
      forall i, In i (watermarkPages w npages) <-> (Z.max 0 (s - 1) <= i < npages)%Z) /\
     (forall e, wm_endPage w = EndPageValue (Int e) ->
      forall i, In i (watermarkPages w npages) <->
                (Z.max 0 (s - 1) <= i < Z.min npages e)%Z)) /\
  (getOr (wm_startPage w) (Int 1) = IntNaN \/ wm_endPage w = EndPageValue IntNaN ->
   watermarkPages w npages = []).
Proof.
  unfold watermarkPages, startPageIndex, endPageIndex. split.
  - intros s ->. split.
    + intros ->. intros i. simpl. rewrite In_range. lia.
    + intros e ->. intros i. simpl. rewrite In_range. lia.
  - intros [-> | ->]; simpl; [reflexivity|].
    destruct (int_max 0 (int_pred (getOr (wm_startPage w) (Int 1)))); reflexivity.
Qed.

(** The theorem at a request for the pages 2 to 3 of a five-page
    document. *)
Lemma watermark_pages_window_witness :
  In 2%Z (watermarkPages
            (mkWatermarkData None None None None None None (Some (Int 2))
               (EndPageValue (Int 3))) 5) <-> (1 <= 2 < 3)%Z.
Proof.
  exact (proj2 (proj1 (watermark_pages_window
                         (mkWatermarkData None None None None None None (Some (Int 2))
                            (EndPageValue (Int 3))) 5) 2%Z eq_refl) 3%Z eq_refl 2%Z).
Defined.

Lemma slotOps_page (h : HeaderFooterData) (npages i : Z) (slot : Slot) (slotText : string) :
  Forall (fun op => opPage op = i) (slotOps h npages i slot slotText).
Proof.
  unfold slotOps. destruct (isEmpty slotText); repeat constructor.
Qed.

Lemma pageOps_page (h : HeaderFooterData) (npages i : Z) :
  Forall (fun op => opPage op = i) (pageOps h npages i).
Proof.
  unfold pageOps. repeat (apply Forall_app; split); try apply slotOps_page.
  destruct (coverWithWhite h); repeat constructor.
Qed.

Lemma pageOps_slot (h : HeaderFooterData) (npages i : Z) (slot : Slot) :
  isEmpty (slotTextOf h slot) = false ->
  In (DrawSlotText i slot (processTemplate (slotTextOf h slot) (i + 1) npages)
        (orDefault (fontSize h) 10) (hexToRgb (textColor h)))
     (pageOps h npages i).
Proof.
  intros Hne. unfold pageOps.
  assert (In (DrawSlotText i slot (processTemplate (slotTextOf h slot) (i + 1) npages)
                (orDefault (fontSize h) 10) (hexToRgb (textColor h)))
             (slotOps h npages i slot (slotTextOf h slot))) as Hin
    by (unfold slotOps; rewrite Hne; left; reflexivity).
  destruct slot; simpl in Hin; repeat (apply in_or_app; first [left; exact Hin | right]);
    exact Hin.
Qed.

(** From a fraction the page loop either fails at once or does not run. *)
Lemma fraction_startPage_ops (h : HeaderFooterData) (npages : Z) (q : Q) :
  startPage h = Fin q ->
  integerValue q = None ->
  ((q - 1 < inject_Z npages)%Q -> headerFooterOps h npages = inl undefinedPageError) /\
  ((inject_Z npages <= q - 1)%Q -> headerFooterOps h npages = inr []).
Proof.
  intros Hsp Hfrac. unfold headerFooterOps. rewrite Hsp, Hfrac.
  destruct (Qle_bool (inject_Z npages) (q - 1)%Q) eqn:E.
  - apply Qle_bool_iff in E. split; [intros Hlt; lra | reflexivity].
  - split; [reflexivity|]. intros Hle. apply Qle_bool_iff in Hle. congruence.
Qed.

(** X9.  With a start page whose numeric value is a whole number of at
    least 1 the header and footer request succeeds and draws, page after
    page, on the pages from the start page to the last: nothing is drawn on
    an earlier page, and every slot with a text gets that text expanded for
    the page's number (counted from 1) and the page count of the document.
    With a start page whose numeric value is a fraction nothing is ever
    drawn: the page loop fails at its first page access when the fraction
    less 1 is below the page count, and does not run otherwise. *)
Theorem headerFooter_from_startPage (h : HeaderFooterData) (npages : Z) (q : Q) :
  startPage h = Fin q -> (0 <= npages)%Z ->
  (forall sp,
      integerValue q = Some sp -> (1 <= sp)%Z ->
      exists ops,
        headerFooterOps h npages = inr ops /\
        ops = flat_map (pageOps h npages) (range (sp - 1) npages) /\
        Forall (fun op => (sp - 1 <= opPage op < npages)%Z) ops /\
        (forall i slot,
            (sp - 1 <= i < npages)%Z -> isEmpty (slotTextOf h slot) = false ->
            In (DrawSlotText i slot (processTemplate (slotTextOf h slot) (i + 1) npages)
                  (orDefault (fontSize h) 10) (hexToRgb (textColor h))) ops)) /\
  (integerValue q = None ->
   ((q - 1 < inject_Z npages)%Q -> headerFooterOps h npages = inl undefinedPageError) /\
   ((inject_Z npages <= q - 1)%Q -> headerFooterOps h npages = inr [])).
Proof.
  intros Hsp Hn. split.
  2:{ intros Hfrac. exact (@fraction_startPage_ops h npages q Hsp Hfrac). }
  intros sp Hint Hge.
  exists (flat_map (pageOps h npages) (range (sp - 1) npages)).
  split; [|split; [reflexivity|split]].
  - unfold headerFooterOps. rewrite Hsp, Hint.
    rewrite headerFooterLoop_from by lia. reflexivity.
  - apply Forall_forall. intros op Hop. apply in_flat_map in Hop.
    destruct Hop as (i & Hi & Hop). apply In_range in Hi.
    pose proof (pageOps_page h npages i) as Hpage. rewrite Forall_forall in Hpage.
    rewrite (Hpage op Hop). lia.
  - intros i slot Hi Hne. apply in_flat_map. exists i. split.
    + apply In_range. exact Hi.
    + apply pageOps_slot. exact Hne.
Qed.

(** The theorem at a page number in the right header from page 2 of a
    three-page document: page 0 gets nothing, the pages 1 and 2 get
    [Page 2 of 3] and [Page 3 of 3]. *)
Lemma headerFooter_from_startPage_witness :
  headerFooterOps (pageNumberHeader (Int 2)) 3 =
  inr [DrawSlotText 1 RightHeader "Page 2 of 3" 10 (hexToRgb "#000000");
       DrawSlotText 2 RightHeader "Page 3 of 3" 10 (hexToRgb "#000000")].
Proof.
  assert (0 <= 3)%Z as Hpages by lia.
  destruct (proj1 (@headerFooter_from_startPage (pageNumberHeader (Int 2)) 3 (inject_Z 2)
                     eq_refl Hpages) 2%Z eq_refl)
    as (ops & Hops & -> & _); [lia |].
  exact Hops.
Defined.

(** ** MergeOrchestrator and its handler: errors and validated output *)

Lemma byte_eqb_eq (x y : byte) : Byte.eqb x y = true <-> x = y.
Proof. split; [apply Byte.byte_dec_bl | apply Byte.byte_dec_lb]. Qed.

(** Bytes that pass the structure check are not empty. *)
Lemma structure_valid_nonempty (pdfBytes : Buffer) :
  validatePDFStructure pdfBytes = inr tt -> (byteLength pdfBytes =? 0)%Z = false.
Proof.
  intros H. destruct pdfBytes; [vm_compute in H; discriminate | reflexivity].
Qed.

(** A byte order mark before the signature: the structure check of the
    service, which decodes the bytes first, accepts the file, and the
    signature test of the handlers, on the bytes with the highest bit
    cleared, does not. *)
Example byte_order_mark_before_signature :
  validatePDFStructure (xef :: xbb :: xbf :: toyFile "1") = inr tt /\
  startsWith (asciiHead (xef :: xbb :: xbf :: toyFile "1")) "%PDF-" = false.
Proof. split; vm_compute; reflexivity. Qed.

Section MergeHandlerFacts.

Context `{L : PdfLib}.

(** X10.  The merge handler sends a download only for a request of at
    least two files whose merge data is an object: the bytes sent are the
    bytes the merge returned, they have passed the structure check and the
    reload of the merge, they begin with the signature also after the
    highest bit of each byte is cleared, and the download name makes a
    header value the server accepts.  A request of two or more files whose
    merge data parses to [null], a number, a string or a boolean is answered
    with the status 500 and the error of the assignment to it, before any
    file is looked at.  When the merge returns bytes, the handler's test for
    an empty buffer never fires; its signature test does reject bytes that
    do not begin with the signature as they stand (the structure check of
    the merge lets a byte order mark stand before it), and so does a
    download name that cannot be printed or that the server refuses in a
    header.  When none of this is in the way, the handler sends the bytes
    of the merge under the headers of [mergeHeaders]. *)
Theorem merge_handler_sends_validated (req : MergeRequest) :
  (forall headers body log,
      controllerMergePDFs req = (PdfDownload headers body, log) ->
      req_mergeData req = ObjectBody /\
      validatePDFStructure body = inr tt /\
      (exists validationPdf, load body (Some validationLoadOptions) = inr validationPdf) /\
      startsWith (asciiHead body) "%PDF-" = true /\
      req_outputFileNamePrints req = true /\
      validHeaderValue (contentDisposition (downloadName req)) = true /\
      exists uploaded,
        files req = Some uploaded /\ (2 <= List.length uploaded)%nat /\
        mergePDFs (map file_buffer uploaded)
          (mkMergeData (req_outputFileName req) (req_addBookmarks req)
             (map originalname uploaded)) = (inr body, log)) /\
  (forall uploaded msg,
      files req = Some uploaded -> (2 <= List.length uploaded)%nat ->
      assignFileNamesError (req_mergeData req) = Some msg ->
      controllerMergePDFs req = (JsonError 500 "PDF merge failed" msg, [])) /\
  (forall uploaded info body log,
      files req = Some uploaded ->
      req_mergeData req = ObjectBody ->
      getPDFMergeInfo (map file_buffer uploaded) = inr info ->
      mergePDFs (map file_buffer uploaded)
        (mkMergeData (req_outputFileName req) (req_addBookmarks req)
           (map originalname uploaded)) = (inr body, log) ->
      controllerMergePDFs req =
        (if negb (startsWith (asciiHead body) "%PDF-")
         then JsonError 500 "PDF merge failed"
                "Merged PDF buffer does not contain valid PDF header"
         else if negb (req_outputFileNamePrints req)
         then JsonError 500 "PDF merge failed" unprintableError
         else if negb (validHeaderValue (contentDisposition (downloadName req)))
         then JsonError 500 "PDF merge failed" (invalidHeaderError "Content-Disposition")
         else PdfDownload (mergeHeaders (downloadName req) body) body,
         log)).
Proof.
  split; [|split].
  - intros headers body log. unfold controllerMergePDFs, downloadName.
    destruct (files req) as [[|f1 [|f2 rest]]|]; try discriminate.
    destruct (req_mergeData req) as [| |typeName printed]; try discriminate.
    cbn [assignFileNamesError].
    destruct (getPDFMergeInfo _) as [msg|info]; [discriminate|].
    destruct (mergePDFs _ _) as [[msg|finalBuffer] log0] eqn:Em; [discriminate|].
    destruct (byteLength finalBuffer =? 0)%Z; [discriminate|].
    destruct (startsWith (asciiHead finalBuffer) "%PDF-") eqn:Ehead; [|discriminate].
    destruct (req_outputFileNamePrints req); [|discriminate].
    cbn [negb outputFileName].
    destruct (validHeaderValue _) eqn:Evalid; [|discriminate].
    cbn [negb]. intros [= _ <- <-].
    destruct (mergePDFs_pages _ _ Em) as (docs & v & _ & _ & Hv & Hstruct & _).
    split; [reflexivity|]. split; [exact Hstruct|]. split; [exists v; exact Hv|].
    split; [exact Ehead|]. split; [reflexivity|]. split; [reflexivity|].
    exists (f1 :: f2 :: rest). split; [reflexivity|]. split; [simpl; lia | exact Em].
  - intros uploaded msg Hfiles Hlen Hassign. unfold controllerMergePDFs.
    rewrite Hfiles.
    destruct uploaded as [|f1 [|f2 rest]]; [simpl in Hlen; lia | simpl in Hlen; lia |].
    rewrite Hassign. reflexivity.
  - intros uploaded info body log Hfiles Hbody Hinfo Hmerge.
    destruct (mergePDFs_pages _ _ Hmerge) as (docs & v & Hlen & _ & _ & Hstruct & _).
    pose proof (structure_valid_nonempty _ Hstruct) as Hne.
    unfold controllerMergePDFs, downloadName. rewrite Hfiles, Hbody.
    rewrite length_map in Hlen.
    destruct uploaded as [|f1 [|f2 rest]]; [simpl in Hlen; lia | simpl in Hlen; lia |].
    cbn [assignFileNamesError]. rewrite Hinfo, Hmerge. cbn [outputFileName]. rewrite Hne.
    destruct (negb (startsWith (asciiHead body) "%PDF-")); [reflexivity|].
    destruct (negb (req_outputFileNamePrints req)); [reflexivity|].
    destruct (negb (validHeaderValue _)); reflexivity.
Qed.

(** X11.  For a request whose merge data is an object, the handler loads
    every upload with the default options before it merges: when one of
    them does not load that way, the answer is the status 500 with the
    analysis error, whatever the merge itself (which loads with other
    options) would have made of the files. *)
Theorem merge_handler_needs_default_load (req : MergeRequest) (uploaded : list UploadedFile)
        (bad : UploadedFile) (msg : string) :
  files req = Some uploaded -> (2 <= List.length uploaded)%nat ->
  req_mergeData req = ObjectBody ->
  In bad uploaded -> load (file_buffer bad) None = inl msg ->
  exists reason,
    controllerMergePDFs req =
      (JsonError 500 "PDF merge failed" ("Failed to analyze PDFs: " ++ reason), []).
Proof.
  intros Hfiles Hlen Hbody Hin Hbad.
  assert (exists reason, loadPageCounts (map file_buffer uploaded) = inl reason) as [reason Hr].
  { clear Hfiles Hlen. induction uploaded as [|f rest IH]; [destruct Hin|].
    simpl. destruct (load (file_buffer f) None) as [m|d] eqn:El.
    - exists m. reflexivity.
    - destruct Hin as [-> | Hin]; [congruence|].
      destruct (IH Hin) as [reason Hr]. exists reason. simpl. rewrite Hr. reflexivity. }
  exists reason. unfold controllerMergePDFs. rewrite Hfiles, Hbody.
  destruct uploaded as [|f1 [|f2 rest]]; [simpl in Hlen; lia | simpl in Hlen; lia |].
  cbn [assignFileNamesError]. unfold getPDFMergeInfo. rewrite Hr. reflexivity.
Qed.

Lemma mergeFiles_fails (before after : list Buffer) (bad : Buffer) (docs : list Doc)
      (msg : string) (mergedPdf : Doc) (i : Z) (log : list LogEvent) :
  loadedAs i before docs ->
  loadWithTimeout (i + Z.of_nat (List.length before)) bad = inl msg ->
  exists log',
    mergeFiles mergedPdf i (before ++ bad :: after) log =
      (inl (fileError (i + Z.of_nat (List.length before)) msg), log').
Proof.
  revert docs mergedPdf i log. induction before as [|bytes rest IH];
    intros docs mergedPdf i log Hdocs Hbad.
  - simpl in Hbad. rewrite Z.add_0_r in Hbad. exists log. simpl.
    unfold mergeFile. rewrite Hbad, Z.add_0_r. reflexivity.
  - apply loadedAs_cons_inv in Hdocs. destruct Hdocs as (d & docs' & -> & Hd & Hrest).
    destruct (mergeFile_loaded mergedPdf i bytes log Hd) as (m1 & log1 & E1 & _).
    destruct (IH docs' m1 (i + 1)%Z log1 Hrest) as [log' Hfail].
    { replace (i + 1 + Z.of_nat (List.length rest))%Z
        with (i + Z.of_nat (List.length (bytes :: rest)))%Z by (simpl List.length; lia).
      exact Hbad. }
    exists log'. simpl app. cbn [mergeFiles]. rewrite E1, Hfail.
    replace (i + 1 + Z.of_nat (List.length rest))%Z
      with (i + Z.of_nat (List.length (bytes :: rest)))%Z by (simpl List.length; lia).
    reflexivity.
Qed.

Lemma merge_first_failure_aux (before after : list Buffer) (bad : Buffer) (docs : list Doc)
      (mergeData : MergeData) (msg : string) :
  (2 <= List.length (before ++ bad :: after))%nat ->
  (totalSize (before ++ bad :: after) <= 500 * MB)%Z ->
  loadedAs 0 before docs ->
  loadWithTimeout (Z.of_nat (List.length before)) bad = inl msg ->
  fst (mergePDFs (before ++ bad :: after) mergeData) =
    inl ("PDF merge failed: " ++ fileError (Z.of_nat (List.length before)) msg)%string.
Proof.
  intros Hlen Hsize Hdocs Hbad.
  destruct (@mergeFiles_fails before after bad docs msg create 0 [] Hdocs Hbad) as [log' Hfail].
  unfold mergePDFs.
  destruct (before ++ bad :: after) as [|b1 [|b2 rest]] eqn:E;
    [simpl in Hlen; lia | simpl in Hlen; lia |].
  replace (500 * MB <? totalSize (b1 :: b2 :: rest))%Z with false
    by (symmetry; apply Z.ltb_ge; exact Hsize).
  rewrite Hfail. reflexivity.
Qed.

(** X12.  The first input that does not load ends the merge: the error names
    that file by its position (counted from 1) and classifies it by the
    message of the load error, and the inputs after it are not looked
    at. *)
Theorem merge_first_failure (before after : list Buffer) (bad : Buffer) (docs : list Doc)
        (msg : string) (mergeData : MergeData) :
  (2 <= List.length (before ++ bad :: after))%nat ->
  (totalSize (before ++ bad :: after) <= 500 * MB)%Z ->
  loadedAs 0 before docs ->
  loadWithTimeout (Z.of_nat (List.length before)) bad = inl msg ->
  fst (mergePDFs (before ++ bad :: after) mergeData) =
    inl ("PDF merge failed: " ++ fileError (Z.of_nat (List.length before)) msg)%string.
Proof.
  intros Hlen Hsize Hdocs Hbad. apply merge_first_failure_aux with docs; assumption.
Qed.

Lemma timeout_message_classified (i : Z) :
  fileError i ("PDF " ++ showZ (i + 1) ++ " loading timeout") =
  ("PDF file " ++ showZ (i + 1) ++
   " is too large or complex to process. Consider splitting it into smaller files first.")%string.
Proof.
  unfold fileError.
  replace (includes ("PDF " ++ showZ (i + 1) ++ " loading timeout") "timeout") with true;
    [reflexivity|].
  symmetry. unfold includes. apply (includesb_true_iff _ Ascii.eqb_eq).
  exists (chars ("PDF " ++ showZ (i + 1) ++ " loading ")), [].
  rewrite app_nil_r, !chars_append. rewrite <- !app_assoc. reflexivity.
Qed.

(** X13.  A load that runs into the time limit is always reported as a file too
    large or complex to process, for every position of the file. *)
Theorem merge_timeout_reported (before after : list Buffer) (bad : Buffer) (docs : list Doc)
        (mergeData : MergeData) :
  (2 <= List.length (before ++ bad :: after))%nat ->
  (totalSize (before ++ bad :: after) <= 500 * MB)%Z ->
  loadedAs 0 before docs ->
  loadTimesOut bad = true ->
  fst (mergePDFs (before ++ bad :: after) mergeData) =
    inl ("PDF merge failed: PDF file " ++ showZ (Z.of_nat (List.length before) + 1) ++
         " is too large or complex to process. Consider splitting it into smaller files first.")%string.
Proof.
  intros Hlen Hsize Hdocs Hslow.
  assert (loadWithTimeout (Z.of_nat (List.length before)) bad =
          inl ("PDF " ++ showZ (Z.of_nat (List.length before) + 1) ++ " loading timeout")%string)
    as Hbad by (unfold loadWithTimeout; rewrite Hslow; reflexivity).
  rewrite (@merge_first_failure_aux before after bad docs mergeData _ Hlen Hsize Hdocs Hbad).
  rewrite timeout_message_classified. reflexivity.
Qed.

End MergeHandlerFacts.

(** The theorem at the merge of a one-page file with a file of one good
    and one damaged page. *)
Lemma merge_handler_sends_validated_witness :
  exists headers body log,
    @controllerMergePDFs toyPdf (toyMergeRequest "0") = (PdfDownload headers body, log) /\
    validatePDFStructure body = inr tt.
Proof.
  destruct (@controllerMergePDFs toyPdf (toyMergeRequest "0")) as [[st e dt|headers body] log]
    eqn:E; [vm_compute in E; discriminate|].
  exists headers, body, log. split; [reflexivity|].
  exact (proj1 (proj2 (proj1 (@merge_handler_sends_validated toyPdf (toyMergeRequest "0"))
                         headers body log E))).
Defined.

(** The theorem at an upload whose second file is no PDF. *)
Lemma merge_handler_needs_default_load_witness :
  exists reason,
    @controllerMergePDFs toyPdf
      (mkMergeRequest (Some [mkUploadedFile "a.pdf" (toyFile "1");
                             mkUploadedFile "b.pdf" (bytes_of "garbage")])
         ObjectBody None true false "ts") =
    (JsonError 500 "PDF merge failed" ("Failed to analyze PDFs: " ++ reason), []).
Proof.
  apply (@merge_handler_needs_default_load toyPdf _
           [mkUploadedFile "a.pdf" (toyFile "1"); mkUploadedFile "b.pdf" (bytes_of "garbage")]
           (mkUploadedFile "b.pdf" (bytes_of "garbage")) "Invalid PDF structure").
  - reflexivity.
  - simpl. lia.
  - reflexivity.
  - right. left. reflexivity.
  - reflexivity.
Defined.

(** The theorem at a merge whose second input is no PDF: the error names
    file 2 and calls it corrupted. *)
Lemma merge_first_failure_witness :
  fst (@mergePDFs toyPdf [toyFile "1"; bytes_of "garbage"] (mkMergeData None false [])) =
  inl "PDF merge failed: PDF file 2 appears to be corrupted or invalid.".
Proof.
  apply (@merge_first_failure toyPdf [toyFile "1"] [] (bytes_of "garbage") [bytes_of "1"]
           "Invalid PDF structure" (mkMergeData None false [])).
  - simpl. lia.
  - vm_compute. discriminate.
  - apply (@loadedAs_cons toyPdf); [reflexivity | constructor].
  - reflexivity.
Defined.

(** The theorem with the slow loader: the first file already runs into
    the time limit. *)
Lemma merge_timeout_reported_witness :
  fst (@mergePDFs slowToyPdf [toyFile "1"; toyFile "2"] (mkMergeData None false [])) =
  inl "PDF merge failed: PDF file 1 is too large or complex to process. Consider splitting it into smaller files first.".
Proof.
  apply (@merge_timeout_reported slowToyPdf [] [toyFile "2"] (toyFile "1") []
           (mkMergeData None false [])).
  - simpl. lia.
  - vm_compute. discriminate.
  - constructor.
  - reflexivity.
Defined.

Section MergeInfoFacts.

Context `{L : PdfLib}.

Lemma loadPageCounts_inr (pdfBuffers : list Buffer) (counts : list nat) :
  loadPageCounts pdfBuffers = inr counts ->
  Forall2 (fun bytes n => exists d, load bytes None = inr d /\ getPageCount d = n)
          pdfBuffers counts.
Proof.
  revert counts. induction pdfBuffers as [|bytes rest IH]; intros counts; simpl.
  - intros [= <-]. constructor.
  - destruct (load bytes None) as [msg|d] eqn:El; [discriminate|]. simpl.
    destruct (loadPageCounts rest) as [msg|others]; [discriminate|]. simpl.
    intros [= <-]. constructor; [exists d; auto | apply IH; reflexivity].
Qed.

(** X14.  The information [getPDFMergeInfo] returns is consistent: one page
    count per input, in order, each the page count of that input as loaded
    with the default options; their sum as the total; the number of inputs
    and the sum of their sizes. *)
Theorem mergeInfo_consistent (pdfBuffers : list Buffer) (info : MergeInfo) :
  getPDFMergeInfo pdfBuffers = inr info ->
  Forall2 (fun bytes n => exists d, load bytes None = inr d /\ getPageCount d = n)
          pdfBuffers (filePageCounts info) /\
  info_totalPages info = list_sum (filePageCounts info) /\
  fileCount info = List.length pdfBuffers /\
  List.length (filePageCounts info) = List.length pdfBuffers /\
  estimatedSize info = totalSize pdfBuffers.
Proof.
  unfold getPDFMergeInfo.
  destruct (loadPageCounts pdfBuffers) as [msg|counts] eqn:E; [discriminate|].
  simpl. intros [= <-]. simpl. apply loadPageCounts_inr in E.
  repeat split; try assumption.
  symmetry. eapply Forall2_length. exact E.
Qed.

End MergeInfoFacts.

(** The theorem at a two-page and a three-page file. *)
Lemma mergeInfo_consistent_witness :
  exists info,
    @getPDFMergeInfo toyPdf [toyFile "12"; toyFile "345"] = inr info /\
    info_totalPages info = list_sum (filePageCounts info) /\
    fileCount info = 2%nat.
Proof.
  destruct (@getPDFMergeInfo toyPdf [toyFile "12"; toyFile "345"]) as [msg|info] eqn:E;
    [vm_compute in E; discriminate|].
  destruct (@mergeInfo_consistent toyPdf _ info E) as (_ & Hsum & Hcount & _).
  exists info. repeat split; assumption.
Defined.

(** X15.  Larger inputs are copied in smaller batches: the batch size is 20, 10
    or 5 pages and never grows with the size of the file. *)
Theorem batchSizeFor_antitone (small large : Z) :
  (small <= large)%Z ->
  (batchSizeFor large <= batchSizeFor small)%Z /\
  (batchSizeFor small = 20 \/ batchSizeFor small = 10 \/ batchSizeFor small = 5)%Z.
Proof.
  intros H. unfold batchSizeFor, MB.
  destruct (100 * (1024 * 1024) <? small)%Z eqn:E1;
    destruct (20 * (1024 * 1024) <? small)%Z eqn:E2;
    destruct (100 * (1024 * 1024) <? large)%Z eqn:E3;
    destruct (20 * (1024 * 1024) <? large)%Z eqn:E4;
    try apply Z.ltb_lt in E1; try apply Z.ltb_ge in E1;
    try apply Z.ltb_lt in E2; try apply Z.ltb_ge in E2;
    try apply Z.ltb_lt in E3; try apply Z.ltb_ge in E3;
    try apply Z.ltb_lt in E4; try apply Z.ltb_ge in E4;
    split; auto; lia.
Qed.

(** The theorem at a file of 1 MB and a file of 200 MB. *)
Lemma batchSizeFor_antitone_witness :
  (batchSizeFor (200 * MB) <= batchSizeFor MB)%Z.
Proof.
  apply (@batchSizeFor_antitone MB (200 * MB)). vm_compute. discriminate.
Defined.

(** ** SplitPlanner: all outputs or none *)

Section SplitAllOrNothing.

Context `{L : PdfLib}.

Lemma renderGroups_fails (sourcePdf : Doc) (groups : list SplitGroup) (grp : SplitGroup)
      (msg : string) :
  In grp groups -> renderGroup sourcePdf grp = inl msg ->
  exists reason, renderGroups sourcePdf groups = inl reason.
Proof.
  intros Hin Hbad. induction groups as [|g rest IH]; [destruct Hin|].
  simpl. destruct (renderGroup sourcePdf g) as [m|res] eqn:Eg.
  - exists m. reflexivity.
  - destruct Hin as [-> | Hin]; [congruence|].
    destruct (IH Hin) as [reason Hr]. exists reason. simpl. rewrite Hr. reflexivity.
Qed.

(** X16.  When one of the planned outputs cannot be copied or saved, the whole
    split fails: no partial set of outputs is returned. *)
Theorem split_all_or_nothing (pdfBuffer : Buffer) (sourcePdf : Doc) (d : SplitData)
        (groups : list SplitGroup) (grp : SplitGroup) (msg : string) :
  load pdfBuffer None = inr sourcePdf ->
  planSplit d (Z.of_nat (getPageCount sourcePdf)) = inr groups ->
  In grp groups -> renderGroup sourcePdf grp = inl msg ->
  exists reason, splitPDF pdfBuffer d = inl ("PDF splitting failed: " ++ reason)%string.
Proof.
  intros Hload Hplan Hin Hbad.
  destruct (renderGroups_fails sourcePdf groups grp Hin Hbad) as [reason Hr].
  exists reason. unfold splitPDF. rewrite Hload. simpl. rewrite Hplan. simpl.
  rewrite Hr. reflexivity.
Qed.

End SplitAllOrNothing.

(** The theorem at a file whose second page is damaged, split page by
    page. *)
Lemma split_all_or_nothing_witness :
  exists reason,
    @splitPDF toyPdf (toyFile "10") (mkSplitData "pages" [Int 1; Int 2] [] (Int 1) "doc") =
    inl ("PDF splitting failed: " ++ reason)%string.
Proof.
  apply (@split_all_or_nothing toyPdf (toyFile "10") (bytes_of "10")
           (mkSplitData "pages" [Int 1; Int 2] [] (Int 1) "doc")
           (planPages "doc" 2 [Int 1; Int 2])
           (mkSplitGroup [1%Z] "doc_page_2.pdf" "Page 2" (Int 1)) "damaged page").
  - reflexivity.
  - reflexivity.
  - right. left. reflexivity.
  - reflexivity.
Defined.

(** ** MergeOrchestrator: batching does not show in the result *)

Section BatchFacts.

Context `{L : PdfLib}.

Variables mergedPdf currentPdf : Doc.
Variable pageAt : Z -> Page.
Variable count : Z.

(** Every copy of pages of the document succeeds and gives the pages at
    the indices asked for. *)
Hypothesis copies_pagewise :
  forall indices, Forall (inBounds count) indices ->
                  copyPages mergedPdf currentPdf indices = inr (map pageAt indices).

Lemma range_inBounds (lo hi : Z) :
  (0 <= lo)%Z -> (hi <= count)%Z -> Forall (inBounds count) (range lo hi).
Proof.
  intros Hlo Hhi. apply Forall_forall. intros x Hx. apply In_range in Hx.
  unfold inBounds. lia.
Qed.

Lemma copyInBatches_pagewise (fuel : nat) (batchSize pageStart : Z)
      (all : list Page) (log : list LogEvent) :
  (1 <= batchSize)%Z -> (0 <= pageStart <= count)%Z ->
  (Z.to_nat (count - pageStart) <= fuel)%nat ->
  exists log',
    copyInBatches fuel mergedPdf currentPdf count batchSize pageStart (all, log) =
      (all ++ map pageAt (range pageStart count), log') /\
    skippedPages log' = skippedPages log.
Proof.
  intros Hb. revert pageStart all log.
  induction fuel as [|fuel IH]; intros pageStart all log Hs Hfuel; simpl.
  - exists log. rewrite range_nil by lia. rewrite app_nil_r. split; reflexivity.
  - destruct (pageStart <? count)%Z eqn:E.
    2:{ apply Z.ltb_ge in E. exists log. rewrite range_nil by lia.
        rewrite app_nil_r. split; reflexivity. }
    apply Z.ltb_lt in E.
    rewrite copies_pagewise by (apply range_inBounds; lia).
    destruct (Z_le_gt_dec (pageStart + batchSize) count) as [Hle|Hgt].
    + rewrite Z.min_l by lia.
      destruct (IH (pageStart + batchSize)%Z
                  (all ++ map pageAt (range pageStart (pageStart + batchSize)))
                  (log ++ [LogBatchCopied
                             (List.length (map pageAt (range pageStart (pageStart + batchSize))))]))
        as (log' & Hrun & Hskip); [lia | lia |].
      exists log'. rewrite Hrun. split.
      * rewrite <- app_assoc, <- map_app, range_app by lia. reflexivity.
      * rewrite Hskip, skippedPages_app. unfold skippedPages. simpl. lia.
    + rewrite Z.min_r by lia.
      destruct fuel as [|fuel'].
      * simpl. eexists. split; [reflexivity|].
        rewrite skippedPages_app. unfold skippedPages. simpl. lia.
      * simpl. replace (pageStart + batchSize <? count)%Z with false
          by (symmetry; apply Z.ltb_ge; lia).
        eexists. split; [reflexivity|].
        rewrite skippedPages_app. unfold skippedPages. simpl. lia.
Qed.

(** X17.  When the page copies of a document succeed, the pages are collected
    in their original order, each once and none skipped, whatever the
    batch size: batching does not show in the result. *)
Theorem batches_transparent (batchSize : Z) (log : list LogEvent) :
  (1 <= batchSize)%Z -> (0 <= count)%Z ->
  exists log',
    copyInBatches (Z.to_nat count) mergedPdf currentPdf count batchSize 0 ([], log) =
      (map pageAt (range 0 count), log') /\
    skippedPages log' = skippedPages log.
Proof.
  intros Hb Hc.
  destruct (@copyInBatches_pagewise (Z.to_nat count) batchSize 0 [] log Hb)
    as (log' & Hrun & Hskip);
    [lia | lia |].
  exists log'. split; [exact Hrun | exact Hskip].
Qed.

End BatchFacts.

(** The theorem at a document of 45 good pages, copied in batches of 20. *)
Lemma batches_transparent_witness :
  exists log',
    @copyInBatches toyPdf 45 [] (repeat "1"%byte 45) 45 20 0 ([], []) =
      (map (fun _ => "1"%byte) (range 0 45), log') /\
    skippedPages log' = 0%nat.
Proof.
  apply (@batches_transparent toyPdf [] (repeat "1"%byte 45) (fun _ => "1"%byte) 45).
  - intros indices Hin.
    change (toyCopyPages (repeat "1"%byte 45) indices = inr (map (fun _ => "1"%byte) indices)).
    induction indices as [|i rest IH]; [reflexivity|].
    inversion Hin as [|? ? Hi Hrest]; subst. unfold inBounds in Hi.
    cbn [toyCopyPages map].
    replace (0 <=? i)%Z with true by (symmetry; apply Z.leb_le; lia).
    rewrite nth_error_repeat by lia.
    change (Byte.eqb "1"%byte "0"%byte) with false. cbv iota.
    rewrite (IH Hrest). reflexivity.
  - lia.
  - lia.
Defined.

(** ** CompressionAdvisor: page count and success *)

Section CompressMoreFacts.

Context `{L : PdfLib}.

(** X18.  The document that is saved has as many pages as the loaded one, also
    when it was rebuilt for the [maximum] tier. *)
Theorem freshDocument_pageCount (level : CompressionLevel) (pdfDoc : Doc) :
  getPageCount (freshDocument level pdfDoc) = getPageCount pdfDoc.
Proof.
  destruct level; try reflexivity. simpl.
  destruct (copyPages create pdfDoc (range 0 (Z.of_nat (getPageCount pdfDoc))))
    as [msg|copied] eqn:E; [reflexivity|].
  apply copyPages_length in E.
  rewrite getPageCount_addPages, getPageCount_create, E, range_length. lia.
Qed.

(** X19.  When the input loads, every output the save configurations of the
    tier make reloads, and at least one of them saves (or else the basic
    configuration saves bytes that reload), [compressPDF] returns bytes. *)
Theorem compress_succeeds (pdfBuffer : Buffer) (c : CompressionData) (pdfDoc : Doc) :
  load pdfBuffer (Some compressLoadOptions) = inr pdfDoc ->
  (forall candidate,
      savedBy (compressionLevel c) (finalDocument c pdfDoc) candidate -> reloads candidate) ->
  ((exists candidate, savedBy (compressionLevel c) (finalDocument c pdfDoc) candidate) \/
   (exists bytes, save (finalDocument c pdfDoc) (Some basicSettings) = inr bytes /\
                  reloads bytes)) ->
  exists out, compressPDF pdfBuffer c = inr out /\ reloads out.
Proof.
  intros Hload Hvalid Hsome. unfold compressPDF. rewrite Hload. simpl.
  unfold bestAttempt.
  pose proof (attempts_spec (finalDocument c pdfDoc)
                (tierSettings (compressionLevel c)) None) as Hspec.
  destruct (fold_left (attempt (finalDocument c pdfDoc))
              (tierSettings (compressionLevel c)) None) as [[bytes used]|].
  - destruct Hspec as (_ & _ & [Hb | [Hin Hs]]); [discriminate|].
    assert (reloads bytes) as Hre by (apply Hvalid; exists used; split; assumption).
    exists bytes. split; [|exact Hre]. destruct Hre as [d Hd]. simpl. rewrite Hd. reflexivity.
  - destruct Hspec as [_ Hall].
    destruct Hsome as [(candidate & settings & Hin & Hs) | (bytes & Hsave & Hre)].
    + destruct (Hall settings Hin) as [msg Hmsg]. congruence.
    + exists bytes. split; [|exact Hre]. rewrite Hsave. destruct Hre as [d Hd].
      simpl. rewrite Hd. reflexivity.
Qed.

End CompressMoreFacts.

(** The theorem at a three-page file and the [maximum] tier. *)
Lemma compress_succeeds_witness :
  exists out,
    @compressPDF toyPdf (toyFile "123") (mkCompressionData maximum true) = inr out /\
    @reloads toyPdf out.
Proof.
  apply (@compress_succeeds toyPdf (toyFile "123") (mkCompressionData maximum true)
           (bytes_of "123") eq_refl).
  - intros candidate (settings & Hin & Hs).
    simpl in Hin. destruct Hin as [<- | [<- | [<- | [<- | []]]]];
      vm_compute in Hs; injection Hs as <-; eexists; vm_compute; reflexivity.
  - left. exists (toyFile "123"), (primarySettings maximum).
    split; [left; reflexivity | reflexivity].
Defined.

(** ** The compression handler *)

Lemma lastn_app_exact (A : Type) (l t : list A) :
  lastn (List.length t) (l ++ t) = t /\
  firstn (List.length (l ++ t) - List.length t) (l ++ t) = l.
Proof.
  unfold lastn. rewrite length_app.
  replace (List.length l + List.length t - List.length t)%nat with (List.length l) by lia.
  split.
  - rewrite skipn_app, skipn_all, Nat.sub_diag. reflexivity.
  - rewrite firstn_app, firstn_all, Nat.sub_diag. simpl. apply app_nil_r.
Qed.

(** X20.  A final [.pdf] is taken off a file name in whatever mix of upper and
    lower case it is written, and what stands before it is kept as it
    is. *)
Theorem stripPdfSuffix_removes (base ext : string) :
  map lowerAscii (chars ext) = chars ".pdf" ->
  stripPdfSuffix (base ++ ext) = base.
Proof.
  intros Hext. unfold stripPdfSuffix.
  assert (List.length (chars ext) = 4%nat) as Hlen
    by (rewrite <- (length_map lowerAscii), Hext; reflexivity).
  rewrite chars_append.
  destruct (lastn_app_exact (chars base) (chars ext)) as [Hlast Hfirst].
  rewrite Hlen in Hlast, Hfirst. rewrite Hlast, Hfirst, Hext.
  replace (4 <=? List.length (chars base ++ chars ext))%nat with true
    by (symmetry; apply Nat.leb_le; rewrite length_app; lia).
  simpl. apply text_of_chars.
Qed.

(** The theorem at the name [Report.PDF]. *)
Lemma stripPdfSuffix_removes_witness : stripPdfSuffix "Report.PDF" = "Report".
Proof.
  apply (@stripPdfSuffix_removes "Report" ".PDF"). reflexivity.
Defined.

Section CompressHandlerFacts.

Context `{L : PdfLib}.

Variable reductionPercent : Z -> Z -> string.

(** X21.  The compression handler sends a download only for an upload of at
    most 250 MB that the service compressed: the bytes sent are the bytes
    the service returned, they reload, are not empty and begin with the
    signature, and the size headers give the lengths of the upload and of
    the bytes sent.  An upload above 250 MB is refused with the status 400
    whatever the file holds. *)
Theorem compress_handler_sends_reloadable (req : CompressRequest) :
  (forall headers body,
      controllerCompressPDF reductionPercent req = PdfDownload headers body ->
      exists file,
        creq_file req = Some file /\
        (byteLength (file_buffer file) <= 250 * MB)%Z /\
        compressPDF (file_buffer file) (creq_data req) = inr body /\
        reloads body /\ body <> [] /\
        startsWith (asciiHead body) "%PDF-" = true /\
        In ("X-Original-Size", showZ (byteLength (file_buffer file))) headers /\
        In ("X-Compressed-Size", showZ (byteLength body)) headers /\
        In ("Content-Length", showZ (byteLength body)) headers) /\
  (forall file,
      creq_file req = Some file -> (250 * MB < byteLength (file_buffer file))%Z ->
      controllerCompressPDF reductionPercent req =
        JsonError 400 "File too large"
          "Maximum file size for compression is 250MB. Please use a smaller file.").
Proof.
  split.
  - intros headers body. unfold controllerCompressPDF.
    destruct (creq_file req) as [file|]; [|discriminate].
    destruct (250 * MB <? byteLength (file_buffer file))%Z eqn:Esize; [discriminate|].
    apply Z.ltb_ge in Esize.
    destruct (creq_dataIsNull req); [discriminate|].
    destruct (compressPDF (file_buffer file) (creq_data req)) as [msg|finalBuffer] eqn:Ec;
      [discriminate|].
    destruct (byteLength finalBuffer =? 0)%Z eqn:E0; [discriminate|].
    destruct (startsWith (asciiHead finalBuffer) "%PDF-") eqn:Eh; [|discriminate].
    destruct (creq_outputFileNamePrints req); [|discriminate].
    destruct (validHeaderValue (contentDisposition (compressedName req file)));
      [|discriminate].
    simpl. intros [= <- <-]. exists file.
    destruct (compressPDF_inr _ _ Ec) as (pdfDoc & _ & Hre & _).
    repeat split; try assumption; try reflexivity.
    + intros ->. discriminate.
    + unfold compressHeaders. simpl. auto 12.
    + unfold compressHeaders. simpl. auto 12.
    + unfold compressHeaders. simpl. auto 12.
  - intros file Hfile Hbig. unfold controllerCompressPDF. rewrite Hfile.
    replace (250 * MB <? byteLength (file_buffer file))%Z with true
      by (symmetry; apply Z.ltb_lt; exact Hbig).
    reflexivity.
Qed.

End CompressHandlerFacts.

(** The theorem at the compression of a two-page file at the [low]
    tier. *)
Lemma compress_handler_sends_reloadable_witness :
  exists headers body,
    @controllerCompressPDF toyPdf (fun _ _ => "0.0")
      (mkCompressRequest (Some (mkUploadedFile "Report.PDF" (toyFile "12"))) false
         (mkCompressionData low true) None true "ts") = PdfDownload headers body /\
    @reloads toyPdf body /\
    In ("X-Compressed-Size", "45") headers.
Proof.
  destruct (@controllerCompressPDF toyPdf (fun _ _ => "0.0")
              (mkCompressRequest (Some (mkUploadedFile "Report.PDF" (toyFile "12"))) false
                 (mkCompressionData low true) None true "ts")) as [st e dt|headers body] eqn:E;
    [vm_compute in E; discriminate|].
  destruct (proj1 (@compress_handler_sends_reloadable toyPdf (fun _ _ => "0.0") _)
              headers body E) as (file & Hfile & _ & _ & Hre & _ & _ & _ & Hsize & _).
  exists headers, body. split; [reflexivity|]. split; [exact Hre|].
  vm_compute in E. injection E as <- <-. vm_compute. auto 12.
Defined.

(** ** AnnotationPipeline: the header and footer request as a whole *)

Section HeaderFooterService.

Context `{L : PdfLib}.

(** X22.  For a document that loads, a start page whose numeric value is
    below 1 (0 and every negative number, so also [null], [false] and the
    empty string, which count as 0, and minus infinity) makes the header
    and footer request fail at the first page access, before anything is
    drawn or saved and whatever else the request holds; so does a fraction
    that, less 1, is below the page count.  A start page whose numeric
    value is [NaN] or plus infinity, or a fraction beyond that, draws
    nothing: what is saved is the loaded document with the font embedded
    in it. *)
Theorem headerFooter_start_page_edges (pdfBuffer : Buffer) (pdfDoc : Doc)
        (h : HeaderFooterData) :
  load pdfBuffer None = inr pdfDoc ->
  (forall q,
      startPage h = Fin q ->
      (q < 1)%Q \/
      (integerValue q = None /\ (q - 1 < inject_Z (Z.of_nat (getPageCount pdfDoc)))%Q) ->
      addHeaderFooterToPDF pdfBuffer h =
        inl ("PDF processing failed: " ++ undefinedPageError)%string) /\
  (startPage h = NegInf ->
   addHeaderFooterToPDF pdfBuffer h =
     inl ("PDF processing failed: " ++ undefinedPageError)%string) /\
  (startPage h = NaN \/ startPage h = PosInf \/
   (exists q, startPage h = Fin q /\ integerValue q = None /\
              (inject_Z (Z.of_nat (getPageCount pdfDoc)) <= q - 1)%Q) ->
   addHeaderFooterToPDF pdfBuffer h =
     rethrow "PDF processing failed: " (save (embedFont pdfDoc "Helvetica") None)).
Proof.
  intros Hload. split; [|split].
  - intros q Hsp Hq. unfold addHeaderFooterToPDF. rewrite Hload. simpl.
    assert (0 <= Z.of_nat (getPageCount pdfDoc))%Z as Hn by lia.
    destruct Hq as [Hlt | [Hfrac Hlt]].
    + rewrite (@headerFooterOps_below_one h (Z.of_nat (getPageCount pdfDoc)) q Hsp Hlt Hn).
      reflexivity.
    + rewrite (proj1 (@fraction_startPage_ops h
                        (Z.of_nat (getPageCount pdfDoc)) q Hsp Hfrac) Hlt).
      reflexivity.
  - intros Hsp. unfold addHeaderFooterToPDF, headerFooterOps. rewrite Hload, Hsp.
    reflexivity.
  - intros Hsp. unfold addHeaderFooterToPDF. rewrite Hload. simpl.
    assert (headerFooterOps h (Z.of_nat (getPageCount pdfDoc)) = inr []) as ->.
    { destruct Hsp as [Hsp | [Hsp | (q & Hsp & Hfrac & Hle)]].
      - unfold headerFooterOps. rewrite Hsp. reflexivity.
      - unfold headerFooterOps. rewrite Hsp. reflexivity.
      - exact (proj2 (@fraction_startPage_ops h
                        (Z.of_nat (getPageCount pdfDoc)) q Hsp Hfrac) Hle). }
    reflexivity.
Qed.

End HeaderFooterService.

(** The theorem at a start page of -3 on a two-page file. *)
Lemma headerFooter_start_page_edges_witness :
  @addHeaderFooterToPDF toyPdf (toyFile "12") (pageNumberHeader (Int (-3))) =
  inl "PDF processing failed: Cannot read properties of undefined (reading 'getSize')".
Proof.
  apply (proj1 (@headerFooter_start_page_edges toyPdf (toyFile "12") (bytes_of "12")
                  (pageNumberHeader (Int (-3))) eq_refl) (inject_Z (-3)) eq_refl).
  left. reflexivity.
Defined.

(** ** ValidationPipeline: where the end-of-file marker must be *)

Lemma includesb_skipn (A : Type) (eqb : A -> A -> bool) (p s : list A) (k : nat) :
  includesb eqb p s = false -> includesb eqb p (skipn k s) = false.
Proof.
  revert s. induction k as [|k IH]; intros s H; [exact H|].
  destruct s as [|c s]; [exact H|].
  simpl skipn. apply IH. cbn [includesb] in H. apply orb_false_iff in H. tauto.
Qed.

(** Decoding takes nothing away but, at most, the first three bytes. *)
Lemma decode_skipn (bytes : Buffer) : exists k, decode bytes = skipn k bytes.
Proof.
  destruct bytes as [|b1 [|b2 [|b3 text]]]; try (exists 0%nat; reflexivity).
  unfold decode.
  destruct (Byte.eqb b1 xef && Byte.eqb b2 xbb && Byte.eqb b3 xbf);
    [exists 3%nat | exists 0%nat]; reflexivity.
Qed.

(** X23.  The structure check looks for the end-of-file marker in the last
    1024 bytes only: bytes followed by 1024 or more bytes without the
    marker never pass, whatever stands before them. *)
Theorem validation_needs_late_eof (pdfBytes padding : Buffer) :
  (1024 <= List.length padding)%nat ->
  bytesInclude padding "%%EOF" = false ->
  exists reason, validatePDFStructure (pdfBytes ++ padding) = inl reason.
Proof.
  intros Hlen Hpad. unfold validatePDFStructure. cbv zeta.
  destruct (negb (startsWith (decode (firstn 8 (pdfBytes ++ padding))) "%PDF-")).
  - eexists. reflexivity.
  - assert (bytesInclude (decode (lastn 1024 (pdfBytes ++ padding))) "%%EOF" = false)
      as Hlast.
    { destruct (decode_skipn (lastn 1024 (pdfBytes ++ padding))) as [k ->].
      unfold bytesInclude, lastn. rewrite length_app, skipn_app.
      replace (List.length pdfBytes + List.length padding - 1024 - List.length pdfBytes)%nat
        with (List.length padding - 1024)%nat by lia.
      rewrite (@skipn_all2 _ _ pdfBytes) by lia. simpl app.
      apply includesb_skipn. apply includesb_skipn. exact Hpad. }
    rewrite Hlast. eexists. reflexivity.
Qed.

(** The theorem at a valid file followed by 1024 blanks. *)
Lemma validation_needs_late_eof_witness :
  exists reason,
    validatePDFStructure (toyFile "12" ++ repeat " "%byte 1024) = inl reason.
Proof.
  apply (@validation_needs_late_eof (toyFile "12") (repeat " "%byte 1024)).
  - rewrite repeat_length. lia.
  - vm_compute. reflexivity.
Defined.
